(** * pg_check: the item bitmap ([src/item-bitmap.c])

    A shallow embedding of the item bitmap that pg_check uses to cross-check
    a heap against its indexes, and the properties of it that the
    specification states, with more properties of the code after them.

    The C code works on [palloc]'ed memory through pointers, so the
    embedding is a small state-and-error monad over an explicit store:
    - a pointer is a block number, [NULL] is 0, and [palloc] always hands
      out a block that was never used before;
    - a block holds the [item_bitmap] struct, an [int] array or a [char]
      array; a read or write outside a block, or through a pointer to no
      block, stops the run ([Stuck]) - C gives such an access no meaning;
    - [int] is 32 bits and [char] is 8 bits, both signed, and arithmetic
      wraps around ([to_int], [to_char]);
    - C's [/] and [%] truncate towards zero: [Z.quot] and [Z.rem];
    - [pfree] gives a block back, and a block that was given back is no
      block any more;
    - [assert] stops the run when its condition is false;
    - [elog(WARNING, ...)] only writes to the server log and is left out. *)

From Stdlib Require Import ZArith Lia List Bool Ascii String.
From stdpp Require Import base numbers option list.

Local Open Scope Z_scope.

(** ** Machine integers *)

Definition INT_MIN : Z := - 2 ^ 31.
Definition INT_MAX : Z := 2 ^ 31 - 1.

(** The value an [int] holds after a computation whose exact result is [z]. *)
Definition to_int (z : Z) : Z := (z + 2 ^ 31) `mod` 2 ^ 32 - 2 ^ 31.

(** The value a [char] holds after the [int] [z] is assigned to it. *)
Definition to_char (z : Z) : Z := (z + 128) `mod` 256 - 128.

(** The value a [uint32] holds after [z] is assigned to it. *)
Definition to_uint32 (z : Z) : Z := z `mod` 2 ^ 32.

Definition is_int (z : Z) : Prop := INT_MIN <= z <= INT_MAX.

(** ** The store *)

Definition ptr := nat.
Definition NULL : ptr := 0%nat.

(** Modelled from the spec: the struct [item_bitmap] is declared in
    [item-bitmap.h], which is not among the sources. The fields are the
    ones [item-bitmap.c] uses; in the specification's words they are
    [page_count], [page_item_offsets], [byte_count], [capacity_bytes] and
    [bits]. *)
Record item_bitmap : Type := mk_item_bitmap {
  npages : Z;     (* number of tracked pages *)
  pages : ptr;    (* int[npages], cumulative number of items *)
  nbytes : Z;     (* bytes in use *)
  maxBytes : Z;   (* bytes allocated *)
  data : ptr      (* char[maxBytes], one bit per item *)
}.

Definition set_npages (v : Z) (s : item_bitmap) : item_bitmap :=
  mk_item_bitmap v (pages s) (nbytes s) (maxBytes s) (data s).
Definition set_pages (v : ptr) (s : item_bitmap) : item_bitmap :=
  mk_item_bitmap (npages s) v (nbytes s) (maxBytes s) (data s).
Definition set_nbytes (v : Z) (s : item_bitmap) : item_bitmap :=
  mk_item_bitmap (npages s) (pages s) v (maxBytes s) (data s).
Definition set_maxBytes (v : Z) (s : item_bitmap) : item_bitmap :=
  mk_item_bitmap (npages s) (pages s) (nbytes s) v (data s).
Definition set_data (v : ptr) (s : item_bitmap) : item_bitmap :=
  mk_item_bitmap (npages s) (pages s) (nbytes s) (maxBytes s) v.

Inductive chunk : Type :=
  | Struct (s : item_bitmap)
  | Ints (l : list Z)
  | Chars (l : list Z)
  | Freed.

Definition heap := list chunk.

Definition chunk_at (h : heap) (p : ptr) : option chunk :=
  match p with
  | O => None
  | S i => h !! i
  end.

Definition heap_set (h : heap) (p : ptr) (c : chunk) : heap :=
  match p with
  | O => h
  | S i => <[i := c]> h
  end.

(** Array cells are addressed by a C [int]. *)
Definition cell (l : list Z) (i : Z) : option Z :=
  if 0 <=? i then l !! Z.to_nat i else None.

Definition set_cell (l : list Z) (i : Z) (v : Z) : list Z :=
  <[Z.to_nat i := v]> l.

(** ** The monad *)

Inductive fault : Type :=
  | AssertionFailed
  | InvalidPointer
  | OutOfBounds
  | NegativeShift.

Inductive outcome (A : Type) : Type :=
  | Ok (a : A) (h : heap)
  | Stuck (f : fault).
Arguments Ok {A} a h.
Arguments Stuck {A} f.

Definition M (A : Type) : Type := heap -> outcome A.

Definition ret {A} (a : A) : M A := fun h => Ok a h.
Definition bind {A B} (m : M A) (k : A -> M B) : M B :=
  fun h => match m h with
           | Ok a h' => k a h'
           | Stuck f => Stuck f
           end.
Definition stuck {A} (f : fault) : M A := fun _ => Stuck f.

#[global] Instance M_ret : MRet M := @ret.
#[global] Instance M_bind : MBind M := fun A B k m => bind m k.

Definition assert (b : bool) : M unit :=
  if b then ret tt else stuck AssertionFailed.

(** [for (i = lo; i < hi; i++) body], with the variables the body updates
    threaded through as [s]. *)
Fixpoint for_loop {S : Type} (n : nat) (i : Z) (body : Z -> S -> M S) (s : S) : M S :=
  match n with
  | O => ret s
  | Datatypes.S n' => s' ← body i s; for_loop n' (i + 1) body s'
  end.

Definition for_ {S : Type} (lo hi : Z) (body : Z -> S -> M S) (s : S) : M S :=
  for_loop (Z.to_nat (hi - lo)) lo body s.

(** ** Memory operations *)

Section Bitmap.

(** What freshly allocated memory holds before it is written: [palloc]
    does not clear it. The properties hold whatever these values are. *)
Variable junk : nat -> Z.

Definition uninit (n : Z) : list Z := map junk (seq 0 (Z.to_nat n)).

Definition junk_struct : item_bitmap :=
  mk_item_bitmap (junk 0) (Z.to_nat (junk 1)) (junk 2) (junk 3) (Z.to_nat (junk 4)).

(** [palloc]: a new block, with the given first content. *)
Definition palloc (c : chunk) : M ptr :=
  fun h => Ok (S (length h)) (h ++ [c]).

(** [repalloc(p, n)] for a [char] block: the block moves, its first bytes
    are kept, the rest is not initialised, and the old block is gone. *)
Definition repalloc (p : ptr) (n : Z) : M ptr :=
  fun h => match chunk_at h p with
           | Some (Chars l) =>
               Ok (S (length h))
                  (heap_set h p Freed ++
                   [Chars (take (Z.to_nat n) l ++ uninit (n - Z.of_nat (length l)))])
           | _ => Stuck InvalidPointer
           end.

(** [*bitmap] read as a whole, and written as a whole. *)
Definition get (bitmap : ptr) : M item_bitmap :=
  fun h => match chunk_at h bitmap with
           | Some (Struct s) => Ok s h
           | _ => Stuck InvalidPointer
           end.

Definition put (bitmap : ptr) (s : item_bitmap) : M unit :=
  fun h => match chunk_at h bitmap with
           | Some (Struct _) => Ok tt (heap_set h bitmap (Struct s))
           | _ => Stuck InvalidPointer
           end.

(** [bitmap->field = v] *)
Definition update (bitmap : ptr) (f : item_bitmap -> item_bitmap) : M unit :=
  s ← get bitmap; put bitmap (f s).

(** [p[i]] for an [int *] *)
Definition load_int (p : ptr) (i : Z) : M Z :=
  fun h => match chunk_at h p with
           | Some (Ints l) =>
               match cell l i with
               | Some v => Ok v h
               | None => Stuck OutOfBounds
               end
           | _ => Stuck InvalidPointer
           end.

(** [p[i] = v] for an [int *] *)
Definition store_int (p : ptr) (i : Z) (v : Z) : M unit :=
  fun h => match chunk_at h p with
           | Some (Ints l) =>
               match cell l i with
               | Some _ => Ok tt (heap_set h p (Ints (set_cell l i v)))
               | None => Stuck OutOfBounds
               end
           | _ => Stuck InvalidPointer
           end.

(** [p[i]] for a [char *] *)
Definition load_char (p : ptr) (i : Z) : M Z :=
  fun h => match chunk_at h p with
           | Some (Chars l) =>
               match cell l i with
               | Some v => Ok v h
               | None => Stuck OutOfBounds
               end
           | _ => Stuck InvalidPointer
           end.

(** [p[i] = v] for a [char *]; the [int] value is cut to a [char]. *)
Definition store_char (p : ptr) (i : Z) (v : Z) : M unit :=
  fun h => match chunk_at h p with
           | Some (Chars l) =>
               match cell l i with
               | Some _ => Ok tt (heap_set h p (Chars (set_cell l i (to_char v))))
               | None => Stuck OutOfBounds
               end
           | _ => Stuck InvalidPointer
           end.

(** [memset(p + off, c, n)] for a [char *] *)
Definition memset (p : ptr) (off : Z) (c : Z) (n : Z) : M unit :=
  fun h => match chunk_at h p with
           | Some (Chars l) =>
               if (0 <=? off) && (0 <=? n) && (off + n <=? Z.of_nat (length l)) then
                 Ok tt (heap_set h p
                          (Chars (take (Z.to_nat off) l ++
                                  replicate (Z.to_nat n) (to_char c) ++
                                  drop (Z.to_nat (off + n)) l)))
               else Stuck OutOfBounds
           | _ => Stuck InvalidPointer
           end.

(** [memcpy(dst, src, sizeof(int) * n)] between two [int] blocks *)
Definition memcpy_int (dst src : ptr) (n : Z) : M unit :=
  fun h => match chunk_at h dst, chunk_at h src with
           | Some (Ints ld), Some (Ints ls) =>
               if (0 <=? n) && (n <=? Z.of_nat (length ld)) && (n <=? Z.of_nat (length ls)) then
                 Ok tt (heap_set h dst
                          (Ints (take (Z.to_nat n) ls ++ drop (Z.to_nat n) ld)))
               else Stuck OutOfBounds
           | _, _ => Stuck InvalidPointer
           end.

(** [1 << n] on [int]; a negative shift count has no meaning in C. *)
Definition shl1 (n : Z) : M Z :=
  if n <? 0 then stuck NegativeShift else ret (to_int (Z.shiftl 1 n)).

(** ** The host's pages

    PostgreSQL's page format is not part of pg_check. A page is seen
    through the accessors that [item-bitmap.c] applies to it: the number of
    line pointers, the line pointer of a slot, and the tuple header found
    at a byte offset of the page. *)

Record ItemIdData : Type := mk_ItemIdData {
  lp_off : Z;     (* offset of the tuple in the page *)
  lp_flags : Z    (* state of the line pointer *)
}.

Definition LP_UNUSED : Z := 0.
Definition LP_NORMAL : Z := 1.
Definition LP_REDIRECT : Z := 2.
Definition LP_DEAD : Z := 3.

Definition ItemIdIsUsed (itemId : ItemIdData) : bool :=
  negb (lp_flags itemId =? LP_UNUSED).

Record HeapTupleHeaderData : Type := mk_HeapTupleHeaderData {
  t_infomask2 : Z
}.

Definition HEAP_ONLY_TUPLE : Z := 32768.

Definition HeapTupleHeaderIsHeapOnly (tup : HeapTupleHeaderData) : bool :=
  negb (Z.land (t_infomask2 tup) HEAP_ONLY_TUPLE =? 0).

Record ItemPointerData : Type := mk_ItemPointerData {
  ip_blkid : Z;   (* block number, a uint32 *)
  ip_posid : Z    (* offset number, a uint16, counted from 1 *)
}.

Record IndexTupleData : Type := mk_IndexTupleData {
  t_tid : ItemPointerData
}.

Record PageImage : Type := mk_PageImage {
  PageGetMaxOffsetNumber : Z;
  pd_linp : Z -> ItemIdData;
  heap_tuple_at : Z -> HeapTupleHeaderData;
  index_tuple_at : Z -> IndexTupleData
}.

Definition PageGetItem (p : PageImage) (itemId : ItemIdData) : HeapTupleHeaderData :=
  heap_tuple_at p (lp_off itemId).

Definition BlockIdGetBlockNumber (tid : ItemPointerData) : Z := ip_blkid tid.

(** The most line pointers a heap page can hold; PostgreSQL derives it
    from the block size (291 for 8kB blocks). *)
Variable MaxHeapTuplesPerPage : Z.

(** ** The bitmap *)

Definition PALLOC_CHUNK : Z := 1024.

Definition zero_struct : item_bitmap := mk_item_bitmap 0 NULL 0 0 NULL.

Definition bitmap_init (npages : Z) : M ptr :=
  assert (0 <=? npages);;
  bitmap ← palloc (Struct junk_struct);
  put bitmap zero_struct;;
  update bitmap (set_npages npages);;
  pg ← palloc (Ints (uninit npages));
  update bitmap (set_pages pg);;
  update bitmap (set_nbytes 0);;
  update bitmap
    (set_maxBytes (to_int (PALLOC_CHUNK * to_int ((npages `quot` PALLOC_CHUNK) `quot` 8 + 1))));;
  s ← get bitmap;
  dt ← palloc (Chars (uninit (maxBytes s)));
  update bitmap (set_data dt);;
  s ← get bitmap;
  memset (data s) 0 0 (maxBytes s);;
  ret bitmap.

Definition bitmap_copy (src : ptr) : M ptr :=
  assert (negb (Nat.eqb src NULL));;
  bitmap ← palloc (Struct junk_struct);
  s ← get src;
  update bitmap (set_npages (npages s));;
  update bitmap (set_nbytes (nbytes s));;
  update bitmap (set_maxBytes (maxBytes s));;
  pg ← palloc (Ints (uninit (npages s)));
  update bitmap (set_pages pg);;
  b ← get bitmap;
  memcpy_int (pages b) (pages s) (npages s);;
  dt ← palloc (Chars (uninit (maxBytes s)));
  update bitmap (set_data dt);;
  b ← get bitmap;
  memset (data b) 0 0 (maxBytes s);;
  ret bitmap.

Definition bitmap_reset (bitmap : ptr) : M unit :=
  s ← get bitmap;
  memset (data s) 0 0 (maxBytes s).

Definition bitmap_add_page (bitmap : ptr) (page items : Z) : M unit :=
  assert (0 <=? page);;
  s ← get bitmap;
  assert (page <? npages s);;
  assert (0 <=? items);;
  assert (items <=? MaxHeapTuplesPerPage);;
  (if page =? 0 then store_int (pages s) page items
   else prev ← load_int (pages s) (to_int (page - 1));
        store_int (pages s) page (to_int (items + prev)));;
  total ← load_int (pages s) page;
  update bitmap (set_nbytes (to_int (total + 7) `quot` 8));;
  s ← get bitmap;
  if maxBytes s <? nbytes s then
    let len := maxBytes s in
    update bitmap (set_maxBytes (to_int (maxBytes s + PALLOC_CHUNK)));;
    s ← get bitmap;
    dt ← repalloc (data s) (maxBytes s);
    update bitmap (set_data dt);;
    s ← get bitmap;
    memset (data s) len 0 PALLOC_CHUNK
  else ret tt.

(** Modelled from the spec: the macro [GetBitmapIndex] is defined in
    [item-bitmap.h], which is not among the sources. The specification
    gives the global bit index of item [j] on page [p] as
    [(p == 0 ? 0 : page_item_offsets[p-1]) + j]. *)
Definition GetBitmapIndex (bitmap : ptr) (page item : Z) : M Z :=
  s ← get bitmap;
  if page =? 0 then ret (to_int (0 + item))
  else prev ← load_int (pages s) (to_int (page - 1));
       ret (to_int (prev + item)).

Definition bitmap_set_item (bitmap : ptr) (page item : Z) (state : bool) : M bool :=
  idx ← GetBitmapIndex bitmap page item;
  let byteIdx := idx `quot` 8 in
  idx' ← GetBitmapIndex bitmap page item;
  let bitIdx := idx' `rem` 8 in
  s ← get bitmap;
  if npages s <=? page then ret false
  else if nbytes s <? byteIdx then ret false
  else
    count ← load_int (pages s) page;
    if count <=? item then ret false
    else
      (if state then
         c ← load_char (data s) byteIdx;
         m ← shl1 bitIdx;
         store_char (data s) byteIdx (Z.lor c m)
       else
         c ← load_char (data s) byteIdx;
         m ← shl1 bitIdx;
         store_char (data s) byteIdx (Z.land c (Z.lnot m)));;
      ret true.

Definition bitmap_get_item (bitmap : ptr) (page item : Z) : M bool :=
  idx ← GetBitmapIndex bitmap page item;
  let byteIdx := idx `quot` 8 in
  idx' ← GetBitmapIndex bitmap page item;
  let bitIdx := idx' `rem` 8 in
  s ← get bitmap;
  if npages s <=? page then ret false
  else if nbytes s <? byteIdx then ret false
  else
    count ← load_int (pages s) page;
    if count <=? item then ret false
    else
      c ← load_char (data s) byteIdx;
      (* [&&]: the right operand is evaluated only when the left is not 0 *)
      if c =? 0 then ret false
      else m ← shl1 bitIdx; ret (negb (m =? 0)).

(** [if (! call) nerrs++] *)
Definition count_failure (nerrs : Z) (ok : bool) : Z :=
  if ok then nerrs else to_int (nerrs + 1).

(** The body of the first loop of [bitmap_add_heap_items]: every used
    line pointer gets its bit. *)
Definition first_pass (bitmap : ptr) (header : PageImage) (page : Z)
    (item nerrs : Z) : M Z :=
  if ItemIdIsUsed (pd_linp header item) then
    ok ← bitmap_set_item bitmap page item true;
    ret (count_failure nerrs ok)
  else ret nerrs.

(** The body of the second loop: the HOT chains are removed. *)
Definition second_pass (bitmap : ptr) (header raw_page : PageImage) (page : Z)
    (item nerrs : Z) : M Z :=
  let htup := PageGetItem raw_page (pd_linp header item) in
  if HeapTupleHeaderIsHeapOnly htup then
    occupied ← bitmap_get_item bitmap page item;
    if (occupied : bool) then
      ok ← bitmap_set_item bitmap page item false;
      ret (count_failure nerrs ok)
    else ret nerrs
  else ret nerrs.

Definition bitmap_add_heap_items (bitmap : ptr) (header raw_page : PageImage) (page : Z) : M Z :=
  let ntuples := PageGetMaxOffsetNumber raw_page in
  bitmap_add_page bitmap page ntuples;;
  nerrs ← for_ 0 ntuples (first_pass bitmap header page) 0;
  for_ 0 ntuples (second_pass bitmap header raw_page page) nerrs.

(** The heap location that the index tuple of a slot points to, as the
    two [int] arguments that [bitmap_add_index_items] passes on: the block
    number, and the offset number made to count from 0. *)
Definition index_target (header raw_page : PageImage) (item : Z) : Z * Z :=
  let itup := index_tuple_at raw_page (lp_off (pd_linp header item)) in
  (to_int (BlockIdGetBlockNumber (t_tid itup)), to_int (ip_posid (t_tid itup) - 1)).

(** The body of the loop of [bitmap_add_index_items]. *)
Definition index_pass (bitmap : ptr) (header raw_page : PageImage)
    (item nerrs : Z) : M Z :=
  ok ← bitmap_set_item bitmap
         (fst (index_target header raw_page item))
         (snd (index_target header raw_page item)) true;
  ret (count_failure nerrs ok).

Definition bitmap_add_index_items (bitmap : ptr) (header raw_page : PageImage) (page : Z) : M Z :=
  let ntuples := PageGetMaxOffsetNumber raw_page in
  for_ 0 ntuples (index_pass bitmap header raw_page) 0.

(** [i], [j] and the counters are [long]: 64 bits, which a count of at
    most [8 * nbytes] bits cannot overflow, [nbytes] being an [int]. *)
Definition bitmap_count (bitmap : ptr) : M Z :=
  s ← get bitmap;
  for_ 0 (nbytes s) (fun i items =>
      for_ 0 8 (fun j items =>
          c ← load_char (data s) i;
          m ← shl1 j;
          if negb (Z.land c m =? 0) then ret (items + 1) else ret items) items) 0.

Definition bitmap_compare (bitmap_a bitmap_b : ptr) : M Z :=
  a ← get bitmap_a;
  b ← get bitmap_b;
  if negb (npages a =? npages b) then
    last_a ← load_int (pages a) (to_int (npages a - 1));
    last_b ← load_int (pages b) (to_int (npages b - 1));
    ret (Z.max last_a last_b)
  else
    (* the [else if] only logs, but its condition reads both tables *)
    last_a ← load_int (pages a) (to_int (npages a - 1));
    last_b ← load_int (pages b) (to_int (npages b - 1));
    for_ 0 (nbytes a) (fun i ndiff =>
        ca ← load_char (data a) i;
        cb ← load_char (data b) i;
        let diff := to_char (Z.lxor ca cb) in
        if negb (diff =? 0) then
          for_ 0 8 (fun j ndiff =>
              m ← shl1 j;
              if negb (Z.land diff m =? 0) then ret (ndiff + 1) else ret ndiff) ndiff
        else ret ndiff) 0.

(** The table [_base64], as character codes. *)
Definition _base64 : list Z :=
  map (fun a => Z.of_N (Ascii.N_of_ascii a))
      (String.list_ascii_of_string
         "ABCDEFGHIJKLMNOPQRSTUVWXYZabcdefghijklmnopqrstuvwxyz0123456789+/"%string).

(** [_base64[i]] for [i] below 64, as [& 0x3f] makes it. *)
Definition base64_digit (i : Z) : Z := default 0 (cell _base64 i).

(** The variables of [base64]'s loop. *)
Record base64_vars : Type := mk_base64_vars {
  b64_k : Z;      (* int k *)
  b64_buf : Z;    (* uint32 buf *)
  b64_pos : Z     (* int pos *)
}.

Definition base64 (data : ptr) (n : Z) : M ptr :=
  result ← palloc (Chars (uninit (to_int (to_int (4 * (to_int (n + 2) `quot` 3)) + 1))));
  vars ← for_ 0 n (fun i vars =>
      c ← load_char data i;
      let buf := Z.lor (b64_buf vars)
                       (to_uint32 (to_int (Z.shiftl c (Z.shiftl (b64_pos vars) 3)))) in
      let pos := to_int (b64_pos vars - 1) in
      if pos <? 0 then
        let k := b64_k vars in
        store_char result k (base64_digit (Z.land (Z.shiftr buf 18) 63));;
        store_char result (k + 1) (base64_digit (Z.land (Z.shiftr buf 12) 63));;
        store_char result (k + 2) (base64_digit (Z.land (Z.shiftr buf 6) 63));;
        store_char result (k + 3) (base64_digit (Z.land buf 63));;
        ret (mk_base64_vars (k + 4) 0 2)
      else ret (mk_base64_vars (b64_k vars) buf pos))
    (mk_base64_vars 0 0 2);
  let buf := b64_buf vars in
  let pos := b64_pos vars in
  k ← (if negb (pos =? 2) then
         let k := b64_k vars in
         store_char result k (base64_digit (Z.land (Z.shiftr buf 18) 63));;
         store_char result (k + 1) (base64_digit (Z.land (Z.shiftr buf 12) 63));;
         store_char result (k + 2)
           (if pos =? 0 then base64_digit (Z.land (Z.shiftr buf 6) 63) else 0);;
         ret (k + 3)
       else ret (b64_k vars));
  store_char result k 0;;
  ret result.

(** The C string that starts a [char] block: the characters before the
    first [0]. *)
Fixpoint c_string (l : list Z) : list Z :=
  match l with
  | [] => []
  | c :: rest => if c =? 0 then [] else c :: c_string rest
  end.

(** [pfree(p)]: the block is given back. Giving back what is no block, or
    a block that was given back before, has no meaning. *)
Definition pfree (p : ptr) : M unit :=
  fun h => match chunk_at h p with
           | None | Some Freed => Stuck InvalidPointer
           | Some _ => Ok tt (heap_set h p Freed)
           end.

Definition bitmap_free (bitmap : ptr) : M unit :=
  assert (negb (Nat.eqb bitmap NULL));;
  s ← get bitmap;
  pfree (pages s);;
  s ← get bitmap;
  pfree (data s);;
  pfree bitmap.

(** The code of a character. *)
Definition chr (a : ascii) : Z := Z.of_N (Ascii.N_of_ascii a).

(** The table [hex] of the function [hex], as character codes. *)
Definition hex_chars : list Z :=
  map chr (String.list_ascii_of_string "0123456789abcdef"%string).

(** [hex[i]] for [i] below 16, as [& 0x0F] makes it. *)
Definition hex_digit (i : Z) : Z := default 0 (cell hex_chars i).

(** [data[i]] is a [char], which [>>] and [&] take as an [int]: the shift
    keeps the sign. *)
Definition hex (data : ptr) (n : Z) : M ptr :=
  result ← palloc (Chars (uninit (to_int (to_int (n * 2) + 1))));
  w ← for_ 0 n (fun i w =>
      c ← load_char data i;
      store_char result w (hex_digit (Z.land (Z.shiftr c 4) 15));;
      c ← load_char data i;
      store_char result (to_int (w + 1)) (hex_digit (Z.land c 15));;
      ret (to_int (to_int (w + 1) + 1))) 0;
  store_char result w 0;;
  ret result.

Definition binary (data : ptr) (n : Z) : M ptr :=
  result ← palloc (Chars (uninit (to_int (to_int (n * 8) + 10))));
  k ← for_ 0 n (fun i k =>
      for_ 0 8 (fun j k =>
          c ← load_char data i;
          m ← shl1 j;
          (if negb (Z.land c m =? 0) then store_char result k (chr "1")
           else store_char result k (chr "0"));;
          ret (to_int (k + 1))) k) 0;
  store_char result k 0;;
  ret result.

(** ** Registering pages in order

    The caller registers the pages one by one, in increasing order: page
    [page] with the first count, [page + 1] with the next, and so on. *)
Fixpoint register_pages (bitmap : ptr) (page : Z) (counts : list Z) : M unit :=
  match counts with
  | [] => ret tt
  | c :: rest => bitmap_add_page bitmap page c;; register_pages bitmap (page + 1) rest
  end.

(** ** What a bitmap pointer stands for

    The struct that [bitmap] points to, with the content of its two
    buffers. *)

Record bitmap_state : Type := mk_bitmap_state {
  hdr : item_bitmap;
  offsets : list Z;   (* the content of [pages] *)
  bits : list Z       (* the content of [data] *)
}.

Definition view (h : heap) (bitmap : ptr) : option bitmap_state :=
  match chunk_at h bitmap with
  | Some (Struct s) =>
      match chunk_at h (pages s), chunk_at h (data s) with
      | Some (Ints pg), Some (Chars dt) => Some (mk_bitmap_state s pg dt)
      | _, _ => None
      end
  | _ => None
  end.

(** The buffers have the sizes the struct records. *)
Definition sized (st : bitmap_state) : Prop :=
  0 <= npages (hdr st) <= INT_MAX /\
  Z.of_nat (length (offsets st)) = npages (hdr st) /\
  0 <= maxBytes (hdr st) <= INT_MAX /\
  Z.of_nat (length (bits st)) = maxBytes (hdr st).

(** The global bit index of [(page, item)], from the content of the
    offset table: [GetBitmapIndex] without the store. *)
Definition index_of (pg : list Z) (page item : Z) : option Z :=
  if page =? 0 then Some (to_int (0 + item))
  else match cell pg (to_int (page - 1)) with
       | Some prev => Some (to_int (prev + item))
       | None => None
       end.

(** The bit of a buffer at a global bit index, least significant bit of a
    byte first. *)
Definition bit_at (dt : list Z) (idx : Z) : option bool :=
  match cell dt (idx `quot` 8) with
  | Some c => Some (Z.testbit c (idx `rem` 8))
  | None => None
  end.

(** The bit that stands for [(page, item)]. *)
Definition item_bit (st : bitmap_state) (page item : Z) : option bool :=
  match index_of (offsets st) page item with
  | Some idx => bit_at (bits st) idx
  | None => None
  end.

(** ** Setting and reading a bit, on the content of the bitmap

    What [bitmap_set_item] and [bitmap_get_item] do, written on the state
    that the pointer stands for: the result and the new content of the bit
    buffer, or the fault that stops the call. Lemmas [bitmap_set_item_run]
    and [bitmap_get_item_run] relate them to the code. *)

Definition item_update (st : bitmap_state) (page item : Z) (state : bool)
    : fault + bool * list Z :=
  match index_of (offsets st) page item with
  | None => inl OutOfBounds
  | Some idx =>
      if npages (hdr st) <=? page then inr (false, bits st)
      else if nbytes (hdr st) <? idx `quot` 8 then inr (false, bits st)
      else match cell (offsets st) page with
           | None => inl OutOfBounds
           | Some count =>
               if count <=? item then inr (false, bits st)
               else match cell (bits st) (idx `quot` 8) with
                    | None => inl OutOfBounds
                    | Some c =>
                        if idx `rem` 8 <? 0 then inl NegativeShift
                        else
                          let m := to_int (Z.shiftl 1 (idx `rem` 8)) in
                          inr (true,
                               set_cell (bits st) (idx `quot` 8)
                                 (to_char (if state then Z.lor c m
                                           else Z.land c (Z.lnot m))))
                    end
           end
  end.

Definition item_probe (st : bitmap_state) (page item : Z) : fault + bool :=
  match index_of (offsets st) page item with
  | None => inl OutOfBounds
  | Some idx =>
      if npages (hdr st) <=? page then inr false
      else if nbytes (hdr st) <? idx `quot` 8 then inr false
      else match cell (offsets st) page with
           | None => inl OutOfBounds
           | Some count =>
               if count <=? item then inr false
               else match cell (bits st) (idx `quot` 8) with
                    | None => inl OutOfBounds
                    | Some c =>
                        if c =? 0 then inr false
                        else if idx `rem` 8 <? 0 then inl NegativeShift
                        else inr (negb (to_int (Z.shiftl 1 (idx `rem` 8)) =? 0))
                    end
           end
  end.

(** The state after the bit buffer got a new content. *)
Definition with_bits (st : bitmap_state) (dt : list Z) : bitmap_state :=
  mk_bitmap_state (hdr st) (offsets st) dt.

(** ** Registering a page, on the content of the bitmap

    The cumulative count that [bitmap_add_page] stores for [page], and the
    state it leaves; [new_data] is the block that [repalloc] hands out when
    the bit buffer grows. Lemma [bitmap_add_page_run] relates them to the
    code. *)

Definition page_total (pg : list Z) (page items : Z) : option Z :=
  if page =? 0 then Some items
  else match cell pg (to_int (page - 1)) with
       | Some prev => Some (to_int (items + prev))
       | None => None
       end.

Definition bytes_for (total : Z) : Z := to_int (total + 7) `quot` 8.

Definition registered (st : bitmap_state) (page total : Z) (new_data : ptr) : bitmap_state :=
  if maxBytes (hdr st) <? bytes_for total then
    mk_bitmap_state
      (mk_item_bitmap (npages (hdr st)) (pages (hdr st)) (bytes_for total)
                      (to_int (maxBytes (hdr st) + PALLOC_CHUNK)) new_data)
      (set_cell (offsets st) page total)
      (bits st ++ replicate (Z.to_nat PALLOC_CHUNK) 0)
  else
    mk_bitmap_state (set_nbytes (bytes_for total) (hdr st))
      (set_cell (offsets st) page total)
      (bits st).

(** ** Weakest preconditions

    [wp m Q h]: run from the store [h], [m] returns, with a result and a
    store that satisfy [Q]. *)
Definition wp {A : Type} (m : M A) (Q : A -> heap -> Prop) (h : heap) : Prop :=
  match m h with
  | Ok a h' => Q a h'
  | Stuck _ => False
  end.

(** The capacity [bitmap_init] starts with, and the state it builds. *)
Definition initial_capacity (n : Z) : Z :=
  to_int (PALLOC_CHUNK * to_int ((n `quot` PALLOC_CHUNK) `quot` 8 + 1)).

Definition initial_state (n : Z) (pg dt : ptr) : bitmap_state :=
  mk_bitmap_state
    (mk_item_bitmap n pg 0 (initial_capacity n) dt)
    (uninit n)
    (replicate (Z.to_nat (initial_capacity n)) 0).

(** The state [bitmap_copy] builds from the state of its source. *)
Definition copied_state (st : bitmap_state) (pg dt : ptr) : bitmap_state :=
  mk_bitmap_state
    (mk_item_bitmap (npages (hdr st)) pg (nbytes (hdr st)) (maxBytes (hdr st)) dt)
    (offsets st)
    (replicate (Z.to_nat (maxBytes (hdr st))) 0).

(** The store [h'] still holds every block of [h], unchanged. *)
Definition extends (h h' : heap) : Prop :=
  forall p c, chunk_at h p = Some c -> chunk_at h' p = Some c.

(** ** Building a bitmap

    A bitmap for [N] pages, with the pages [0], [1], ... registered in this
    order, page [i] with [counts[i]] items. *)
Definition build (N : Z) (counts : list Z) : M ptr :=
  bitmap ← bitmap_init N;
  register_pages bitmap 0 counts;;
  ret bitmap.

(** [c_0 + ... + c_i] *)
Definition total (counts : list Z) : Z := foldr Z.add 0 counts.

Definition prefix_sum (counts : list Z) (i : Z) : Z :=
  total (take (Z.to_nat (i + 1)) counts).

(** Every count is one that [bitmap_add_page] accepts. *)
Definition counts_ok (counts : list Z) : Prop :=
  Forall (fun c => 0 <= c <= MaxHeapTuplesPerPage) counts.

(** The byte count of a bitmap whose pages below [k] are registered: it
    fits the capacity and is the one of the last registered page. *)
Definition tidy (st : bitmap_state) (k : nat) : Prop :=
  nbytes (hdr st) <= maxBytes (hdr st) /\
  PALLOC_CHUNK <= maxBytes (hdr st) /\
  match k with
  | O => nbytes (hdr st) = 0
  | S k' => exists x, offsets st !! k' = Some x /\ is_int x /\
                      nbytes (hdr st) = bytes_for x
  end.

(** [item] is an item of the page [page], for the counts that the pages
    were registered with. *)
Definition item_of (counts : list Z) (page : nat) (item : Z) : Prop :=
  exists c, counts !! page = Some c /\ 0 <= item < c.

(** ** Runs that register the pages in order

    [in_order N bitmap k h]: the store [h] is reached by [bitmap_init N],
    then [bitmap_add_page] for the pages 0, 1, ..., [k - 1] in this order,
    with calls of [bitmap_set_item] at any point in between. *)
Inductive in_order (N : Z) (bitmap : ptr) : nat -> heap -> Prop :=
  | in_order_init h0 h :
      bitmap_init N h0 = Ok bitmap h ->
      in_order N bitmap 0 h
  | in_order_page k h items h' :
      in_order N bitmap k h ->
      bitmap_add_page bitmap (Z.of_nat k) items h = Ok tt h' ->
      in_order N bitmap (S k) h'
  | in_order_item k h page item state r h' :
      in_order N bitmap k h ->
      bitmap_set_item bitmap page item state h = Ok r h' ->
      in_order N bitmap k h'.

(** ** Locations of a bitmap *)

(** Two states with the same page layout and the same capacity. *)
Definition same_layout (st st' : bitmap_state) : Prop :=
  hdr st' = hdr st /\ offsets st' = offsets st /\ length (bits st') = length (bits st).

(** [(page, item)] passes the checks of [bitmap_set_item], and its bit
    lies in the bit buffer. *)
Definition addressable (st : bitmap_state) (page item : Z) : Prop :=
  exists idx count,
    index_of (offsets st) page item = Some idx /\
    page < npages (hdr st) /\
    0 <= idx /\ idx `quot` 8 <= nbytes (hdr st) /\
    idx `quot` 8 < Z.of_nat (length (bits st)) /\
    cell (offsets st) page = Some count /\ item < count.


(** ** Counting bits *)

(** The number of bits set among the eight low bits of [d]. *)
Definition byte_weight (d : Z) : Z :=
  Z.of_nat (length (List.filter (Z.testbit d) (seqZ 0 8))).

(** The bit at a global bit index is set. *)
Definition is_set (dt : list Z) (idx : Z) : bool := default false (bit_at dt idx).

(** The number of bits set in the first [n] bytes of a buffer. *)
Definition set_bits (dt : list Z) (n : Z) : Z :=
  Z.of_nat (length (List.filter (is_set dt) (seqZ 0 (8 * n)))).

(** The two buffers differ at the global bit index [idx]. *)
Definition differ (da db : list Z) (idx : Z) : bool :=
  match bit_at da idx, bit_at db idx with
  | Some x, Some y => xorb x y
  | _, _ => false
  end.

(** The number of bit positions, among those of the first [n] bytes, at
    which the two buffers differ. *)
Definition differing_bits (da db : list Z) (n : Z) : Z :=
  Z.of_nat (length (List.filter (differ da db) (seqZ 0 (8 * n)))).

(** ** Examples

    Pages and runs that the properties below are tried on. *)

(** A heap page with three line pointers, all in use, whose tuples lie at
    the offsets 100, 200 and 300; the tuple at 300 is heap-only. *)
Definition example_heap_page : PageImage :=
  mk_PageImage 3
    (fun item => mk_ItemIdData (100 * (item + 1)) LP_NORMAL)
    (fun off => mk_HeapTupleHeaderData (if off =? 300 then HEAP_ONLY_TUPLE + 3 else 3))
    (fun _ => mk_IndexTupleData (mk_ItemPointerData 0 0)).

(** An index page with one slot, which points to the heap page 4,
    position 7. *)
Definition example_index_page : PageImage :=
  mk_PageImage 1
    (fun item => mk_ItemIdData 64 LP_NORMAL)
    (fun _ => mk_HeapTupleHeaderData 0)
    (fun _ => mk_IndexTupleData (mk_ItemPointerData 4 7)).

(** Two pages of three items each; item 4 of page 1, which the page does
    not have, is set and then read. The run gives the two results, with
    byte 0 of the bit buffer before and after. *)
Definition item_past_page : M (bool * bool * Z * Z) :=
  b ← bitmap_init 2;
  bitmap_add_page b 0 3;;
  bitmap_add_page b 1 3;;
  s ← get b;
  before ← load_char (data s) 0;
  r ← bitmap_set_item b 1 4 true;
  g ← bitmap_get_item b 1 4;
  after ← load_char (data s) 0;
  ret (r, g, before, after).

(** One page of two items, of which item 1 is set; item 0 is read. *)
Definition read_other_bit : M (ptr * bool) :=
  b ← bitmap_init 1;
  bitmap_add_page b 0 2;;
  bitmap_set_item b 0 1 true;;
  g ← bitmap_get_item b 0 0;
  ret (b, g).

(** The bytes [l] in a block of their own, encoded. *)
Definition encode_bytes (l : list Z) : M ptr :=
  d ← palloc (Chars l);
  base64 d (Z.of_nat (length l)).

(** Two bitmaps of one page each, of 8 items in the first and of 16 items
    in the second, where item 8 is set. *)
Definition two_layouts : M (ptr * ptr) :=
  a ← bitmap_init 1;
  bitmap_add_page a 0 8;;
  b ← bitmap_init 1;
  bitmap_add_page b 0 16;;
  bitmap_set_item b 0 8 true;;
  ret (a, b).

(** Two bitmaps of one page of 16 items each; item 8 is set in the
    second. *)
Definition one_layout : M (ptr * ptr) :=
  a ← bitmap_init 1;
  bitmap_add_page a 0 16;;
  b ← bitmap_init 1;
  bitmap_add_page b 0 16;;
  bitmap_set_item b 0 8 true;;
  ret (a, b).

(** A bitmap for no page, and one for a page of 16 items. *)
Definition none_and_one : M (ptr * ptr) :=
  a ← bitmap_init 0;
  b ← bitmap_init 1;
  bitmap_add_page b 0 16;;
  ret (a, b).

(** A bitmap of one page of 16 items, with item 8 set. *)
Definition one_bit_set : M ptr :=
  a ← bitmap_init 1;
  bitmap_add_page a 0 16;;
  bitmap_set_item a 0 8 true;;
  ret a.

(** A bitmap for two pages, of which page 0, of 16 items, is registered and
    has item 8 set. *)
Definition first_of_two : M ptr :=
  a ← bitmap_init 2;
  bitmap_add_page a 0 16;;
  bitmap_set_item a 0 8 true;;
  ret a.

(** Five heap pages of ten items each, of which item 6 of page 4 is set:
    the item that the example index page points to. *)
Definition agreeing_heap : M ptr :=
  b ← build 5 [10; 10; 10; 10; 10];
  bitmap_set_item b 4 6 true;;
  ret b.

(** New memory that holds zeroes, for the runs below. *)
Definition zeroes : nat -> Z := fun _ => 0.

(** The counts of 7379669 pages of 291 items each - a table of 56 GB of
    full pages of 8 kB: 2147483679 items in all, 32 more than [INT_MAX]. *)
Definition full_pages : list Z := replicate (Z.to_nat 7379669) 291.

(** ** Calls that only read

    [read_only m]: whenever [m] returns, the store is the one it started
    from. *)
Definition read_only {A : Type} (m : M A) : Prop :=
  forall h a h', m h = Ok a h' -> h' = h.

(** ** Reading an encoding back

    What [hex] writes for a buffer, and the bytes that a text in
    hexadecimal stands for. *)

Definition hex_pair (c : Z) : list Z :=
  [hex_digit (Z.land (Z.shiftr c 4) 15); hex_digit (Z.land c 15)].

Definition hex_text (l : list Z) : list Z := flat_map hex_pair l.

(** The value of a hexadecimal digit, [0-9a-f]. *)
Definition hex_value (c : Z) : option Z :=
  if (chr "0" <=? c) && (c <=? chr "9") then Some (c - chr "0")
  else if (chr "a" <=? c) && (c <=? chr "f") then Some (c - chr "a" + 10)
  else None.

Fixpoint unhex (text : list Z) : option (list Z) :=
  match text with
  | [] => Some []
  | hi :: lo :: rest =>
      match hex_value hi, hex_value lo, unhex rest with
      | Some a, Some b, Some bytes => Some (16 * a + b :: bytes)
      | _, _, _ => None
      end
  | _ => None
  end.

(** The character that [binary] writes for a bit. *)
Definition bit_char (b : bool) : Z := if b then chr "1" else chr "0".

(** The bits of a buffer as [binary] prints them, up to the global bit
    index [k]. *)
Definition bit_text (l : list Z) (k : Z) : list Z :=
  map (fun idx => bit_char (is_set l idx)) (seqZ 0 k).

(** What [base64] writes for a buffer. [base64_feed] is one turn of its
    loop, on the text written so far, [buf] and [pos]; [base64_tail] is what
    follows the loop when the last group is not full. *)

Definition base64_group (buf : Z) : list Z :=
  [base64_digit (Z.land (Z.shiftr buf 18) 63);
   base64_digit (Z.land (Z.shiftr buf 12) 63);
   base64_digit (Z.land (Z.shiftr buf 6) 63);
   base64_digit (Z.land buf 63)].

Definition base64_feed (s : list Z * Z * Z) (c : Z) : list Z * Z * Z :=
  let buf := Z.lor s.1.2 (to_uint32 (to_int (Z.shiftl c (Z.shiftl s.2 3)))) in
  let pos := to_int (s.2 - 1) in
  if pos <? 0 then (s.1.1 ++ base64_group buf, 0, 2) else (s.1.1, buf, pos).

Definition base64_tail (buf pos : Z) : list Z :=
  if pos =? 2 then []
  else [base64_digit (Z.land (Z.shiftr buf 18) 63);
        base64_digit (Z.land (Z.shiftr buf 12) 63)]
       ++ (if pos =? 0 then [base64_digit (Z.land (Z.shiftr buf 6) 63)] else []).

Definition base64_fed (l : list Z) : list Z * Z * Z :=
  foldl base64_feed ([], 0, 2) l.

Definition base64_text (l : list Z) : list Z :=
  (base64_fed l).1.1 ++ base64_tail (base64_fed l).1.2 (base64_fed l).2.

(** The place of a character in a table. *)
Fixpoint find_index (c : Z) (table : list Z) (i : Z) : option Z :=
  match table with
  | [] => None
  | x :: rest => if x =? c then Some i else find_index c rest (i + 1)
  end.

(** The six bits that a base64 character stands for. *)
Definition base64_value (c : Z) : option Z := find_index c _base64 0.

(** The bytes that a base64 text without padding stands for: four
    characters give three bytes, and a last group of three or of two
    characters gives two bytes or one. *)
Fixpoint unbase64 (text : list Z) : option (list Z) :=
  match text with
  | [] => Some []
  | [a; b] =>
      match base64_value a, base64_value b with
      | Some x, Some y => Some [(x * 64 + y) `div` 16]
      | _, _ => None
      end
  | [a; b; c] =>
      match base64_value a, base64_value b, base64_value c with
      | Some x, Some y, Some z =>
          let v := (x * 64 + y) * 64 + z in
          Some [v `div` 1024; (v `div` 4) `mod` 256]
      | _, _, _ => None
      end
  | a :: b :: c :: d :: rest =>
      match base64_value a, base64_value b, base64_value c, base64_value d,
            unbase64 rest with
      | Some x, Some y, Some z, Some w, Some bytes =>
          let v := ((x * 64 + y) * 64 + z) * 64 + w in
          Some (v `div` 65536 :: (v `div` 256) `mod` 256 :: v `mod` 256 :: bytes)
      | _, _, _, _, _ => None
      end
  | _ => None
  end.

(** ** A pass over the slots of a page

    [slots_updated base n upd dt dt']: the buffer [dt'] is [dt] with the
    bit of every slot [i] below [n], which is bit [base + i], changed by
    [upd i]; every other bit is as in [dt]. *)
Definition slots_updated (base n : Z) (upd : Z -> bool -> bool) (dt dt' : list Z) : Prop :=
  forall idx,
    bit_at dt' idx
    = (if (base <=? idx) && (idx <? base + n) then upd (idx - base) else id)
        <$> bit_at dt idx.

(** The bit that [bitmap_add_heap_items] leaves for a slot whose bit was
    [old]: set when the line pointer is in use or the bit was set, unless
    the tuple is heap-only. *)
Definition slot_bit (header raw_page : PageImage) (item : Z) (old : bool) : bool :=
  (ItemIdIsUsed (pd_linp header item) || old)
  && negb (HeapTupleHeaderIsHeapOnly (PageGetItem raw_page (pd_linp header item))).

(** ** What an index page points to *)

(** The bit index that the slot [item] of an index page points to. *)
Definition target_index (st : bitmap_state) (header raw_page : PageImage) (item : Z)
    : option Z :=
  index_of (offsets st) (fst (index_target header raw_page item))
                        (snd (index_target header raw_page item)).

(** Some slot below [n] points to the bit index [idx]. *)
Definition targeted (st : bitmap_state) (header raw_page : PageImage) (n idx : Z) : bool :=
  existsb (fun item => match target_index st header raw_page item with
                       | Some i => i =? idx
                       | None => false
                       end) (seqZ 0 n).

(** The number of bits, among those of the bytes in use, that are set with
    no slot pointing to them, or clear with a slot pointing to them. *)
Definition disagreements (st : bitmap_state) (header raw_page : PageImage) : Z :=
  Z.of_nat (length (List.filter
    (fun idx => xorb (is_set (bits st) idx)
                     (targeted st header raw_page (PageGetMaxOffsetNumber raw_page) idx))
    (seqZ 0 (8 * nbytes (hdr st))))).

(** * Properties *)

(** ** Machine integers *)

Lemma to_int_id z : is_int z -> to_int z = z.
Proof.
  unfold is_int, INT_MIN, INT_MAX, to_int. intros Hz.
  rewrite Z.mod_small; lia.
Qed.

Lemma to_int_is_int z : is_int (to_int z).
Proof.
  unfold is_int, INT_MIN, INT_MAX, to_int.
  pose proof (Z.mod_pos_bound (z + 2 ^ 31) (2 ^ 32)). lia.
Qed.

(** Cutting an [int] to a [char] keeps its eight low bits. *)
Lemma to_char_testbit z j : 0 <= j < 8 -> Z.testbit (to_char z) j = Z.testbit z j.
Proof.
  intros Hj. unfold to_char.
  replace ((z + 128) `mod` 256 - 128)
    with (z + 256 * (- ((z + 128) `div` 256))).
  2:{ pose proof (Z.div_mod (z + 128) 256). lia. }
  change 256 with (2 ^ 8).
  rewrite <- (Z.mod_pow2_bits_low (z + 2 ^ 8 * _) 8 j) by lia.
  rewrite Z.mul_comm, Z.mod_add by lia.
  apply Z.mod_pow2_bits_low. lia.
Qed.

(** ** The store *)

Lemma chunk_at_heap_set_eq h p c c' :
  chunk_at h p = Some c -> chunk_at (heap_set h p c') p = Some c'.
Proof.
  destruct p as [|i]; simpl; [discriminate|]. intros Hc.
  apply list_lookup_insert_eq. by eapply lookup_lt_Some.
Qed.

Lemma chunk_at_heap_set_ne h p q c' :
  p <> q -> chunk_at (heap_set h p c') q = chunk_at h q.
Proof.
  destruct p as [|i], q as [|j]; simpl; try done.
  intros Hne. apply list_lookup_insert_ne. congruence.
Qed.

Lemma heap_set_id h p c : chunk_at h p = Some c -> heap_set h p c = h.
Proof.
  destruct p as [|i]; simpl; [done|]. apply list_insert_id.
Qed.

Lemma heap_set_length h p c : length (heap_set h p c) = length h.
Proof. destruct p; simpl; [done|]. apply length_insert. Qed.

Lemma chunk_at_app h h' p c :
  chunk_at h p = Some c -> chunk_at (h ++ h') p = Some c.
Proof.
  destruct p as [|i]; simpl; [done|]. apply lookup_app_l_Some.
Qed.

Lemma chunk_at_new h c : chunk_at (h ++ [c]) (S (length h)) = Some c.
Proof. simpl. apply list_lookup_middle. done. Qed.

Lemma chunk_at_new_at h c p : p = S (length h) -> chunk_at (h ++ [c]) p = Some c.
Proof. intros ->. apply chunk_at_new. Qed.

Lemma chunk_at_allocated h p c : chunk_at h p = Some c -> (p <= length h)%nat.
Proof.
  destruct p as [|i]; simpl; [done|]. intros Hc.
  apply lookup_lt_Some in Hc. lia.
Qed.

(** ** Running the primitives *)

Lemma bind_run {A B} (m : M A) (k : A -> M B) h :
  (m ≫= k) h = match m h with
               | Ok a h' => k a h'
               | Stuck f => Stuck f
               end.
Proof. reflexivity. Qed.

Lemma get_run h p s : chunk_at h p = Some (Struct s) -> get p h = Ok s h.
Proof. unfold get. by intros ->. Qed.

Lemma put_run h p s s' :
  chunk_at h p = Some (Struct s) -> put p s' h = Ok tt (heap_set h p (Struct s')).
Proof. unfold put. by intros ->. Qed.

Lemma update_run h p s f :
  chunk_at h p = Some (Struct s) ->
  update p f h = Ok tt (heap_set h p (Struct (f s))).
Proof.
  intros Hp. unfold update. rewrite bind_run, (get_run _ _ _ Hp).
  by apply (put_run h p s).
Qed.

Lemma load_int_run h p l i :
  chunk_at h p = Some (Ints l) ->
  load_int p i h = match cell l i with
                   | Some v => Ok v h
                   | None => Stuck OutOfBounds
                   end.
Proof. unfold load_int. by intros ->. Qed.

Lemma store_int_run h p l i v :
  chunk_at h p = Some (Ints l) ->
  store_int p i v h = match cell l i with
                      | Some _ => Ok tt (heap_set h p (Ints (set_cell l i v)))
                      | None => Stuck OutOfBounds
                      end.
Proof. unfold store_int. by intros ->. Qed.

Lemma load_char_run h p l i :
  chunk_at h p = Some (Chars l) ->
  load_char p i h = match cell l i with
                    | Some v => Ok v h
                    | None => Stuck OutOfBounds
                    end.
Proof. unfold load_char. by intros ->. Qed.

Lemma store_char_run h p l i v :
  chunk_at h p = Some (Chars l) ->
  store_char p i v h = match cell l i with
                       | Some _ => Ok tt (heap_set h p (Chars (set_cell l i (to_char v))))
                       | None => Stuck OutOfBounds
                       end.
Proof. unfold store_char. by intros ->. Qed.

Lemma cell_Some l i v : cell l i = Some v -> 0 <= i < Z.of_nat (length l).
Proof.
  unfold cell. destruct (Z.leb_spec 0 i); [|done].
  intros Hl. apply lookup_lt_Some in Hl. lia.
Qed.

Lemma cell_lookup l i : 0 <= i < Z.of_nat (length l) -> is_Some (cell l i).
Proof.
  intros Hi. unfold cell. destruct (Z.leb_spec 0 i); [|lia].
  apply lookup_lt_is_Some. lia.
Qed.

Lemma cell_set_cell_eq l i v :
  0 <= i < Z.of_nat (length l) -> cell (set_cell l i v) i = Some v.
Proof.
  intros Hi. unfold cell, set_cell. destruct (Z.leb_spec 0 i); [|lia].
  apply list_lookup_insert_eq. lia.
Qed.

Lemma cell_set_cell_ne l i j v :
  0 <= i -> i <> j -> cell (set_cell l i v) j = cell l j.
Proof.
  intros Hi Hne. unfold cell, set_cell. destruct (Z.leb_spec 0 j); [|done].
  apply list_lookup_insert_ne. lia.
Qed.

Lemma set_cell_length l i v : length (set_cell l i v) = length l.
Proof. apply length_insert. Qed.

(** ** Loops *)

(** The invariant rule for [for]: an invariant that holds at [lo] and that
    every turn of the body keeps holds at [hi], and the loop returns. *)
Lemma for_loop_invariant {St : Type} (I : Z -> St -> heap -> Prop)
    (body : Z -> St -> M St) (n : nat) (lo : Z) (s : St) (h : heap) :
  I lo s h ->
  (forall i s h, lo <= i < lo + Z.of_nat n -> I i s h ->
     exists s' h', body i s h = Ok s' h' /\ I (i + 1) s' h') ->
  exists s' h', for_loop n lo body s h = Ok s' h' /\ I (lo + Z.of_nat n) s' h'.
Proof.
  revert lo s h. induction n as [|n IH]; intros lo s h H0 Hstep.
  - exists s, h. simpl. rewrite Z.add_0_r. done.
  - destruct (Hstep lo s h) as (s1 & h1 & Hb & H1); [lia|done|].
    destruct (IH (lo + 1) s1 h1) as (s2 & h2 & Hl & H2); [done| |].
    { intros i s' h' Hi. apply Hstep. lia. }
    exists s2, h2. split.
    + cbn [for_loop]. rewrite bind_run, Hb. done.
    + replace (lo + Z.of_nat (S n)) with (lo + 1 + Z.of_nat n) by lia. done.
Qed.

Lemma for_invariant {St : Type} (I : Z -> St -> heap -> Prop)
    (body : Z -> St -> M St) (lo hi : Z) (s : St) (h : heap) :
  lo <= hi ->
  I lo s h ->
  (forall i s h, lo <= i < hi -> I i s h ->
     exists s' h', body i s h = Ok s' h' /\ I (i + 1) s' h') ->
  exists s' h', for_ lo hi body s h = Ok s' h' /\ I hi s' h'.
Proof.
  intros Hle H0 Hstep. unfold for_.
  destruct (for_loop_invariant I body (Z.to_nat (hi - lo)) lo s h) as (s' & h' & Hr & HI);
    [done| |].
  { intros i s1 h1 Hi. apply Hstep. lia. }
  exists s', h'. split; [done|].
  replace hi with (lo + Z.of_nat (Z.to_nat (hi - lo))) at 1 by lia. done.
Qed.



(** ** Views *)

Lemma view_Some h bm st :
  view h bm = Some st <->
  chunk_at h bm = Some (Struct (hdr st)) /\
  chunk_at h (pages (hdr st)) = Some (Ints (offsets st)) /\
  chunk_at h (data (hdr st)) = Some (Chars (bits st)).
Proof.
  unfold view. split.
  - destruct (chunk_at h bm) as [[s| | |]|]; try discriminate.
    destruct (chunk_at h (pages s)) as [[|pg| |]|] eqn:Hpg; try discriminate.
    destruct (chunk_at h (data s)) as [[| |dt|]|] eqn:Hdt; try discriminate.
    intros [= <-]. done.
  - intros (-> & -> & ->). by destruct st.
Qed.

(** A change to a block that is none of the bitmap's leaves its view. *)
Lemma view_heap_set_other h bm st p c :
  view h bm = Some st ->
  p <> bm -> p <> pages (hdr st) -> p <> data (hdr st) ->
  view (heap_set h p c) bm = Some st.
Proof.
  rewrite !view_Some. intros (Hs & Hp & Hd) ? ? ?.
  rewrite !chunk_at_heap_set_ne by done. done.
Qed.

Lemma view_heap_set_bits h bm st dt :
  view h bm = Some st ->
  view (heap_set h (data (hdr st)) (Chars dt)) bm = Some (with_bits st dt).
Proof.
  rewrite !view_Some. intros (Hs & Hp & Hd). simpl.
  rewrite !chunk_at_heap_set_ne by congruence.
  rewrite (chunk_at_heap_set_eq _ _ _ _ Hd). done.
Qed.

(** ** [bitmap_set_item] and [bitmap_get_item] *)

Lemma GetBitmapIndex_run h bm st page item :
  view h bm = Some st ->
  GetBitmapIndex bm page item h
  = match index_of (offsets st) page item with
    | Some idx => Ok idx h
    | None => Stuck OutOfBounds
    end.
Proof.
  rewrite view_Some. intros (Hs & Hp & Hd).
  unfold GetBitmapIndex, index_of.
  rewrite bind_run, (get_run _ _ _ Hs).
  destruct (page =? 0); [done|].
  rewrite bind_run, (load_int_run _ _ _ _ Hp).
  by destruct (cell (offsets st) (to_int (page - 1))).
Qed.

Lemma shl1_run n h :
  shl1 n h = if n <? 0 then Stuck NegativeShift else Ok (to_int (Z.shiftl 1 n)) h.
Proof. unfold shl1. by destruct (n <? 0). Qed.

Lemma bitmap_set_item_run h bm st page item state :
  view h bm = Some st ->
  bitmap_set_item bm page item state h
  = match item_update st page item state with
    | inr (r, dt) => Ok r (heap_set h (data (hdr st)) (Chars dt))
    | inl f => Stuck f
    end.
Proof.
  intros Hv. pose proof Hv as (Hs & Hp & Hd)%view_Some.
  unfold bitmap_set_item, item_update.
  rewrite bind_run, (GetBitmapIndex_run _ _ _ _ _ Hv).
  destruct (index_of (offsets st) page item) as [idx|] eqn:Hidx; [|done].
  rewrite bind_run, (GetBitmapIndex_run _ _ _ _ _ Hv), Hidx.
  rewrite bind_run, (get_run _ _ _ Hs).
  destruct (npages (hdr st) <=? page); [by rewrite (heap_set_id _ _ _ Hd)|].
  destruct (nbytes (hdr st) <? idx `quot` 8); [by rewrite (heap_set_id _ _ _ Hd)|].
  rewrite bind_run, (load_int_run _ _ _ _ Hp).
  destruct (cell (offsets st) page) as [count|]; [|done].
  destruct (count <=? item); [by rewrite (heap_set_id _ _ _ Hd)|].
  rewrite bind_run.
  destruct state.
  - rewrite bind_run, (load_char_run _ _ _ _ Hd).
    destruct (cell (bits st) (idx `quot` 8)) as [c|] eqn:Hc; [|done].
    rewrite bind_run, shl1_run.
    destruct (idx `rem` 8 <? 0); [done|].
    rewrite (store_char_run _ _ _ _ _ Hd), Hc. done.
  - rewrite bind_run, (load_char_run _ _ _ _ Hd).
    destruct (cell (bits st) (idx `quot` 8)) as [c|] eqn:Hc; [|done].
    rewrite bind_run, shl1_run.
    destruct (idx `rem` 8 <? 0); [done|].
    rewrite (store_char_run _ _ _ _ _ Hd), Hc. done.
Qed.

Lemma bitmap_get_item_run h bm st page item :
  view h bm = Some st ->
  bitmap_get_item bm page item h
  = match item_probe st page item with
    | inr r => Ok r h
    | inl f => Stuck f
    end.
Proof.
  intros Hv. pose proof Hv as (Hs & Hp & Hd)%view_Some.
  unfold bitmap_get_item, item_probe.
  rewrite bind_run, (GetBitmapIndex_run _ _ _ _ _ Hv).
  destruct (index_of (offsets st) page item) as [idx|] eqn:Hidx; [|done].
  rewrite bind_run, (GetBitmapIndex_run _ _ _ _ _ Hv), Hidx.
  rewrite bind_run, (get_run _ _ _ Hs).
  destruct (npages (hdr st) <=? page); [done|].
  destruct (nbytes (hdr st) <? idx `quot` 8); [done|].
  rewrite bind_run, (load_int_run _ _ _ _ Hp).
  destruct (cell (offsets st) page) as [count|]; [|done].
  destruct (count <=? item); [done|].
  rewrite bind_run, (load_char_run _ _ _ _ Hd).
  destruct (cell (bits st) (idx `quot` 8)) as [c|] eqn:Hc; [|done].
  destruct (c =? 0); [done|].
  rewrite bind_run, shl1_run.
  by destruct (idx `rem` 8 <? 0).
Qed.

(** ** Rules for weakest preconditions *)

Lemma wp_run {A} (m : M A) Q h :
  wp m Q h <-> exists a h', m h = Ok a h' /\ Q a h'.
Proof.
  unfold wp. split.
  - destruct (m h) as [a h'|]; [eauto|done].
  - intros (a & h' & -> & HQ). done.
Qed.

Lemma wp_mono {A} (m : M A) (Q Q' : A -> heap -> Prop) h :
  wp m Q h -> (forall a h', Q a h' -> Q' a h') -> wp m Q' h.
Proof. unfold wp. destruct (m h); [auto|done]. Qed.

Lemma wp_ret {A} (a : A) Q h : Q a h -> wp (ret a) Q h.
Proof. done. Qed.

Lemma wp_bind {A B} (m : M A) (k : A -> M B) Q h :
  wp m (fun a h' => wp (k a) Q h') h -> wp (m ≫= k) Q h.
Proof. unfold wp. rewrite bind_run. by destruct (m h). Qed.

Lemma wp_assert b Q h : b = true -> Q tt h -> wp (assert b) Q h.
Proof. by intros ->. Qed.

Lemma wp_get p s Q h :
  chunk_at h p = Some (Struct s) -> Q s h -> wp (get p) Q h.
Proof. intros Hp HQ. unfold wp. by rewrite (get_run _ _ _ Hp). Qed.

Lemma wp_put p s s' Q h :
  chunk_at h p = Some (Struct s) ->
  Q tt (heap_set h p (Struct s')) -> wp (put p s') Q h.
Proof. intros Hp HQ. unfold wp. by rewrite (put_run _ _ _ _ Hp). Qed.

Lemma wp_update p s f Q h :
  chunk_at h p = Some (Struct s) ->
  Q tt (heap_set h p (Struct (f s))) -> wp (update p f) Q h.
Proof. intros Hp HQ. unfold wp. by rewrite (update_run _ _ _ _ Hp). Qed.

Lemma wp_load_int p l i v Q h :
  chunk_at h p = Some (Ints l) -> cell l i = Some v ->
  Q v h -> wp (load_int p i) Q h.
Proof. intros Hp Hc HQ. unfold wp. by rewrite (load_int_run _ _ _ _ Hp), Hc. Qed.

Lemma wp_store_int p l i v Q h :
  chunk_at h p = Some (Ints l) -> is_Some (cell l i) ->
  Q tt (heap_set h p (Ints (set_cell l i v))) -> wp (store_int p i v) Q h.
Proof.
  intros Hp [old Hc] HQ. unfold wp. by rewrite (store_int_run _ _ _ _ _ Hp), Hc.
Qed.

Lemma wp_palloc c Q h : Q (S (length h)) (h ++ [c]) -> wp (palloc c) Q h.
Proof. done. Qed.

Lemma wp_repalloc p l n Q h :
  chunk_at h p = Some (Chars l) ->
  Q (S (length h))
    (heap_set h p Freed ++
     [Chars (take (Z.to_nat n) l ++ uninit (n - Z.of_nat (length l)))]) ->
  wp (repalloc p n) Q h.
Proof. intros Hp HQ. unfold wp, repalloc. by rewrite Hp. Qed.

Lemma wp_memset p l off c n Q h :
  chunk_at h p = Some (Chars l) ->
  0 <= off -> 0 <= n -> off + n <= Z.of_nat (length l) ->
  Q tt (heap_set h p (Chars (take (Z.to_nat off) l ++
                             replicate (Z.to_nat n) (to_char c) ++
                             drop (Z.to_nat (off + n)) l))) ->
  wp (memset p off c n) Q h.
Proof.
  intros Hp H1 H2 H3 HQ. unfold wp, memset. rewrite Hp.
  replace ((0 <=? off) && (0 <=? n) && (off + n <=? Z.of_nat (length l))) with true; [done|].
  symmetry. rewrite !andb_true_iff, !Z.leb_le. done.
Qed.

Lemma wp_memcpy_int dst src ld ls n Q h :
  chunk_at h dst = Some (Ints ld) -> chunk_at h src = Some (Ints ls) ->
  0 <= n -> n <= Z.of_nat (length ld) -> n <= Z.of_nat (length ls) ->
  Q tt (heap_set h dst (Ints (take (Z.to_nat n) ls ++ drop (Z.to_nat n) ld))) ->
  wp (memcpy_int dst src n) Q h.
Proof.
  intros Hd Hs H1 H2 H3 HQ. unfold wp, memcpy_int. rewrite Hd, Hs.
  replace ((0 <=? n) && (n <=? Z.of_nat (length ld)) && (n <=? Z.of_nat (length ls)))
    with true; [done|].
  symmetry. rewrite !andb_true_iff, !Z.leb_le. done.
Qed.

(** Looking a block up in a store that was built by updates and
    allocations. *)
Lemma chunk_at_heap_set_same h p c :
  is_Some (chunk_at h p) -> chunk_at (heap_set h p c) p = Some c.
Proof. intros [c' Hc]. by eapply chunk_at_heap_set_eq. Qed.

Lemma is_Some_chunk_at_heap_set h p q c :
  is_Some (chunk_at h q) -> is_Some (chunk_at (heap_set h p c) q).
Proof.
  intros Hq. destruct (decide (p = q)) as [->|Hne].
  - rewrite chunk_at_heap_set_same; [by eexists|done].
  - by rewrite chunk_at_heap_set_ne.
Qed.

Lemma is_Some_chunk_at_app h h' q :
  is_Some (chunk_at h q) -> is_Some (chunk_at (h ++ h') q).
Proof. intros [c Hc]. exists c. by apply chunk_at_app. Qed.

Ltac allocated :=
  first
    [ eexists; eassumption
    | apply is_Some_chunk_at_heap_set; allocated
    | apply is_Some_chunk_at_app; allocated ].

Ltac lookup :=
  first
    [ eassumption
    | reflexivity
    | rewrite chunk_at_heap_set_ne by first [done | lia]; lookup
    | rewrite chunk_at_heap_set_same by allocated; reflexivity
    | apply chunk_at_app; lookup ].

Ltac zlia := unfold PALLOC_CHUNK, is_int, INT_MIN, INT_MAX in *; lia.

(** [lia], with C's truncating division spelled out. *)
Ltac qlia :=
  unfold PALLOC_CHUNK, is_int, INT_MIN, INT_MAX in *;
  Z.to_euclidean_division_equations; lia.

Tactic Notation "fields" :=
  cbn [hdr offsets bits npages pages nbytes maxBytes data with_bits
       set_npages set_pages set_nbytes set_maxBytes set_data].
Tactic Notation "fields" "in" hyp(H) :=
  cbn [hdr offsets bits npages pages nbytes maxBytes data with_bits
       set_npages set_pages set_nbytes set_maxBytes set_data] in H.

(** ** [bitmap_add_page] *)

Lemma bytes_for_bound total : bytes_for total <= 2 ^ 28.
Proof.
  unfold bytes_for. pose proof (to_int_is_int (total + 7)) as Hi.
  unfold is_int, INT_MIN, INT_MAX in Hi.
  apply Z.quot_le_upper_bound; lia.
Qed.

Lemma page_total_defined pg page items :
  0 <= page < Z.of_nat (length pg) -> Z.of_nat (length pg) <= INT_MAX ->
  exists total, page_total pg page items = Some total.
Proof.
  intros Hpage Hlen. unfold page_total.
  destruct (Z.eqb_spec page 0); [by eexists|].
  rewrite to_int_id by (unfold is_int, INT_MIN, INT_MAX in *; lia).
  destruct (cell_lookup pg (page - 1)) as [prev ->]; [lia|]. by eexists.
Qed.

Lemma bitmap_add_page_run h bm st page items :
  view h bm = Some st -> sized st ->
  0 <= page < npages (hdr st) ->
  0 <= items <= MaxHeapTuplesPerPage ->
  exists total h',
    page_total (offsets st) page items = Some total /\
    bitmap_add_page bm page items h = Ok tt h' /\
    view h' bm = Some (registered st page total (S (length h))) /\
    (forall p c, chunk_at h p = Some c ->
       p <> bm -> p <> pages (hdr st) -> p <> data (hdr st) ->
       chunk_at h' p = Some c) /\
    (length h <= length h')%nat.
Proof.
  intros Hv (Hnp & Hlp & Hmb & Hlb) Hpage Hitems.
  pose proof Hv as (Hs & Hp & Hd)%view_Some.
  destruct st as [s pg dt]. cbn [hdr offsets bits] in *.
  destruct (page_total_defined pg page items) as [total Htot]; [lia..|].
  exists total.
  assert (bm <> pages s /\ bm <> data s /\ pages s <> data s) as (Hn1 & Hn2 & Hn3).
  { repeat split; intros E; rewrite E in *; congruence. }
  assert (is_Some (cell pg page)) as Hold by (apply cell_lookup; lia).
  set (Q := fun (_ : unit) h' =>
    view h' bm = Some (registered (mk_bitmap_state s pg dt) page total (S (length h))) /\
    (forall p c, chunk_at h p = Some c ->
       p <> bm -> p <> pages s -> p <> data s -> chunk_at h' p = Some c) /\
    (length h <= length h')%nat).
  enough (wp (bitmap_add_page bm page items) Q h) as Hwp.
  { apply wp_run in Hwp as ([] & h' & Hrun & HQ). exists h'. done. }
  unfold bitmap_add_page.
  apply wp_bind. apply wp_assert; [apply Z.leb_le; lia|].
  apply wp_bind. eapply wp_get; [done|].
  apply wp_bind. apply wp_assert; [apply Z.ltb_lt; lia|].
  apply wp_bind. apply wp_assert; [apply Z.leb_le; lia|].
  apply wp_bind. apply wp_assert; [apply Z.leb_le; lia|].
  apply wp_bind.
  apply (wp_mono _ (fun _ h' => h' = heap_set h (pages s) (Ints (set_cell pg page total)))).
  { unfold page_total in Htot. destruct (page =? 0).
    - injection Htot as <-. by eapply wp_store_int.
    - destruct (cell pg (to_int (page - 1))) as [prev|] eqn:Hprev; [|done].
      injection Htot as <-.
      apply wp_bind. eapply wp_load_int; [done..|]. by eapply wp_store_int. }
  intros _ h1 ->.
  apply wp_bind. eapply wp_load_int; [lookup| |].
  { apply cell_set_cell_eq. lia. }
  apply wp_bind. eapply wp_update; [lookup|].
  apply wp_bind. eapply wp_get; [lookup|]. fields. fold (bytes_for total).
  unfold Q, registered. fields.
  destruct (Z.ltb_spec (maxBytes s) (bytes_for total)) as [Hgrow|Hfit].
  - (* the buffer grows by one chunk *)
    pose proof (bytes_for_bound total) as Hb.
    assert (to_int (maxBytes s + PALLOC_CHUNK) = maxBytes s + PALLOC_CHUNK) as Hmax.
    { apply to_int_id. unfold is_int, INT_MIN, INT_MAX, PALLOC_CHUNK. lia. }
    assert (S (length h) <> bm /\ S (length h) <> pages s /\ S (length h) <> data s)
      as (Hf1 & Hf2 & Hf3).
    { apply chunk_at_allocated in Hs, Hp, Hd. lia. }
    apply wp_bind. eapply wp_update; [lookup|].
    apply wp_bind. eapply wp_get; [lookup|]. fields.
    apply wp_bind. eapply wp_repalloc; [lookup|].
    rewrite !heap_set_length.
    match goal with |- wp _ _ (?h3 ++ [Chars ?blk]) =>
      assert (chunk_at (h3 ++ [Chars blk]) (S (length h)) = Some (Chars blk)) as Hnew
    end.
    { rewrite <- (heap_set_length h (pages s) (Ints (set_cell pg page total))).
      rewrite <- (heap_set_length _ bm (Struct (set_nbytes (bytes_for total) s))).
      rewrite <- (heap_set_length _ bm
        (Struct (set_maxBytes (to_int (maxBytes s + PALLOC_CHUNK))
                   (set_nbytes (bytes_for total) s)))).
      rewrite <- (heap_set_length _ (data s) Freed).
      apply chunk_at_new. }
    rewrite Hmax in Hnew |- *.
    rewrite take_ge in Hnew |- * by zlia.
    replace (maxBytes s + PALLOC_CHUNK - Z.of_nat (length dt)) with PALLOC_CHUNK
      in Hnew |- * by lia.
    apply wp_bind. eapply wp_update; [lookup|].
    apply wp_bind. eapply wp_get; [lookup|]. fields.
    assert (length (uninit PALLOC_CHUNK) = Z.to_nat PALLOC_CHUNK) as Hlu.
    { unfold uninit. by rewrite length_map, length_seq. }
    eapply wp_memset; [lookup|lia|done| |].
    { rewrite length_app, Hlu. zlia. }
    split; [|split].
    + apply view_Some. fields. split; [lookup|]. split; [lookup|].
      rewrite chunk_at_heap_set_same by allocated.
      f_equal. f_equal.
      rewrite take_app_le, take_ge by lia.
      rewrite drop_ge by (rewrite length_app, Hlu; zlia).
      by rewrite app_nil_r.
    + intros p c Hc ? ? ?.
      assert (p <> S (length h)).
      { apply chunk_at_allocated in Hc. lia. }
      lookup.
    + rewrite !heap_set_length, length_app, !heap_set_length. lia.
  - (* the buffer is large enough *)
    apply wp_ret. split; [|split].
    + apply view_Some. fields. split; [lookup|]. split; lookup.
    + intros p c Hc ? ? ?. lookup.
    + rewrite !heap_set_length. lia.
Qed.

(** ** [bitmap_init] and [bitmap_copy] *)

Lemma initial_capacity_eq n :
  0 <= n <= INT_MAX -> initial_capacity n = PALLOC_CHUNK * (n `quot` 8192 + 1).
Proof.
  intros Hn. unfold initial_capacity, PALLOC_CHUNK.
  assert ((n `quot` 1024) `quot` 8 = n `quot` 8192) as ->.
  { rewrite Z.quot_quot by lia. done. }
  assert (0 <= n `quot` 8192 <= 262143) as Hq by qlia.
  rewrite (to_int_id (n `quot` 8192 + 1)) by zlia.
  rewrite to_int_id by zlia. done.
Qed.

Lemma initial_capacity_bounds n :
  0 <= n <= INT_MAX -> PALLOC_CHUNK <= initial_capacity n <= 2 ^ 28.
Proof.
  intros Hn. rewrite initial_capacity_eq by done.
  assert (0 <= n `quot` 8192 <= 262143) as Hq by qlia.
  zlia.
Qed.

Lemma uninit_length n : length (uninit n) = Z.to_nat n.
Proof. unfold uninit. by rewrite length_map, length_seq. Qed.

Lemma memset_whole (l : list Z) n c :
  length l = Z.to_nat n ->
  take (Z.to_nat 0) l ++ replicate (Z.to_nat n) c ++ drop (Z.to_nat (0 + n)) l
  = replicate (Z.to_nat n) c.
Proof.
  intros Hl. rewrite Z.add_0_l, drop_ge by lia.
  change (Z.to_nat 0) with 0%nat. rewrite take_0, app_nil_r. done.
Qed.

Lemma bitmap_init_run h n :
  0 <= n <= INT_MAX ->
  exists h',
    bitmap_init n h = Ok (S (length h)) h' /\
    view h' (S (length h))
    = Some (initial_state n (S (S (length h))) (S (S (S (length h))))) /\
    extends h h' /\
    length h' = (length h + 3)%nat.
Proof.
  intros Hn. pose proof (initial_capacity_bounds n Hn) as Hcap.
  set (Q := fun bm h' =>
    bm = S (length h) /\
    view h' (S (length h))
    = Some (initial_state n (S (S (length h))) (S (S (S (length h))))) /\
    extends h h' /\ length h' = (length h + 3)%nat).
  enough (wp (bitmap_init n) Q h) as Hwp.
  { apply wp_run in Hwp as (bm & h' & Hrun & -> & HQ). by exists h'. }
  unfold bitmap_init.
  apply wp_bind. apply wp_assert; [apply Z.leb_le; lia|].
  apply wp_bind. apply wp_palloc.
  pose proof (chunk_at_new h (Struct junk_struct)) as Hbm.
  apply wp_bind. eapply wp_put; [lookup|].
  apply wp_bind. eapply wp_update; [lookup|].
  apply wp_bind. apply wp_palloc.
  rewrite !heap_set_length, length_app, Nat.add_1_r.
  match goal with |- wp _ _ (?h2 ++ [?c]) =>
    assert (chunk_at (h2 ++ [c]) (S (S (length h))) = Some c) as Hpg
  end.
  { apply chunk_at_new_at.
    by rewrite !heap_set_length, length_app, Nat.add_1_r. }
  apply wp_bind. eapply wp_update; [lookup|].
  apply wp_bind. eapply wp_update; [lookup|].
  apply wp_bind. eapply wp_update; [lookup|].
  apply wp_bind. eapply wp_get; [lookup|]. fields.
  fold (initial_capacity n).
  apply wp_bind. apply wp_palloc.
  rewrite !heap_set_length, !length_app, !heap_set_length, length_app, !Nat.add_1_r.
  match goal with |- wp _ _ (?h3 ++ [?c]) =>
    assert (chunk_at (h3 ++ [c]) (S (S (S (length h)))) = Some c) as Hdt
  end.
  { apply chunk_at_new_at.
    by rewrite !heap_set_length, !length_app, !heap_set_length, length_app,
         !Nat.add_1_r. }
  apply wp_bind. eapply wp_update; [lookup|].
  apply wp_bind. eapply wp_get; [lookup|]. fields.
  apply wp_bind. eapply wp_memset; [lookup|lia|zlia| |].
  { rewrite uninit_length. zlia. }
  rewrite memset_whole by apply uninit_length.
  apply wp_ret. unfold Q. split; [done|]. split; [|split].
  - apply view_Some. unfold initial_state. fields.
    split; [lookup|]. split; lookup.
  - intros p c Hc.
    assert (p <> S (length h) /\ p <> S (S (length h)) /\ p <> S (S (S (length h))))
      as (? & ? & ?).
    { apply chunk_at_allocated in Hc. lia. }
    lookup.
  - rewrite !heap_set_length, !length_app, !heap_set_length, !length_app,
      !heap_set_length, length_app. simpl. lia.
Qed.

Lemma bitmap_copy_run h src st :
  view h src = Some st -> sized st ->
  exists h',
    bitmap_copy src h = Ok (S (length h)) h' /\
    view h' (S (length h))
    = Some (copied_state st (S (S (length h))) (S (S (S (length h))))) /\
    extends h h' /\
    length h' = (length h + 3)%nat.
Proof.
  intros Hv (Hnp & Hlp & Hmb & Hlb).
  pose proof Hv as (Hs & Hp & Hd)%view_Some.
  set (Q := fun bm h' =>
    bm = S (length h) /\
    view h' (S (length h))
    = Some (copied_state st (S (S (length h))) (S (S (S (length h))))) /\
    extends h h' /\ length h' = (length h + 3)%nat).
  enough (wp (bitmap_copy src) Q h) as Hwp.
  { apply wp_run in Hwp as (bm & h' & Hrun & -> & HQ). by exists h'. }
  assert (src <> S (length h) /\ src <> S (S (length h)) /\ src <> S (S (S (length h))))
    as (Hf1 & Hf2 & Hf3).
  { apply chunk_at_allocated in Hs. lia. }
  assert (pages (hdr st) <> S (length h) /\ pages (hdr st) <> S (S (length h))
          /\ pages (hdr st) <> S (S (S (length h)))) as (Hg1 & Hg2 & Hg3).
  { apply chunk_at_allocated in Hp. lia. }
  unfold bitmap_copy.
  apply wp_bind. apply wp_assert.
  { destruct src; [discriminate Hs|done]. }
  apply wp_bind. apply wp_palloc.
  pose proof (chunk_at_new h (Struct junk_struct)) as Hbm.
  apply wp_bind. eapply wp_get; [lookup|].
  apply wp_bind. eapply wp_update; [lookup|].
  apply wp_bind. eapply wp_update; [lookup|].
  apply wp_bind. eapply wp_update; [lookup|].
  apply wp_bind. apply wp_palloc.
  rewrite !heap_set_length, length_app, Nat.add_1_r.
  match goal with |- wp _ _ (?h2 ++ [?c]) =>
    assert (chunk_at (h2 ++ [c]) (S (S (length h))) = Some c) as Hpg
  end.
  { apply chunk_at_new_at.
    by rewrite !heap_set_length, length_app, Nat.add_1_r. }
  apply wp_bind. eapply wp_update; [lookup|].
  apply wp_bind. eapply wp_get; [lookup|]. fields.
  apply wp_bind. eapply wp_memcpy_int; [lookup|lookup|lia| |lia|].
  { rewrite uninit_length. lia. }
  rewrite take_ge, drop_ge, app_nil_r by (rewrite ?uninit_length; lia).
  apply wp_bind. apply wp_palloc.
  rewrite !heap_set_length, !length_app, !heap_set_length, length_app, !Nat.add_1_r.
  match goal with |- wp _ _ (?h3 ++ [?c]) =>
    assert (chunk_at (h3 ++ [c]) (S (S (S (length h)))) = Some c) as Hdt
  end.
  { apply chunk_at_new_at.
    by rewrite !heap_set_length, !length_app, !heap_set_length, length_app,
         !Nat.add_1_r. }
  apply wp_bind. eapply wp_update; [lookup|].
  apply wp_bind. eapply wp_get; [lookup|]. fields.
  apply wp_bind. eapply wp_memset; [lookup|lia|zlia| |].
  { rewrite uninit_length. zlia. }
  rewrite memset_whole by apply uninit_length.
  apply wp_ret. unfold Q. split; [done|]. split; [|split].
  - apply view_Some. unfold copied_state. fields.
    split; [lookup|]. split; lookup.
  - intros p c Hc.
    assert (p <> S (length h) /\ p <> S (S (length h)) /\ p <> S (S (S (length h))))
      as (? & ? & ?).
    { apply chunk_at_allocated in Hc. lia. }
    lookup.
  - rewrite !heap_set_length, !length_app, !heap_set_length, !length_app,
      !heap_set_length, length_app. simpl. lia.
Qed.

(** ** Registering pages in order *)

Lemma cell_of_nat (l : list Z) (i : nat) : cell l (Z.of_nat i) = l !! i.
Proof.
  unfold cell. destruct (Z.leb_spec 0 (Z.of_nat i)); [|lia].
  by rewrite Nat2Z.id.
Qed.

Lemma registered_offsets st page t d :
  offsets (registered st page t d) = set_cell (offsets st) page t.
Proof. unfold registered. by destruct (maxBytes (hdr st) <? bytes_for t). Qed.

Lemma registered_npages st page t d :
  npages (hdr (registered st page t d)) = npages (hdr st).
Proof. unfold registered. by destruct (maxBytes (hdr st) <? bytes_for t). Qed.

Lemma registered_nbytes st page t d :
  nbytes (hdr (registered st page t d)) = bytes_for t.
Proof. unfold registered. by destruct (maxBytes (hdr st) <? bytes_for t). Qed.

(** The capacity grows by one chunk or not at all, and the bytes there
    were are kept, with zeroes after them. *)
Lemma registered_growth st page t d :
  0 <= maxBytes (hdr st) ->
  exists k, 0 <= k <= 1 /\
    maxBytes (hdr (registered st page t d)) = maxBytes (hdr st) + k * PALLOC_CHUNK /\
    bits (registered st page t d)
    = bits st ++ replicate (Z.to_nat (k * PALLOC_CHUNK)) 0.
Proof.
  intros Hmb. pose proof (bytes_for_bound t) as Hb. unfold registered.
  destruct (Z.ltb_spec (maxBytes (hdr st)) (bytes_for t)).
  - exists 1. fields. rewrite to_int_id by zlia.
    split; [lia|]. by rewrite Z.mul_1_l.
  - exists 0. fields. split; [lia|]. split; [lia|]. by rewrite app_nil_r.
Qed.

Lemma registered_sized st page t d :
  sized st -> sized (registered st page t d).
Proof.
  intros (Hnp & Hlp & Hmb & Hlb).
  destruct (registered_growth st page t d) as (k & Hk & Hmax & Hbits); [lia|].
  pose proof (bytes_for_bound t) as Hb.
  unfold sized. rewrite registered_npages, registered_offsets, set_cell_length.
  rewrite Hmax, Hbits, length_app, length_replicate.
  split; [done|]. split; [done|].
  unfold registered in Hmax. destruct (Z.ltb_spec (maxBytes (hdr st)) (bytes_for t)).
  - fields in Hmax. rewrite to_int_id in Hmax by zlia.
    assert (k = 1) as -> by zlia. zlia.
  - fields in Hmax. assert (k = 0) as -> by zlia. zlia.
Qed.

(** An invariant of the state that every registration keeps holds after
    all of them, and all of them return. [all] is the list of the counts, of
    which the pages below [k] are registered already. *)
Lemma register_pages_invariant (P : bitmap_state -> nat -> Prop) bm (all : list Z) :
  counts_ok all ->
  (forall st k c t d,
     sized st -> Z.of_nat (length all) <= npages (hdr st) ->
     P st k -> all !! k = Some c ->
     page_total (offsets st) (Z.of_nat k) c = Some t ->
     P (registered st (Z.of_nat k) t d) (S k)) ->
  forall n k h st,
    (k + n)%nat = length all ->
    view h bm = Some st -> sized st -> P st k ->
    Z.of_nat (length all) <= npages (hdr st) ->
    exists h' st',
      register_pages bm (Z.of_nat k) (drop k all) h = Ok tt h' /\
      view h' bm = Some st' /\ sized st' /\ P st' (length all) /\
      npages (hdr st') = npages (hdr st).
Proof.
  intros Hok Hstep n. induction n as [|n IH]; intros k h st Hk Hv Hsz HP Hlen.
  - rewrite drop_ge by lia. exists h, st.
    replace (length all) with k by lia. done.
  - destruct (lookup_lt_is_Some_2 all k) as [c Hc]; [lia|].
    rewrite (drop_S _ _ _ Hc). cbn [register_pages].
    assert (0 <= c <= MaxHeapTuplesPerPage) as Hcb.
    { unfold counts_ok in Hok. rewrite Forall_lookup in Hok. by apply (Hok k). }
    destruct (bitmap_add_page_run h bm st (Z.of_nat k) c) as (t & h1 & Ht & Hrun & Hv1 & _);
      [done|done|lia|done|].
    destruct (IH (S k) h1 (registered st (Z.of_nat k) t (S (length h))))
      as (h2 & st2 & Hrun2 & Hv2 & Hsz2 & HP2 & Hnp2).
    + lia.
    + done.
    + by apply registered_sized.
    + by eapply Hstep.
    + by rewrite registered_npages.
    + exists h2, st2. rewrite bind_run, Hrun.
      replace (Z.of_nat k + 1) with (Z.of_nat (S k)) by lia.
      rewrite Hrun2. rewrite registered_npages in Hnp2. done.
Qed.

Lemma total_app l1 l2 : total (l1 ++ l2) = total l1 + total l2.
Proof.
  unfold total. induction l1 as [|x l1 IH]; simpl; [done|]. rewrite IH. lia.
Qed.

Lemma total_nonneg l : Forall (fun c => 0 <= c) l -> 0 <= total l.
Proof.
  unfold total. induction 1 as [|x l Hx Hl IH]; simpl; lia.
Qed.

Lemma total_take_S l k c :
  l !! k = Some c -> total (take (S k) l) = total (take k l) + c.
Proof.
  intros Hc. rewrite (take_S_r _ _ _ Hc), total_app. unfold total. simpl. lia.
Qed.

Lemma total_take_mono l a b :
  Forall (fun c => 0 <= c) l -> (a <= b)%nat ->
  total (take a l) <= total (take b l).
Proof.
  intros Hl Hab.
  replace b with (a + (b - a))%nat by lia.
  rewrite <- take_take_drop, total_app.
  assert (0 <= total (take (b - a) (drop a l))); [|lia].
  apply total_nonneg. by apply Forall_take, Forall_drop.
Qed.

Lemma total_take_le l a :
  Forall (fun c => 0 <= c) l -> total (take a l) <= total l.
Proof.
  intros Hl. rewrite <- (take_drop a l) at 2. rewrite total_app.
  assert (0 <= total (drop a l)); [|lia].
  apply total_nonneg. by apply Forall_drop.
Qed.

Lemma counts_ok_nonneg counts : counts_ok counts -> Forall (fun c => 0 <= c) counts.
Proof. unfold counts_ok. intros H. eapply Forall_impl; [exact H|]. simpl. lia. Qed.

Lemma page_total_first pg c : page_total pg (Z.of_nat 0) c = Some c.
Proof. done. Qed.

Lemma page_total_next pg k c x :
  Z.of_nat (S k) <= INT_MAX -> pg !! k = Some x ->
  page_total pg (Z.of_nat (S k)) c = Some (to_int (c + x)).
Proof.
  intros Hk Hx. unfold page_total.
  destruct (Z.eqb_spec (Z.of_nat (S k)) 0); [lia|].
  rewrite to_int_id by zlia.
  replace (Z.of_nat (S k) - 1) with (Z.of_nat k) by lia.
  by rewrite cell_of_nat, Hx.
Qed.

Lemma set_cell_lookup_eq (l : list Z) (k : nat) v :
  (k < length l)%nat -> set_cell l (Z.of_nat k) v !! k = Some v.
Proof.
  intros Hk. unfold set_cell. rewrite Nat2Z.id. by apply list_lookup_insert_eq.
Qed.

Lemma set_cell_lookup_ne (l : list Z) (k i : nat) v :
  i <> k -> set_cell l (Z.of_nat k) v !! i = l !! i.
Proof.
  intros Hk. unfold set_cell. rewrite Nat2Z.id. by apply list_lookup_insert_ne.
Qed.

(** The offsets of the registered pages are the sums of the counts, as long
    as the sum of all counts is one an [int] holds. *)
Lemma prefix_sums_kept (counts : list Z) st k c t d :
  counts_ok counts -> total counts <= INT_MAX ->
  sized st -> Z.of_nat (length counts) <= npages (hdr st) ->
  (forall i, (i < k)%nat -> offsets st !! i = Some (total (take (S i) counts))) ->
  counts !! k = Some c ->
  page_total (offsets st) (Z.of_nat k) c = Some t ->
  forall i, (i < S k)%nat ->
    offsets (registered st (Z.of_nat k) t d) !! i = Some (total (take (S i) counts)).
Proof.
  intros Hok Hfit (Hnp & Hlp & _) Hlen HP Hc Ht i Hi.
  pose proof (counts_ok_nonneg _ Hok) as Hnn.
  pose proof (lookup_lt_Some _ _ _ Hc) as Hk.
  rewrite registered_offsets.
  destruct (decide (i = k)) as [->|Hne].
  2:{ rewrite set_cell_lookup_ne by done. apply HP. lia. }
  rewrite set_cell_lookup_eq by lia. f_equal.
  destruct k as [|k].
  - rewrite page_total_first in Ht. injection Ht as <-.
    rewrite (total_take_S _ _ _ Hc). done.
  - assert (Z.of_nat (S k) <= INT_MAX) as Hki by lia.
    rewrite (page_total_next _ _ _ _ Hki (HP k (Nat.lt_succ_diag_r k))) in Ht.
    injection Ht as <-.
    rewrite (total_take_S _ (S k) _ Hc).
    pose proof (total_take_le counts (S (S k)) Hnn) as Hle.
    rewrite (total_take_S _ (S k) _ Hc) in Hle.
    pose proof (total_nonneg (take (S k) counts) ltac:(by apply Forall_take)) as H0.
    assert (0 <= c).
    { rewrite Forall_lookup in Hnn. by apply (Hnn (S k)). }
    rewrite to_int_id by zlia. lia.
Qed.

Lemma bytes_for_step x c :
  is_int x -> 0 <= c <= 8 * PALLOC_CHUNK ->
  bytes_for (to_int (c + x)) <= Z.max 0 (bytes_for x + PALLOC_CHUNK).
Proof.
  intros Hx Hc. unfold bytes_for, to_int. qlia.
Qed.

Lemma bytes_for_first c :
  0 <= c <= 8 * PALLOC_CHUNK -> bytes_for c <= PALLOC_CHUNK.
Proof. intros Hc. unfold bytes_for, to_int. qlia. Qed.

(** The byte count stays within the capacity, one chunk being enough for
    the items of one page. *)
Lemma tidy_kept st k c t d :
  MaxHeapTuplesPerPage <= 8 * PALLOC_CHUNK ->
  0 <= c <= MaxHeapTuplesPerPage ->
  sized st -> Z.of_nat k < npages (hdr st) ->
  tidy st k ->
  page_total (offsets st) (Z.of_nat k) c = Some t ->
  tidy (registered st (Z.of_nat k) t d) (S k).
Proof.
  intros Hmax Hc (Hnp & Hlp & Hmb & Hlb) Hk (Hfit & Hchunk & Hlast) Ht.
  destruct (registered_growth st (Z.of_nat k) t d) as (g & Hg & Hcap & _); [lia|].
  assert (is_int t /\ bytes_for t <= maxBytes (hdr st) + PALLOC_CHUNK) as (Hit & Hbt).
  { destruct k as [|k].
    - rewrite page_total_first in Ht. injection Ht as <-.
      pose proof (bytes_for_first c). zlia.
    - destruct Hlast as (x & Hx & Hix & Hnb).
      assert (Z.of_nat (S k) <= INT_MAX) as Hki by lia.
      rewrite (page_total_next _ _ _ _ Hki Hx) in Ht. injection Ht as <-.
      split; [apply to_int_is_int|].
      pose proof (bytes_for_step x c Hix). zlia. }
  unfold tidy. rewrite registered_nbytes, registered_offsets.
  split; [|split].
  - unfold registered in *.
    destruct (Z.ltb_spec (maxBytes (hdr st)) (bytes_for t)); fields.
    + rewrite to_int_id; [done|]. pose proof (bytes_for_bound t). zlia.
    + done.
  - zlia.
  - exists t. rewrite set_cell_lookup_eq by lia. done.
Qed.

Lemma initial_state_sized n pg dt : 0 <= n <= INT_MAX -> sized (initial_state n pg dt).
Proof.
  intros Hn. pose proof (initial_capacity_bounds n Hn).
  unfold sized, initial_state. fields.
  rewrite uninit_length, length_replicate. zlia.
Qed.

Lemma build_invariant (P : bitmap_state -> nat -> Prop) h N (counts : list Z) :
  0 <= N <= INT_MAX ->
  Z.of_nat (length counts) <= N ->
  counts_ok counts ->
  (forall st k c t d,
     sized st -> Z.of_nat (length counts) <= npages (hdr st) ->
     P st k -> counts !! k = Some c ->
     page_total (offsets st) (Z.of_nat k) c = Some t ->
     P (registered st (Z.of_nat k) t d) (S k)) ->
  (forall pg dt, P (initial_state N pg dt) 0%nat) ->
  exists h' st,
    build N counts h = Ok (S (length h)) h' /\
    view h' (S (length h)) = Some st /\ sized st /\
    P st (length counts) /\ npages (hdr st) = N.
Proof.
  intros HN Hlen Hok Hstep Hinit.
  destruct (bitmap_init_run h N HN) as (h1 & Hrun1 & Hv1 & _ & _).
  destruct (register_pages_invariant P (S (length h)) counts Hok Hstep
              (length counts) 0%nat h1 _ eq_refl Hv1)
    as (h2 & st2 & Hrun2 & Hv2 & Hsz2 & HP2 & Hnp2).
  - by apply initial_state_sized.
  - apply Hinit.
  - done.
  - exists h2, st2. unfold build.
    rewrite bind_run, Hrun1, bind_run.
    rewrite drop_0 in Hrun2. change (Z.of_nat 0) with 0 in Hrun2.
    rewrite Hrun2. done.
Qed.

(** C4, with the bound that the [int]s of the table ask for: for a bitmap
    built for [N] pages, with the pages 0..N-1 registered in increasing
    order with the counts [c_0 .. c_(N-1)], each between 0 and the most a
    page can hold, the run always returns; and when the sum of all counts
    is at most [INT_MAX], entry [i] of the offset table is the sum
    [c_0 + ... + c_i], for every [i], and the table is non-decreasing. *)
Theorem offsets_are_prefix_sums (h : heap) (N : Z) (counts : list Z) :
  0 <= N <= INT_MAX ->
  Z.of_nat (length counts) = N ->
  counts_ok counts ->
  exists bitmap h' st,
    build N counts h = Ok bitmap h' /\
    view h' bitmap = Some st /\
    npages (hdr st) = N /\
    (total counts <= INT_MAX ->
       (forall i, 0 <= i < N ->
          cell (offsets st) i = Some (prefix_sum counts i)) /\
       (forall i j x y, 0 <= i <= j -> j < N ->
          cell (offsets st) i = Some x -> cell (offsets st) j = Some y -> x <= y)).
Proof.
  intros HN Hlen Hok.
  set (P := fun st k => total counts <= INT_MAX ->
              forall i, (i < k)%nat ->
                offsets st !! i = Some (total (take (S i) counts))).
  destruct (build_invariant P h N counts HN) as (h' & st & Hrun & Hv & Hsz & HP & Hnp).
  - lia.
  - done.
  - intros st k c t d Hsz Hl HP Hc Ht Hfit.
    apply (prefix_sums_kept counts st k c t d); auto.
  - intros pg dt _ i Hi. lia.
  - exists (S (length h)), h', st.
    split; [done|]. split; [done|]. split; [done|]. intros Hfit.
    assert (forall i, 0 <= i < N -> cell (offsets st) i = Some (prefix_sum counts i)) as Hsum.
    { intros i Hi. rewrite <- (Z2Nat.id i) at 1 by lia.
      rewrite cell_of_nat, HP by (done || lia). unfold prefix_sum.
      do 3 f_equal. lia. }
    split; [done|].
    intros i j x y Hij Hj Hx Hy.
    rewrite Hsum in Hx, Hy by lia. injection Hx as <-. injection Hy as <-.
    unfold prefix_sum. apply total_take_mono; [by apply counts_ok_nonneg|lia].
Qed.

(** *** Sums that an [int] does not hold

    The table holds C [int]s, and [bitmap_add_page] adds with [int]
    arithmetic: whatever the counts are, entry [i] is the sum
    [c_0 + ... + c_i] wrapped around to an [int]. *)

Lemma to_int_add_to_int c x : to_int (c + to_int x) = to_int (c + x).
Proof.
  unfold to_int. f_equal.
  replace (c + ((x + 2 ^ 31) `mod` 2 ^ 32 - 2 ^ 31) + 2 ^ 31)
    with (c + (x + 2 ^ 31) `mod` 2 ^ 32) by lia.
  rewrite Zplus_mod_idemp_r. f_equal. lia.
Qed.

Lemma wrapped_sums_kept (counts : list Z) st k c t d :
  counts_ok counts -> MaxHeapTuplesPerPage <= INT_MAX ->
  sized st -> Z.of_nat (length counts) <= npages (hdr st) ->
  (forall i, (i < k)%nat ->
     offsets st !! i = Some (to_int (total (take (S i) counts)))) ->
  counts !! k = Some c ->
  page_total (offsets st) (Z.of_nat k) c = Some t ->
  forall i, (i < S k)%nat ->
    offsets (registered st (Z.of_nat k) t d) !! i
    = Some (to_int (total (take (S i) counts))).
Proof.
  intros Hok Hmax (Hnp & Hlp & _) Hlen HP Hc Ht i Hi.
  pose proof (lookup_lt_Some _ _ _ Hc) as Hk.
  rewrite registered_offsets.
  destruct (decide (i = k)) as [->|Hne].
  2:{ rewrite set_cell_lookup_ne by done. apply HP. lia. }
  rewrite set_cell_lookup_eq by lia. f_equal.
  rewrite (total_take_S _ _ _ Hc).
  destruct k as [|k].
  - rewrite page_total_first in Ht. injection Ht as <-.
    assert (0 <= c <= MaxHeapTuplesPerPage) as Hcb.
    { unfold counts_ok in Hok. rewrite Forall_lookup in Hok. by apply (Hok 0%nat). }
    change (total (take 0 counts)) with 0. rewrite Z.add_0_l.
    symmetry. apply to_int_id. zlia.
  - assert (Z.of_nat (S k) <= INT_MAX) as Hki by lia.
    rewrite (page_total_next _ _ _ _ Hki (HP k (Nat.lt_succ_diag_r k))) in Ht.
    injection Ht as <-.
    rewrite to_int_add_to_int. f_equal. lia.
Qed.

Lemma build_wrapped_sums h N (counts : list Z) :
  MaxHeapTuplesPerPage <= INT_MAX ->
  0 <= N <= INT_MAX ->
  Z.of_nat (length counts) = N ->
  counts_ok counts ->
  exists h' st,
    build N counts h = Ok (S (length h)) h' /\
    view h' (S (length h)) = Some st /\
    npages (hdr st) = N /\
    forall i, 0 <= i < N -> cell (offsets st) i = Some (to_int (prefix_sum counts i)).
Proof.
  intros Hmax HN Hlen Hok.
  set (P := fun st k => forall i, (i < k)%nat ->
              offsets st !! i = Some (to_int (total (take (S i) counts)))).
  destruct (build_invariant P h N counts HN) as (h' & st & Hrun & Hv & Hsz & HP & Hnp).
  - lia.
  - done.
  - intros st k c t d Hsz Hl HP Hc Ht i Hi.
    by apply (wrapped_sums_kept counts st k c t d).
  - intros pg dt i Hi. lia.
  - exists h', st. split; [done|]. split; [done|]. split; [done|].
    intros i Hi. rewrite <- (Z2Nat.id i) at 1 by lia.
    rewrite cell_of_nat, HP by lia. unfold prefix_sum.
    do 4 f_equal. lia.
Qed.

Lemma total_replicate (n : nat) c : total (replicate n c) = Z.of_nat n * c.
Proof.
  unfold total. induction n as [|n IH]; [done|].
  cbn [replicate foldr]. rewrite IH. lia.
Qed.

Lemma prefix_sum_replicate n c i :
  0 <= i < n -> prefix_sum (replicate (Z.to_nat n) c) i = (i + 1) * c.
Proof.
  intros Hi. unfold prefix_sum.
  rewrite take_replicate, Nat.min_l by lia.
  rewrite total_replicate. f_equal. lia.
Qed.

(** ** Bits *)

Lemma shl1_value r : 0 <= r < 8 -> to_int (Z.shiftl 1 r) = 2 ^ r.
Proof.
  intros Hr. rewrite Z.shiftl_1_l. apply to_int_id.
  assert (0 < 2 ^ r <= 2 ^ 7).
  { split; [apply Z.pow_pos_nonneg; lia|apply Z.pow_le_mono_r; lia]. }
  zlia.
Qed.

Lemma testbit_low_neg c j : j < 0 -> Z.testbit c j = false.
Proof. apply Z.testbit_neg_r. Qed.

Lemma testbit_set_bit c r j :
  0 <= r < 8 -> -8 < j < 8 ->
  Z.testbit (to_char (Z.lor c (2 ^ r))) j = Z.testbit c j || (j =? r).
Proof.
  intros Hr Hj. destruct (Z.ltb_spec j 0) as [Hneg|Hpos].
  - rewrite !testbit_low_neg by done.
    destruct (Z.eqb_spec j r); [lia|done].
  - rewrite to_char_testbit, Z.lor_spec, Z.pow2_bits_eqb by lia.
    by rewrite (Z.eqb_sym r j).
Qed.

Lemma testbit_clear_bit c r j :
  0 <= r < 8 -> -8 < j < 8 ->
  Z.testbit (to_char (Z.land c (Z.lnot (2 ^ r)))) j = Z.testbit c j && negb (j =? r).
Proof.
  intros Hr Hj. destruct (Z.ltb_spec j 0) as [Hneg|Hpos].
  - by rewrite !testbit_low_neg.
  - rewrite to_char_testbit, Z.land_spec, Z.lnot_spec, Z.pow2_bits_eqb by lia.
    by rewrite (Z.eqb_sym r j).
Qed.

Lemma bit_at_set_cell dt q v idx :
  is_Some (cell dt q) ->
  bit_at (set_cell dt q v) idx
  = if idx `quot` 8 =? q then Some (Z.testbit v (idx `rem` 8)) else bit_at dt idx.
Proof.
  intros [old Hq]. apply cell_Some in Hq as Hrange. unfold bit_at.
  destruct (Z.eqb_spec (idx `quot` 8) q) as [->|Hne].
  - by rewrite cell_set_cell_eq.
  - by rewrite cell_set_cell_ne by lia.
Qed.

(** ** What [bitmap_set_item] and [bitmap_get_item] do to the bits *)

(** The checks that both make before they touch the bit. *)
Lemma item_update_true st page item state dt :
  item_update st page item state = inr (true, dt) ->
  exists idx count c,
    index_of (offsets st) page item = Some idx /\
    page < npages (hdr st) /\ idx `quot` 8 <= nbytes (hdr st) /\
    cell (offsets st) page = Some count /\ item < count /\
    cell (bits st) (idx `quot` 8) = Some c /\ 0 <= idx `rem` 8 < 8 /\
    dt = set_cell (bits st) (idx `quot` 8)
           (to_char (if state then Z.lor c (2 ^ (idx `rem` 8))
                     else Z.land c (Z.lnot (2 ^ (idx `rem` 8))))).
Proof.
  unfold item_update.
  destruct (index_of (offsets st) page item) as [idx|]; [|done].
  destruct (Z.leb_spec (npages (hdr st)) page); [done|].
  destruct (Z.ltb_spec (nbytes (hdr st)) (idx `quot` 8)); [done|].
  destruct (cell (offsets st) page) as [count|] eqn:Hcount; [|done].
  destruct (Z.leb_spec count item); [done|].
  destruct (cell (bits st) (idx `quot` 8)) as [c|] eqn:Hc; [|done].
  destruct (Z.ltb_spec (idx `rem` 8) 0); [done|].
  assert (0 <= idx `rem` 8 < 8) as Hr by qlia.
  rewrite shl1_value by done.
  intros [= <-]. exists idx, count, c. done.
Qed.

Lemma item_update_false st page item state dt :
  item_update st page item state = inr (false, dt) -> dt = bits st.
Proof.
  unfold item_update.
  destruct (index_of (offsets st) page item) as [idx|]; [|done].
  destruct (npages (hdr st) <=? page); [by intros [= <-]|].
  destruct (nbytes (hdr st) <? idx `quot` 8); [by intros [= <-]|].
  destruct (cell (offsets st) page) as [count|]; [|done].
  destruct (count <=? item); [by intros [= <-]|].
  destruct (cell (bits st) (idx `quot` 8)) as [c|]; [|done].
  by destruct (idx `rem` 8 <? 0).
Qed.

(** A call that returns true leaves the addressed bit in the requested
    state, and every other bit as it was. *)
Lemma item_update_bits st page item state dt idx :
  item_update st page item state = inr (true, dt) ->
  index_of (offsets st) page item = Some idx ->
  bit_at dt idx = Some state /\
  (forall idx', idx' <> idx -> bit_at dt idx' = bit_at (bits st) idx') /\
  length dt = length (bits st).
Proof.
  intros Hup Hidx.
  apply item_update_true in Hup
    as (idx0 & count & c & Hidx0 & _ & _ & _ & _ & Hc & Hr & ->).
  assert (idx0 = idx) as -> by congruence.
  split; [|split].
  - rewrite bit_at_set_cell, Z.eqb_refl by (by eexists). f_equal.
    destruct state.
    + rewrite testbit_set_bit, Z.eqb_refl by lia. apply orb_true_r.
    + rewrite testbit_clear_bit, Z.eqb_refl by lia. apply andb_false_r.
  - intros idx' Hne. rewrite bit_at_set_cell by (by eexists).
    destruct (Z.eqb_spec (idx' `quot` 8) (idx `quot` 8)) as [Hq|]; [|done].
    unfold bit_at. rewrite Hq, Hc. f_equal.
    assert (idx' `rem` 8 <> idx `rem` 8) as Hrem by qlia.
    assert (-8 < idx' `rem` 8 < 8) as Hr' by qlia.
    destruct state.
    + rewrite testbit_set_bit by lia.
      destruct (Z.eqb_spec (idx' `rem` 8) (idx `rem` 8)); [done|apply orb_false_r].
    + rewrite testbit_clear_bit by lia.
      destruct (Z.eqb_spec (idx' `rem` 8) (idx `rem` 8)); [done|apply andb_true_r].
  - apply set_cell_length.
Qed.

(** [bitmap_get_item] answers whether the byte that holds the bit is not 0. *)
Lemma item_probe_Some st page item r :
  item_probe st page item = inr r ->
  r = true ->
  exists idx count c,
    index_of (offsets st) page item = Some idx /\
    page < npages (hdr st) /\ idx `quot` 8 <= nbytes (hdr st) /\
    cell (offsets st) page = Some count /\ item < count /\
    cell (bits st) (idx `quot` 8) = Some c /\ c <> 0 /\ 0 <= idx `rem` 8 < 8.
Proof.
  unfold item_probe. intros Hp ->.
  destruct (index_of (offsets st) page item) as [idx|]; [|done].
  destruct (Z.leb_spec (npages (hdr st)) page); [done|].
  destruct (Z.ltb_spec (nbytes (hdr st)) (idx `quot` 8)); [done|].
  destruct (cell (offsets st) page) as [count|] eqn:Hcount; [|done].
  destruct (Z.leb_spec count item); [done|].
  destruct (cell (bits st) (idx `quot` 8)) as [c|] eqn:Hc; [|done].
  destruct (Z.eqb_spec c 0); [done|].
  destruct (Z.ltb_spec (idx `rem` 8) 0); [done|].
  assert (0 <= idx `rem` 8 < 8) as Hr by qlia.
  exists idx, count, c. done.
Qed.

(** Where [bitmap_get_item] returns true, [bitmap_set_item] succeeds. *)
Lemma item_probe_update st page item state :
  item_probe st page item = inr true ->
  exists dt, item_update st page item state = inr (true, dt).
Proof.
  intros Hp.
  apply item_probe_Some in Hp as (idx & count & c & Hi & Hpg & Hb & Hc & Hit & Hcl & _ & Hr);
    [|done].
  unfold item_update. rewrite Hi.
  destruct (Z.leb_spec (npages (hdr st)) page); [lia|].
  destruct (Z.ltb_spec (nbytes (hdr st)) (idx `quot` 8)); [lia|].
  rewrite Hc. destruct (Z.leb_spec count item); [lia|].
  rewrite Hcl. destruct (Z.ltb_spec (idx `rem` 8) 0); [lia|].
  by eexists.
Qed.

(** ** The first byte of the bit buffer

    The items of page 0 below 8 have their bits in byte 0. *)

Lemma index_of_page0 pg item : is_int item -> index_of pg 0 item = Some item.
Proof. intros Hi. unfold index_of. simpl. by rewrite to_int_id. Qed.

Lemma first_byte_update st item state b0 rest n :
  bits st = b0 :: rest -> offsets st !! 0%nat = Some n ->
  0 <= item < n -> item < 8 ->
  0 < npages (hdr st) -> 0 <= nbytes (hdr st) ->
  item_update st 0 item state
  = inr (true, to_char (if state then Z.lor b0 (2 ^ item)
                        else Z.land b0 (Z.lnot (2 ^ item))) :: rest).
Proof.
  intros Hb Ho Hi Hi8 Hnp Hnb. unfold item_update.
  rewrite index_of_page0 by zlia.
  rewrite Z.quot_small, Z.rem_small by lia.
  destruct (Z.leb_spec (npages (hdr st)) 0); [lia|].
  destruct (Z.ltb_spec (nbytes (hdr st)) 0); [lia|].
  change 0 with (Z.of_nat 0) at 1 2. rewrite !cell_of_nat, Ho, Hb.
  destruct (Z.leb_spec n item); [lia|]. cbn [lookup list_lookup].
  destruct (Z.ltb_spec item 0); [lia|].
  rewrite shl1_value by lia. done.
Qed.

Lemma first_byte_probe st item b0 rest n :
  bits st = b0 :: rest -> offsets st !! 0%nat = Some n ->
  0 <= item < n -> item < 8 ->
  0 < npages (hdr st) -> 0 <= nbytes (hdr st) ->
  item_probe st 0 item = inr (negb (b0 =? 0)).
Proof.
  intros Hb Ho Hi Hi8 Hnp Hnb. unfold item_probe.
  rewrite index_of_page0 by zlia.
  rewrite Z.quot_small, Z.rem_small by lia.
  destruct (Z.leb_spec (npages (hdr st)) 0); [lia|].
  destruct (Z.ltb_spec (nbytes (hdr st)) 0); [lia|].
  change 0 with (Z.of_nat 0) at 1 2. rewrite !cell_of_nat, Ho, Hb.
  destruct (Z.leb_spec n item); [lia|]. cbn [lookup list_lookup].
  destruct (Z.eqb_spec b0 0); [done|].
  destruct (Z.ltb_spec item 0); [lia|].
  rewrite shl1_value by lia.
  assert (0 < 2 ^ item) by (apply Z.pow_pos_nonneg; lia).
  destruct (Z.eqb_spec (2 ^ item) 0); [lia|done].
Qed.

Lemma first_byte_bit st item b0 rest :
  bits st = b0 :: rest -> 0 <= item < 8 ->
  item_bit st 0 item = Some (Z.testbit b0 item).
Proof.
  intros Hb Hi. unfold item_bit, bit_at.
  rewrite index_of_page0 by zlia.
  rewrite Z.quot_small, Z.rem_small by lia.
  change 0 with (Z.of_nat 0). by rewrite cell_of_nat, Hb.
Qed.

(** ** [bitmap_add_heap_items] *)

Lemma first_pass_used h bm st header page item nerrs r dt :
  view h bm = Some st ->
  ItemIdIsUsed (pd_linp header item) = true ->
  item_update st page item true = inr (r, dt) ->
  first_pass bm header page item nerrs h
  = Ok (count_failure nerrs r) (heap_set h (data (hdr st)) (Chars dt)).
Proof.
  intros Hv Hused Hup. unfold first_pass. rewrite Hused.
  by rewrite bind_run, (bitmap_set_item_run _ _ _ _ _ _ Hv), Hup.
Qed.

Lemma second_pass_kept h bm header raw_page page item nerrs :
  HeapTupleHeaderIsHeapOnly (PageGetItem raw_page (pd_linp header item)) = false ->
  second_pass bm header raw_page page item nerrs h = Ok nerrs h.
Proof. intros Hhot. unfold second_pass. by rewrite Hhot. Qed.

Lemma second_pass_unset h bm st header raw_page page item nerrs :
  view h bm = Some st ->
  item_probe st page item = inr false ->
  second_pass bm header raw_page page item nerrs h = Ok nerrs h.
Proof.
  intros Hv Hp. unfold second_pass.
  destruct (HeapTupleHeaderIsHeapOnly _); [|done].
  by rewrite bind_run, (bitmap_get_item_run _ _ _ _ _ Hv), Hp.
Qed.

Lemma second_pass_cleared h bm st header raw_page page item nerrs r dt :
  view h bm = Some st ->
  HeapTupleHeaderIsHeapOnly (PageGetItem raw_page (pd_linp header item)) = true ->
  item_probe st page item = inr true ->
  item_update st page item false = inr (r, dt) ->
  second_pass bm header raw_page page item nerrs h
  = Ok (count_failure nerrs r) (heap_set h (data (hdr st)) (Chars dt)).
Proof.
  intros Hv Hhot Hp Hup. unfold second_pass. rewrite Hhot.
  rewrite bind_run, (bitmap_get_item_run _ _ _ _ _ Hv), Hp.
  by rewrite bind_run, (bitmap_set_item_run _ _ _ _ _ _ Hv), Hup.
Qed.

Lemma bitmap_get_item_Ok h bm st page item r h' :
  view h bm = Some st ->
  bitmap_get_item bm page item h = Ok r h' ->
  item_probe st page item = inr r /\ h' = h.
Proof.
  intros Hv. rewrite (bitmap_get_item_run _ _ _ _ _ Hv).
  destruct (item_probe st page item); [done|]. by intros [= -> ->].
Qed.

Lemma for_3 {St} (body : Z -> St -> M St) s h :
  for_ 0 3 body s h
  = (s1 ← body 0 s; s2 ← body 1 s1; s3 ← body 2 s2; ret s3) h.
Proof. reflexivity. Qed.

(** C1: on a new bitmap, a heap page with three used slots of which slot 2
    is heap-only and slots 0 and 1 are not leaves the bits of slots 0 and 1
    set and the bit of slot 2 clear, with no error counted. In general the
    second pass clears the bit of a slot when its tuple is heap-only and
    [bitmap_get_item] reads the slot as set, and changes nothing when the
    tuple is not heap-only or the slot is read as not set. *)
Theorem heap_items_hot_chains :
  (forall (h : heap) (N : Z) (header raw_page : PageImage),
     1 <= N <= INT_MAX ->
     3 <= MaxHeapTuplesPerPage ->
     PageGetMaxOffsetNumber raw_page = 3 ->
     (forall item, 0 <= item < 3 -> ItemIdIsUsed (pd_linp header item) = true) ->
     HeapTupleHeaderIsHeapOnly (PageGetItem raw_page (pd_linp header 0)) = false ->
     HeapTupleHeaderIsHeapOnly (PageGetItem raw_page (pd_linp header 1)) = false ->
     HeapTupleHeaderIsHeapOnly (PageGetItem raw_page (pd_linp header 2)) = true ->
     exists bitmap h1 h2 st,
       bitmap_init N h = Ok bitmap h1 /\
       bitmap_add_heap_items bitmap header raw_page 0 h1 = Ok 0 h2 /\
       view h2 bitmap = Some st /\
       item_bit st 0 0 = Some true /\
       item_bit st 0 1 = Some true /\
       item_bit st 0 2 = Some false) /\
  (forall (h : heap) (bitmap : ptr) (st : bitmap_state)
          (header raw_page : PageImage) (page item nerrs : Z),
     view h bitmap = Some st ->
     (HeapTupleHeaderIsHeapOnly (PageGetItem raw_page (pd_linp header item)) = true ->
      bitmap_get_item bitmap page item h = Ok true h ->
      exists h' st',
        second_pass bitmap header raw_page page item nerrs h = Ok nerrs h' /\
        view h' bitmap = Some st' /\
        hdr st' = hdr st /\ offsets st' = offsets st /\
        item_bit st' page item = Some false /\
        (forall idx, index_of (offsets st) page item <> Some idx ->
           bit_at (bits st') idx = bit_at (bits st) idx)) /\
     (HeapTupleHeaderIsHeapOnly (PageGetItem raw_page (pd_linp header item)) = false \/
      bitmap_get_item bitmap page item h = Ok false h ->
      second_pass bitmap header raw_page page item nerrs h = Ok nerrs h)).
Proof.
  split.
  - intros h N header raw_page HN Hmax Hn Hused Hhot0 Hhot1 Hhot2.
    destruct (bitmap_init_run h N) as (h1 & Hinit & Hv1 & _); [lia|].
    pose proof (initial_capacity_bounds N ltac:(lia)) as Hcap.
    set (bm := S (length h)) in *.
    set (st0 := initial_state N (S bm) (S (S bm))) in *.
    destruct (bitmap_add_page_run h1 bm st0 0 3) as (t & h2 & Ht & Hadd & Hv2 & _);
      [done|apply initial_state_sized; lia|simpl; lia|lia|].
    injection Ht as <-.
    (* the state after the page is registered *)
    remember (registered st0 0 3 (S (length h1))) as st2 eqn:Hst2.
    assert (hdr st2 = set_nbytes 1 (hdr st0) /\
            offsets st2 !! 0%nat = Some 3 /\
            exists rest, bits st2 = 0 :: rest) as (Hh2 & Ho2 & rest & Hb2).
    { subst st2. unfold registered.
      change (bytes_for 3) with 1.
      destruct (Z.ltb_spec (maxBytes (hdr st0)) 1) as [Hlt|_].
      { unfold st0, initial_state in Hlt. fields in Hlt. zlia. }
      fields. split; [done|]. split.
      - change 0 with (Z.of_nat 0). apply set_cell_lookup_eq.
        unfold st0, initial_state. fields. rewrite uninit_length. lia.
      - unfold st0, initial_state. fields.
        exists (replicate (Z.to_nat (initial_capacity N) - 1) 0).
        replace (Z.to_nat (initial_capacity N))
          with (S (Z.to_nat (initial_capacity N) - 1)) at 1 by zlia.
        done. }
    assert (0 < npages (hdr st2) /\ 0 <= nbytes (hdr st2)) as (Hnp2 & Hnb2).
    { rewrite Hh2. unfold st0, initial_state. fields. lia. }
    clear Hst2.
    (* first pass: the three bits are set *)
    set (d := data (hdr st2)).
    set (h3 := heap_set h2 d (Chars (1 :: rest))).
    set (h4 := heap_set h3 d (Chars (3 :: rest))).
    set (h5 := heap_set h4 d (Chars (7 :: rest))).
    set (h6 := heap_set h5 d (Chars (3 :: rest))).
    pose proof (view_heap_set_bits h2 bm st2 (1 :: rest) Hv2) as Hv3. fold d h3 in Hv3.
    pose proof (view_heap_set_bits h3 bm _ (3 :: rest) Hv3) as Hv4. fold d h4 in Hv4.
    pose proof (view_heap_set_bits h4 bm _ (7 :: rest) Hv4) as Hv5. fold d h5 in Hv5.
    pose proof (view_heap_set_bits h5 bm _ (3 :: rest) Hv5) as Hv6. fold d h6 in Hv6.
    cbn [with_bits hdr offsets bits] in Hv4, Hv5, Hv6.
    assert (first_pass bm header 0 0 0 h2 = Ok 0 h3) as Hp0.
    { apply (first_pass_used h2 bm st2 header 0 0 0 true (1 :: rest) Hv2);
        [apply Hused; lia|].
      by rewrite (first_byte_update st2 0 true 0 rest 3) by (done || lia). }
    assert (first_pass bm header 0 1 0 h3 = Ok 0 h4) as Hp1.
    { apply (first_pass_used h3 bm _ header 0 1 0 true (3 :: rest) Hv3);
        [apply Hused; lia|].
      by rewrite (first_byte_update _ 1 true 1 rest 3) by (done || lia). }
    assert (first_pass bm header 0 2 0 h4 = Ok 0 h5) as Hp2.
    { apply (first_pass_used h4 bm _ header 0 2 0 true (7 :: rest) Hv4);
        [apply Hused; lia|].
      by rewrite (first_byte_update _ 2 true 3 rest 3) by (done || lia). }
    (* second pass: the bit of slot 2 is cleared *)
    pose proof (second_pass_kept h5 bm header raw_page 0 0 0 Hhot0) as Hq0.
    pose proof (second_pass_kept h5 bm header raw_page 0 1 0 Hhot1) as Hq1.
    assert (second_pass bm header raw_page 0 2 0 h5 = Ok 0 h6) as Hq2.
    { apply (second_pass_cleared h5 bm _ header raw_page 0 2 0 true (3 :: rest) Hv5 Hhot2).
      - by rewrite (first_byte_probe _ 2 7 rest 3) by (done || lia).
      - by rewrite (first_byte_update _ 2 false 7 rest 3) by (done || lia). }
    exists bm, h1, h6, (mk_bitmap_state (hdr st2) (offsets st2) (3 :: rest)).
    split; [done|]. split.
    + unfold bitmap_add_heap_items. rewrite Hn.
      rewrite bind_run, Hadd, bind_run, for_3.
      rewrite bind_run, Hp0, bind_run, Hp1, bind_run, Hp2.
      change (ret 0 h5) with (Ok 0 h5). cbv beta iota.
      rewrite for_3, bind_run, Hq0, bind_run, Hq1, bind_run, Hq2. done.
    + split; [done|].
      rewrite !(first_byte_bit _ _ 3 rest) by (done || lia). done.
  - intros h bm st header raw_page page item nerrs Hv. split.
    + intros Hhot Hget.
      apply (bitmap_get_item_Ok _ _ _ _ _ _ _ Hv) in Hget as (Hp & _).
      destruct (item_probe_update st page item false Hp) as (dt & Hup).
      pose proof (item_update_true _ _ _ _ _ Hup) as (idx & _ & _ & Hidx & _).
      destruct (item_update_bits _ _ _ _ _ idx Hup Hidx) as (Hbit & Hother & _).
      exists (heap_set h (data (hdr st)) (Chars dt)), (with_bits st dt).
      split;
        [by apply (second_pass_cleared h bm st header raw_page page item nerrs true dt)|].
      split; [by apply view_heap_set_bits|].
      split; [done|]. split; [done|]. split.
      * unfold item_bit. cbn [with_bits offsets bits]. by rewrite Hidx.
      * intros idx' Hne. cbn [with_bits bits]. apply Hother. congruence.
    + intros [Hcold|Hget].
      * by apply second_pass_kept.
      * apply (bitmap_get_item_Ok _ _ _ _ _ _ _ Hv) in Hget as (Hp & _).
        by apply (second_pass_unset h bm st).
Qed.

(** ** [bitmap_add_index_items] *)

Lemma addressable_same_layout st st' page item :
  same_layout st st' -> addressable st page item -> addressable st' page item.
Proof.
  intros (Hh & Ho & Hl) (idx & count & H). exists idx, count.
  by rewrite Hh, Ho, Hl.
Qed.

Lemma addressable_update st page item state :
  addressable st page item ->
  exists dt, item_update st page item state = inr (true, dt).
Proof.
  intros (idx & count & Hidx & Hpg & Hi0 & Hnb & Hlen & Hc & Hit).
  unfold item_update. rewrite Hidx.
  destruct (Z.leb_spec (npages (hdr st)) page); [lia|].
  destruct (Z.ltb_spec (nbytes (hdr st)) (idx `quot` 8)); [lia|].
  rewrite Hc. destruct (Z.leb_spec count item); [lia|].
  destruct (cell_lookup (bits st) (idx `quot` 8)) as [c ->]; [qlia|].
  destruct (Z.ltb_spec (idx `rem` 8) 0); [qlia|].
  by eexists.
Qed.

(** For a location that passes the checks, [bitmap_get_item] answers
    whether the byte that holds its bit is not 0. *)
Lemma addressable_probe st page item :
  addressable st page item ->
  exists idx c,
    index_of (offsets st) page item = Some idx /\
    cell (bits st) (idx `quot` 8) = Some c /\
    item_probe st page item = inr (negb (c =? 0)).
Proof.
  intros (idx & count & Hidx & Hpg & Hi0 & Hnb & Hlen & Hc & Hit).
  destruct (cell_lookup (bits st) (idx `quot` 8)) as [c Hcell]; [qlia|].
  exists idx, c. split; [done|]. split; [done|].
  unfold item_probe. rewrite Hidx.
  destruct (Z.leb_spec (npages (hdr st)) page); [lia|].
  destruct (Z.ltb_spec (nbytes (hdr st)) (idx `quot` 8)); [lia|].
  rewrite Hc. destruct (Z.leb_spec count item); [lia|].
  rewrite Hcell.
  destruct (Z.eqb_spec c 0); [done|].
  destruct (Z.ltb_spec (idx `rem` 8) 0); [qlia|].
  assert (0 <= idx `rem` 8 < 8) as Hr by qlia.
  rewrite shl1_value by done.
  assert (0 < 2 ^ (idx `rem` 8)) by (apply Z.pow_pos_nonneg; lia).
  destruct (Z.eqb_spec (2 ^ (idx `rem` 8)) 0); [lia|done].
Qed.

(** X20: for a location that passes the checks, [bitmap_get_item] returns
    whether the byte that holds the bit of the location is not 0: true when
    any bit of that byte is set. *)
Lemma bitmap_get_item_answers_for_byte h bm st page item :
  view h bm = Some st ->
  addressable st page item ->
  exists idx c,
    index_of (offsets st) page item = Some idx /\
    cell (bits st) (idx `quot` 8) = Some c /\
    bitmap_get_item bm page item h = Ok (negb (c =? 0)) h.
Proof.
  intros Hv (idx & c & Hidx & Hc & Hp)%addressable_probe.
  exists idx, c. split; [done|]. split; [done|].
  by rewrite (bitmap_get_item_run _ _ _ _ _ Hv), Hp.
Qed.

Lemma item_update_layout st page item state r dt :
  item_update st page item state = inr (r, dt) ->
  same_layout st (with_bits st dt).
Proof.
  intros Hup. unfold same_layout. fields. split; [done|]. split; [done|].
  destruct r.
  - apply item_update_true in Hup as (idx & count & c & _ & _ & _ & _ & _ & _ & _ & ->).
    apply set_cell_length.
  - by apply item_update_false in Hup as ->.
Qed.

Lemma index_pass_run h bm st header raw_page item nerrs :
  view h bm = Some st ->
  index_pass bm header raw_page item nerrs h
  = match item_update st (fst (index_target header raw_page item))
                         (snd (index_target header raw_page item)) true with
    | inr (r, dt) => Ok (count_failure nerrs r) (heap_set h (data (hdr st)) (Chars dt))
    | inl f => Stuck f
    end.
Proof.
  intros Hv. unfold index_pass.
  rewrite bind_run, (bitmap_set_item_run _ _ _ _ _ _ Hv).
  by destruct (item_update st _ _ true) as [f|[r dt]].
Qed.



(** ** Loops that leave the store as it is *)

Lemma for_loop_pure {St : Type} (body : Z -> St -> M St) (f : Z -> St -> St)
    (n : nat) (lo : Z) (s : St) (h : heap) :
  (forall i s, lo <= i < lo + Z.of_nat n -> body i s h = Ok (f i s) h) ->
  for_loop n lo body s h
  = Ok (foldl (fun s i => f i s) s (seqZ lo (Z.of_nat n))) h.
Proof.
  revert lo s. induction n as [|n IH]; intros lo s Hbody.
  - by rewrite seqZ_nil.
  - rewrite seqZ_cons by lia. cbn [for_loop foldl].
    rewrite bind_run, Hbody by lia.
    replace (Z.pred (Z.of_nat (S n))) with (Z.of_nat n) by lia.
    apply IH. intros i s' Hi. apply Hbody. lia.
Qed.

Lemma for_pure {St : Type} (body : Z -> St -> M St) (f : Z -> St -> St)
    (lo hi : Z) (s : St) (h : heap) :
  (forall i s, lo <= i < hi -> body i s h = Ok (f i s) h) ->
  for_ lo hi body s h = Ok (foldl (fun s i => f i s) s (seqZ lo (hi - lo))) h.
Proof.
  intros Hbody. unfold for_. rewrite (for_loop_pure body f).
  - unfold seqZ. by rewrite Nat2Z.id.
  - intros i s' Hi. apply Hbody. lia.
Qed.

Lemma foldl_count (p : Z -> bool) (l : list Z) (s : Z) :
  foldl (fun s j => if p j then s + 1 else s) s l
  = s + Z.of_nat (length (List.filter p l)).
Proof.
  revert s. induction l as [|j l IH]; intros s; cbn [foldl List.filter].
  - simpl. lia.
  - rewrite IH. destruct (p j); cbn [length]; lia.
Qed.

Lemma land_pow2 d j : 0 <= j -> negb (Z.land d (2 ^ j) =? 0) = Z.testbit d j.
Proof.
  intros Hj.
  assert (Z.land d (2 ^ j) = if Z.testbit d j then 2 ^ j else 0) as ->.
  { apply Z.bits_inj'. intros n Hn.
    rewrite Z.land_spec, Z.pow2_bits_eqb by done.
    destruct (Z.eqb_spec j n) as [->|Hne].
    - destruct (Z.testbit d n); [|by rewrite Z.bits_0].
      by rewrite Z.pow2_bits_eqb, Z.eqb_refl.
    - rewrite andb_false_r.
      destruct (Z.testbit d j); [|by rewrite Z.bits_0].
      rewrite Z.pow2_bits_eqb by done. by destruct (Z.eqb_spec j n).
  }
  assert (0 < 2 ^ j) by (apply Z.pow_pos_nonneg; lia).
  destruct (Z.testbit d j); [|done].
  by destruct (Z.eqb_spec (2 ^ j) 0); [lia|].
Qed.

(** The inner loop of [bitmap_count] and [bitmap_compare]. *)
Lemma count_bits_run diff ndiff h :
  for_ 0 8 (fun j ndiff =>
      m ← shl1 j;
      if negb (Z.land diff m =? 0) then ret (ndiff + 1) else ret ndiff) ndiff h
  = Ok (ndiff + byte_weight diff) h.
Proof.
  rewrite (for_pure _ (fun j s => if Z.testbit diff j then s + 1 else s)).
  - by rewrite foldl_count.
  - intros j s Hj. rewrite bind_run, shl1_run.
    destruct (Z.ltb_spec j 0); [lia|].
    rewrite shl1_value, land_pow2 by lia.
    by destruct (Z.testbit diff j).
Qed.

Lemma byte_weight_0 : byte_weight 0 = 0.
Proof. reflexivity. Qed.

(** ** [bitmap_compare] *)

Lemma filter_map_length {A B} (p : B -> bool) (f : A -> B) (l : list A) :
  length (List.filter p (map f l)) = length (List.filter (fun a => p (f a)) l).
Proof.
  induction l as [|a l IH]; [done|]. cbn [map List.filter].
  destruct (p (f a)); cbn [length]; by rewrite IH.
Qed.

Lemma differ_byte da db i x y :
  cell da i = Some x -> cell db i = Some y ->
  Z.of_nat (length (List.filter (differ da db) (seqZ (8 * i) 8)))
  = byte_weight (to_char (Z.lxor x y)).
Proof.
  intros Hx Hy. apply cell_Some in Hx as Hi.
  replace (8 * i) with (8 * i + 0) by lia.
  rewrite <- fmap_add_seqZ. unfold byte_weight.
  change (Z.add (8 * i) <$> seqZ 0 8) with (map (Z.add (8 * i)) (seqZ 0 8)).
  rewrite filter_map_length. do 2 f_equal.
  apply List.filter_ext_in. intros j Hj.
  apply list_elem_of_In, elem_of_seqZ in Hj.
  unfold differ, bit_at.
  assert ((8 * i + j) `quot` 8 = i) as -> by qlia.
  assert ((8 * i + j) `rem` 8 = j) as -> by qlia.
  rewrite Hx, Hy, to_char_testbit, Z.lxor_spec by lia. done.
Qed.

(** A count over bit positions, taken byte by byte. *)
Lemma bytewise_count (p : Z -> bool) (w : Z -> Z) (n : nat) :
  (forall i, 0 <= i < Z.of_nat n ->
     Z.of_nat (length (List.filter p (seqZ (8 * i) 8))) = w i) ->
  foldl (fun s i => s + w i) 0 (seqZ 0 (Z.of_nat n))
  = Z.of_nat (length (List.filter p (seqZ 0 (8 * Z.of_nat n)))).
Proof.
  induction n as [|n IH]; intros Hw; [done|].
  rewrite seqZ_S, foldl_app. cbn [foldl]. rewrite IH by (intros i Hi; apply Hw; lia).
  replace (8 * Z.of_nat (S n)) with (8 * Z.of_nat n + 8) by lia.
  rewrite seqZ_app, List.filter_app, length_app, Nat2Z.inj_add by lia.
  rewrite !Z.add_0_l, Hw by lia. done.
Qed.

Lemma diff_sum_differing da db (n : nat) :
  Z.of_nat n <= Z.of_nat (length da) -> Z.of_nat n <= Z.of_nat (length db) ->
  foldl (fun s i => s + byte_weight (to_char (Z.lxor (default 0 (cell da i))
                                                     (default 0 (cell db i)))))
        0 (seqZ 0 (Z.of_nat n))
  = differing_bits da db (Z.of_nat n).
Proof.
  intros Ha Hb. unfold differing_bits. apply bytewise_count. intros i Hi.
  destruct (cell_lookup da i) as [x Hx]; [lia|].
  destruct (cell_lookup db i) as [y Hy]; [lia|].
  by rewrite (differ_byte da db _ x y Hx Hy), Hx, Hy.
Qed.

Lemma differ_comm da db idx : differ da db idx = differ db da idx.
Proof.
  unfold differ. destruct (bit_at da idx), (bit_at db idx); try done.
  apply xorb_comm.
Qed.

Lemma differing_bits_comm da db n : differing_bits da db n = differing_bits db da n.
Proof.
  unfold differing_bits. do 2 f_equal.
  apply List.filter_ext. intros idx. apply differ_comm.
Qed.

Lemma differ_same da idx : differ da da idx = false.
Proof. unfold differ. destruct (bit_at da idx); [apply xorb_nilpotent|done]. Qed.

Lemma differing_bits_same da n : differing_bits da da n = 0.
Proof.
  unfold differing_bits.
  rewrite (List.filter_ext _ (fun _ => false) (differ_same da)).
  induction (seqZ 0 (8 * n)) as [|i l IH]; done.
Qed.

(** ** [bitmap_count] *)

Lemma set_byte dt i c :
  cell dt i = Some c ->
  Z.of_nat (length (List.filter (is_set dt) (seqZ (8 * i) 8))) = byte_weight c.
Proof.
  intros Hc. apply cell_Some in Hc as Hi.
  replace (8 * i) with (8 * i + 0) by lia.
  rewrite <- fmap_add_seqZ. unfold byte_weight.
  change (Z.add (8 * i) <$> seqZ 0 8) with (map (Z.add (8 * i)) (seqZ 0 8)).
  rewrite filter_map_length. do 2 f_equal.
  apply List.filter_ext_in. intros j Hj.
  apply list_elem_of_In, elem_of_seqZ in Hj.
  unfold is_set, bit_at.
  assert ((8 * i + j) `quot` 8 = i) as -> by qlia.
  assert ((8 * i + j) `rem` 8 = j) as -> by qlia.
  by rewrite Hc.
Qed.

(** [bitmap_count] returns the number of bits set in the [nbytes] bytes in
    use; unlike [bitmap_get_item], it tests each bit by itself. *)
Lemma bitmap_count_run h bm st :
  view h bm = Some st ->
  nbytes (hdr st) <= Z.of_nat (length (bits st)) ->
  bitmap_count bm h = Ok (set_bits (bits st) (nbytes (hdr st))) h.
Proof.
  intros (Hs & Hp & Hd)%view_Some Hn.
  unfold bitmap_count. rewrite bind_run, (get_run _ _ _ Hs).
  rewrite (for_pure _ (fun i s => s + byte_weight (default 0 (cell (bits st) i)))).
  - f_equal. rewrite Z.sub_0_r. unfold set_bits.
    destruct (Z.le_gt_cases 0 (nbytes (hdr st))) as [Hpos|Hneg].
    + rewrite <- (Z2Nat.id (nbytes (hdr st))) by done.
      apply bytewise_count. intros i Hi.
      destruct (cell_lookup (bits st) i) as [c Hc]; [lia|].
      by rewrite (set_byte _ _ c Hc), Hc.
    + by rewrite !seqZ_nil by lia.
  - intros i s Hi.
    destruct (cell_lookup (bits st) i) as [c Hc]; [lia|].
    rewrite Hc. cbn [default from_option id].
    rewrite (for_pure _ (fun j s => if Z.testbit c j then s + 1 else s)).
    + by rewrite foldl_count.
    + intros j s' Hj.
      rewrite bind_run, (load_char_run _ _ _ _ Hd), Hc.
      rewrite bind_run, shl1_run.
      destruct (Z.ltb_spec j 0); [lia|].
      rewrite shl1_value, land_pow2 by lia.
      by destruct (Z.testbit c j).
Qed.

(** The page counts differ: the larger of the two last offsets. *)
Lemma bitmap_compare_mismatch h a b sa sb :
  view h a = Some sa -> view h b = Some sb ->
  npages (hdr sa) <> npages (hdr sb) ->
  bitmap_compare a b h
  = match cell (offsets sa) (to_int (npages (hdr sa) - 1)) with
    | Some last_a =>
        match cell (offsets sb) (to_int (npages (hdr sb) - 1)) with
        | Some last_b => Ok (Z.max last_a last_b) h
        | None => Stuck OutOfBounds
        end
    | None => Stuck OutOfBounds
    end.
Proof.
  intros (Hs & Hp & Hd)%view_Some (Hs' & Hp' & Hd')%view_Some Hne.
  unfold bitmap_compare.
  rewrite bind_run, (get_run _ _ _ Hs), bind_run, (get_run _ _ _ Hs').
  destruct (Z.eqb_spec (npages (hdr sa)) (npages (hdr sb))); [done|].
  cbn [negb].
  rewrite bind_run, (load_int_run _ _ _ _ Hp).
  destruct (cell (offsets sa) _); [|done].
  rewrite bind_run, (load_int_run _ _ _ _ Hp').
  by destruct (cell (offsets sb) _).
Qed.

(** The page counts are equal: the number of bits that differ in the
    first [nbytes] bytes of the first bitmap. *)
Lemma bitmap_compare_same h a b sa sb last_a last_b :
  view h a = Some sa -> view h b = Some sb ->
  npages (hdr sa) = npages (hdr sb) ->
  cell (offsets sa) (to_int (npages (hdr sa) - 1)) = Some last_a ->
  cell (offsets sb) (to_int (npages (hdr sb) - 1)) = Some last_b ->
  nbytes (hdr sa) <= Z.of_nat (length (bits sa)) ->
  nbytes (hdr sa) <= Z.of_nat (length (bits sb)) ->
  bitmap_compare a b h
  = Ok (differing_bits (bits sa) (bits sb) (nbytes (hdr sa))) h.
Proof.
  intros (Hs & Hp & Hd)%view_Some (Hs' & Hp' & Hd')%view_Some Hnp Hla Hlb Hna Hnb.
  unfold bitmap_compare.
  rewrite bind_run, (get_run _ _ _ Hs), bind_run, (get_run _ _ _ Hs').
  destruct (Z.eqb_spec (npages (hdr sa)) (npages (hdr sb))); [|done].
  cbn [negb].
  rewrite bind_run, (load_int_run _ _ _ _ Hp), Hla.
  rewrite bind_run, (load_int_run _ _ _ _ Hp'), Hlb.
  rewrite (for_pure _
    (fun i s => s + byte_weight (to_char (Z.lxor (default 0 (cell (bits sa) i))
                                                 (default 0 (cell (bits sb) i)))))).
  - f_equal. rewrite Z.sub_0_r.
    destruct (Z.le_gt_cases 0 (nbytes (hdr sa))) as [Hpos|Hneg].
    + rewrite <- (Z2Nat.id (nbytes (hdr sa))) by done.
      apply diff_sum_differing; lia.
    + unfold differing_bits. by rewrite !seqZ_nil by lia.
  - intros i s Hi.
    destruct (cell_lookup (bits sa) i) as [x Hx]; [lia|].
    destruct (cell_lookup (bits sb) i) as [y Hy]; [lia|].
    rewrite bind_run, (load_char_run _ _ _ _ Hd), Hx.
    rewrite bind_run, (load_char_run _ _ _ _ Hd'), Hy. cbn [default from_option id].
    destruct (Z.eqb_spec (to_char (Z.lxor x y)) 0) as [E|Hne]; cbn [negb].
    + rewrite E, byte_weight_0, Z.add_0_r. done.
    + apply count_bits_run.
Qed.

Lemma last_offset st :
  sized st -> 1 <= npages (hdr st) ->
  exists last,
    to_int (npages (hdr st) - 1) = npages (hdr st) - 1 /\
    cell (offsets st) (npages (hdr st) - 1) = Some last.
Proof.
  intros (Hnp & Hlp & _) H1.
  destruct (cell_lookup (offsets st) (npages (hdr st) - 1)) as [last Hl]; [lia|].
  exists last. split; [|done]. apply to_int_id. zlia.
Qed.

Lemma no_last_offset st :
  sized st -> npages (hdr st) = 0 ->
  cell (offsets st) (to_int (npages (hdr st) - 1)) = None.
Proof. intros _ ->. done. Qed.

(** C7, as amended: for two bitmaps that track at least one page each and
    whose byte counts are within their capacities, [bitmap_compare] gives
    the same number in both directions when the page counts differ or the
    byte counts are equal; a bitmap compared with itself gives 0; and for
    two bitmaps with the same page layout it gives the number of bit
    positions, among those of the [nbytes] bytes in use, at which the two
    differ. *)
Theorem compare_counts_differing_bits (h : heap) (a b : ptr) (sa sb : bitmap_state) :
  view h a = Some sa -> view h b = Some sb ->
  sized sa -> sized sb ->
  1 <= npages (hdr sa) -> 1 <= npages (hdr sb) ->
  nbytes (hdr sa) <= maxBytes (hdr sa) -> nbytes (hdr sb) <= maxBytes (hdr sb) ->
  (npages (hdr sa) <> npages (hdr sb) \/ nbytes (hdr sa) = nbytes (hdr sb) ->
     exists k, bitmap_compare a b h = Ok k h /\ bitmap_compare b a h = Ok k h) /\
  bitmap_compare a a h = Ok 0 h /\
  (npages (hdr sa) = npages (hdr sb) -> offsets sa = offsets sb ->
   nbytes (hdr sa) = nbytes (hdr sb) ->
     bitmap_compare a b h
     = Ok (differing_bits (bits sa) (bits sb) (nbytes (hdr sa))) h).
Proof.
  intros Hva Hvb Hsa Hsb Hna Hnb Hfa Hfb.
  destruct (last_offset sa Hsa Hna) as (la & Hia & Hla).
  destruct (last_offset sb Hsb Hnb) as (lb & Hib & Hlb).
  rewrite <- Hia in Hla. rewrite <- Hib in Hlb.
  pose proof Hsa as (_ & _ & _ & Hlena). pose proof Hsb as (_ & _ & _ & Hlenb).
  assert (npages (hdr sa) = npages (hdr sb) -> nbytes (hdr sa) = nbytes (hdr sb) ->
          bitmap_compare a b h
          = Ok (differing_bits (bits sa) (bits sb) (nbytes (hdr sa))) h) as Hsame.
  { intros Hnp Hnbytes.
    apply (bitmap_compare_same h a b sa sb la lb); try done; lia. }
  split; [|split].
  - intros [Hne|Heq].
    + exists (Z.max la lb). split.
      * by rewrite (bitmap_compare_mismatch h a b sa sb), Hla, Hlb.
      * rewrite (bitmap_compare_mismatch h b a sb sa), Hla, Hlb by done.
        by rewrite Z.max_comm.
    + destruct (decide (npages (hdr sa) = npages (hdr sb))) as [Hnp|Hne].
      * exists (differing_bits (bits sa) (bits sb) (nbytes (hdr sa))).
        split; [by apply Hsame|].
        rewrite (bitmap_compare_same h b a sb sa lb la) by (try done; lia).
        by rewrite differing_bits_comm, Heq.
      * exists (Z.max la lb). split.
        -- by rewrite (bitmap_compare_mismatch h a b sa sb), Hla, Hlb.
        -- rewrite (bitmap_compare_mismatch h b a sb sa), Hla, Hlb by done.
           by rewrite Z.max_comm.
  - rewrite (bitmap_compare_same h a a sa sa la la) by (try done; lia).
    by rewrite differing_bits_same.
  - intros Hnp _ Hnbytes. by apply Hsame.
Qed.

(** C10: when the page counts of its two arguments differ, [bitmap_compare]
    reads the last entry of each offset table, the one at [npages - 1], and
    returns the larger of the two. The read is inside the table when both
    bitmaps track at least one page; for a bitmap of no page it is outside
    the table. *)
Theorem compare_reads_last_offsets (h : heap) (a b : ptr) (sa sb : bitmap_state) :
  view h a = Some sa -> view h b = Some sb ->
  sized sa -> sized sb ->
  npages (hdr sa) <> npages (hdr sb) ->
  (1 <= npages (hdr sa) -> 1 <= npages (hdr sb) ->
     exists last_a last_b,
       cell (offsets sa) (npages (hdr sa) - 1) = Some last_a /\
       cell (offsets sb) (npages (hdr sb) - 1) = Some last_b /\
       bitmap_compare a b h = Ok (Z.max last_a last_b) h) /\
  (npages (hdr sa) = 0 \/ npages (hdr sb) = 0 ->
     bitmap_compare a b h = Stuck OutOfBounds).
Proof.
  intros Hva Hvb Hsa Hsb Hne.
  rewrite (bitmap_compare_mismatch h a b sa sb) by done.
  split.
  - intros Hna Hnb.
    destruct (last_offset sa Hsa Hna) as (la & Hia & Hla).
    destruct (last_offset sb Hsb Hnb) as (lb & Hib & Hlb).
    exists la, lb. by rewrite Hia, Hib, Hla, Hlb.
  - intros [H0|H0].
    + by rewrite (no_last_offset sa Hsa H0).
    + rewrite (no_last_offset sb Hsb H0). by destruct (cell (offsets sa) _).
Qed.

(** ** Runs that register the pages in order *)

(** A call of [bitmap_add_page] that returns had its assertions hold. *)
Lemma bitmap_add_page_asserts h bm st page items h' :
  view h bm = Some st ->
  bitmap_add_page bm page items h = Ok tt h' ->
  0 <= page < npages (hdr st) /\ 0 <= items <= MaxHeapTuplesPerPage.
Proof.
  intros (Hs & _)%view_Some. unfold bitmap_add_page.
  rewrite bind_run. destruct (Z.leb_spec 0 page); [|done]. cbn [assert ret].
  rewrite bind_run, (get_run _ _ _ Hs).
  rewrite bind_run. destruct (Z.ltb_spec page (npages (hdr st))); [|done]. cbn [assert ret].
  rewrite bind_run. destruct (Z.leb_spec 0 items); [|done]. cbn [assert ret].
  rewrite bind_run. destruct (Z.leb_spec items MaxHeapTuplesPerPage); [|done].
  intros _. lia.
Qed.

Lemma bitmap_init_asserts N h bm h' : bitmap_init N h = Ok bm h' -> 0 <= N.
Proof.
  unfold bitmap_init. rewrite bind_run.
  destruct (Z.leb_spec 0 N); [done|]. discriminate.
Qed.

(** What every run in order keeps: the buffers have their sizes, and the
    byte count is the one of the last page and fits the capacity. *)
Lemma in_order_invariant N bm k h :
  MaxHeapTuplesPerPage <= 8 * PALLOC_CHUNK ->
  N <= INT_MAX ->
  in_order N bm k h ->
  exists st, view h bm = Some st /\ sized st /\ tidy st k /\ npages (hdr st) = N.
Proof.
  intros Hmax HN Hrun.
  induction Hrun as [h0 h Hinit|k h items h' _ IH Hadd|k h page item state r h' _ IH Hset].
  - pose proof (bitmap_init_asserts _ _ _ _ Hinit) as H0.
    destruct (bitmap_init_run h0 N) as (h1 & Hrun1 & Hv1 & _); [lia|].
    rewrite Hinit in Hrun1. injection Hrun1 as -> ->.
    eexists. split; [exact Hv1|].
    split; [apply initial_state_sized; lia|].
    pose proof (initial_capacity_bounds N ltac:(lia)).
    split; [|done]. unfold tidy, initial_state. fields. zlia.
  - destruct IH as (st & Hv & Hsz & Htidy & Hnp).
    destruct (bitmap_add_page_asserts _ _ _ _ _ _ Hv Hadd) as (Hpage & Hitems).
    destruct (bitmap_add_page_run h bm st (Z.of_nat k) items Hv Hsz Hpage Hitems)
      as (t & h2 & Ht & Hrun2 & Hv2 & _).
    rewrite Hadd in Hrun2. injection Hrun2 as ->.
    eexists. split; [exact Hv2|].
    split; [by apply registered_sized|].
    split; [apply (tidy_kept st k items t); (done || lia)|].
    by rewrite registered_npages.
  - destruct IH as (st & Hv & Hsz & Htidy & Hnp).
    rewrite (bitmap_set_item_run _ _ _ _ _ _ Hv) in Hset.
    destruct (item_update st page item state) as [f|[r' dt]] eqn:Hup; [done|].
    injection Hset as -> <-.
    destruct (item_update_layout _ _ _ _ _ _ Hup) as (_ & _ & Hlen).
    exists (with_bits st dt). split; [by apply view_heap_set_bits|].
    unfold with_bits, sized, tidy in *. fields. fields in Hlen.
    rewrite Hlen. done.
Qed.

(** C5: in every run that starts with [bitmap_init] and registers the pages
    in order, each with a count up to the most a page can hold - with bits
    set and cleared at will in between - [nbytes] is at most [maxBytes]
    after each call; a call of [bitmap_add_page] leaves [maxBytes] as it is
    or adds one chunk to it; and the bit buffer after the call is the
    buffer before it, followed by zeroes for what was added. One chunk has
    the bits for a page, as the source says of [PALLOC_CHUNK]. *)
Theorem add_page_grows_by_chunks (N : Z) (bitmap : ptr) (k : nat) (h : heap) :
  MaxHeapTuplesPerPage <= 8 * PALLOC_CHUNK ->
  N <= INT_MAX ->
  in_order N bitmap k h ->
  exists st,
    view h bitmap = Some st /\
    nbytes (hdr st) <= maxBytes (hdr st) /\
    Z.of_nat (length (bits st)) = maxBytes (hdr st) /\
    forall items,
      Z.of_nat k < N -> 0 <= items <= MaxHeapTuplesPerPage ->
      exists h' st',
        bitmap_add_page bitmap (Z.of_nat k) items h = Ok tt h' /\
        view h' bitmap = Some st' /\
        nbytes (hdr st') <= maxBytes (hdr st') /\
        exists g, 0 <= g <= 1 /\
          maxBytes (hdr st') = maxBytes (hdr st) + g * PALLOC_CHUNK /\
          bits st' = bits st ++ replicate (Z.to_nat (g * PALLOC_CHUNK)) 0.
Proof.
  intros Hmax HN Hrun.
  destruct (in_order_invariant N bitmap k h Hmax HN Hrun) as (st & Hv & Hsz & Htidy & Hnp).
  exists st. split; [done|].
  split; [by destruct Htidy|].
  split; [by destruct Hsz as (_ & _ & _ & ?)|].
  intros items Hk Hitems.
  destruct (bitmap_add_page_run h bitmap st (Z.of_nat k) items)
    as (t & h' & Ht & Hadd & Hv' & _); [done|done|lia|done|].
  pose proof (tidy_kept st k items t (S (length h)) Hmax Hitems Hsz ltac:(lia) Htidy Ht)
    as (Hfit' & _).
  exists h', (registered st (Z.of_nat k) t (S (length h))).
  split; [done|]. split; [done|]. split; [done|].
  apply registered_growth. destruct Hsz as (_ & _ & ? & _). lia.
Qed.

(** ** Two bitmaps in one store *)

(** A bitmap whose three blocks were left alone is as it was. *)
Lemma view_frame h h' bm st x y z :
  view h bm = Some st ->
  (forall p c, chunk_at h p = Some c -> p <> x -> p <> y -> p <> z ->
     chunk_at h' p = Some c) ->
  bm <> x -> bm <> y -> bm <> z ->
  pages (hdr st) <> x -> pages (hdr st) <> y -> pages (hdr st) <> z ->
  data (hdr st) <> x -> data (hdr st) <> y -> data (hdr st) <> z ->
  view h' bm = Some st.
Proof.
  rewrite !view_Some. intros (Hs & Hp & Hd) Hframe ? ? ? ? ? ? ? ? ?.
  split; [|split]; by apply Hframe.
Qed.

Lemma bitmap_set_item_frame h a b sa sb page item state r h' :
  view h a = Some sa -> view h b = Some sb ->
  data (hdr sa) <> data (hdr sb) ->
  bitmap_set_item a page item state h = Ok r h' ->
  view h' b = Some sb.
Proof.
  intros Hva Hvb Hne. rewrite (bitmap_set_item_run _ _ _ _ _ _ Hva).
  destruct (item_update sa page item state) as [f|[r' dt]]; [done|].
  intros [= <- <-].
  pose proof Hva as (Hs & Hp & Hd)%view_Some.
  pose proof Hvb as (Hs' & Hp' & Hd')%view_Some.
  apply view_heap_set_other; [done|congruence..].
Qed.

Lemma bitmap_reset_frame h a b sa sb h' :
  view h a = Some sa -> view h b = Some sb ->
  data (hdr sa) <> data (hdr sb) ->
  bitmap_reset a h = Ok tt h' ->
  view h' b = Some sb.
Proof.
  intros Hva Hvb Hne.
  pose proof Hva as (Hs & Hp & Hd)%view_Some.
  pose proof Hvb as (Hs' & Hp' & Hd')%view_Some.
  unfold bitmap_reset. rewrite bind_run, (get_run _ _ _ Hs).
  unfold memset. rewrite Hd.
  destruct (_ && _); [|done]. intros [= <-].
  apply view_heap_set_other; [done|congruence..].
Qed.

Lemma bitmap_add_page_frame h a b sa sb page items h' :
  view h a = Some sa -> sized sa -> view h b = Some sb ->
  a <> b -> pages (hdr sa) <> pages (hdr sb) -> data (hdr sa) <> data (hdr sb) ->
  bitmap_add_page a page items h = Ok tt h' ->
  view h' b = Some sb.
Proof.
  intros Hva Hsz Hvb Hab Hpp Hdd Hrun.
  destruct (bitmap_add_page_asserts _ _ _ _ _ _ Hva Hrun) as (Hpage & Hitems).
  destruct (bitmap_add_page_run h a sa page items Hva Hsz Hpage Hitems)
    as (t & h2 & _ & Hrun2 & _ & Hframe & _).
  assert (h2 = h') as -> by congruence.
  pose proof Hva as (Hs & Hp & Hd)%view_Some.
  pose proof Hvb as (Hs' & Hp' & Hd')%view_Some.
  apply (view_frame h h' b sb a (pages (hdr sa)) (data (hdr sa))); try done;
    congruence.
Qed.

(** C8: [bitmap_copy] gives a bitmap with the page count, the offsets, the
    capacity and the byte count of its source, and a bit buffer of zeroes,
    whatever bits the source has set. It has blocks of its own: setting or
    clearing a bit, registering a page or resetting, in either bitmap,
    leaves the other as it was. *)
Theorem copy_is_separate (h : heap) (src : ptr) (st : bitmap_state) :
  view h src = Some st -> sized st ->
  exists dst h' st',
    bitmap_copy src h = Ok dst h' /\
    view h' dst = Some st' /\
    npages (hdr st') = npages (hdr st) /\
    offsets st' = offsets st /\
    maxBytes (hdr st') = maxBytes (hdr st) /\
    nbytes (hdr st') = nbytes (hdr st) /\
    bits st' = replicate (Z.to_nat (maxBytes (hdr st))) 0 /\
    view h' src = Some st /\
    dst <> src /\ pages (hdr st') <> pages (hdr st) /\ data (hdr st') <> data (hdr st) /\
    (forall page item state r h2,
       bitmap_set_item dst page item state h' = Ok r h2 -> view h2 src = Some st) /\
    (forall page item state r h2,
       bitmap_set_item src page item state h' = Ok r h2 -> view h2 dst = Some st') /\
    (forall page items h2,
       bitmap_add_page dst page items h' = Ok tt h2 -> view h2 src = Some st) /\
    (forall page items h2,
       bitmap_add_page src page items h' = Ok tt h2 -> view h2 dst = Some st') /\
    (forall h2, bitmap_reset dst h' = Ok tt h2 -> view h2 src = Some st) /\
    (forall h2, bitmap_reset src h' = Ok tt h2 -> view h2 dst = Some st').
Proof.
  intros Hv Hsz.
  destruct (bitmap_copy_run h src st Hv Hsz) as (h' & Hrun & Hv' & Hext & _).
  pose proof Hv as (Hs & Hp & Hd)%view_Some.
  assert (view h' src = Some st) as Hvs.
  { apply view_Some. auto. }
  set (dst := S (length h)) in *.
  set (st' := copied_state st (S dst) (S (S dst))) in *.
  assert (dst <> src /\ pages (hdr st') <> pages (hdr st)
          /\ data (hdr st') <> data (hdr st)) as (Hn1 & Hn2 & Hn3).
  { unfold st', copied_state, dst. fields.
    apply chunk_at_allocated in Hs, Hp, Hd. lia. }
  assert (sized st') as Hsz'.
  { destruct Hsz as (? & ? & ? & ?). unfold sized, st', copied_state. fields.
    rewrite length_replicate. lia. }
  exists dst, h', st'.
  repeat split; try done.
  - intros page item state r h2. by eapply bitmap_set_item_frame.
  - intros page item state r h2. by eapply bitmap_set_item_frame.
  - intros page items h2. by eapply (bitmap_add_page_frame h' dst src st' st).
  - intros page items h2. by eapply (bitmap_add_page_frame h' src dst st st').
  - intros h2. by eapply bitmap_reset_frame.
  - intros h2. by eapply bitmap_reset_frame.
Qed.

(** ** What the bounds checks reject *)

(** X19: a page at or past [npages], and an item at or past the cumulative
    count of its page, are rejected, by both accessors, and nothing changes -
    when the bit index could be computed. *)
Lemma out_of_range_rejected h bm st page item idx :
  view h bm = Some st ->
  index_of (offsets st) page item = Some idx ->
  (npages (hdr st) <= page \/
   exists count, cell (offsets st) page = Some count /\ count <= item) ->
  (forall state, bitmap_set_item bm page item state h = Ok false h) /\
  bitmap_get_item bm page item h = Ok false h.
Proof.
  intros Hv Hidx Hout. pose proof Hv as (_ & _ & Hd)%view_Some.
  assert (forall state, item_update st page item state = inr (false, bits st)) as Hup.
  { intros state. unfold item_update. rewrite Hidx.
    destruct (Z.leb_spec (npages (hdr st)) page); [done|].
    destruct (nbytes (hdr st) <? idx `quot` 8); [done|].
    destruct Hout as [?|(count & -> & Hc)]; [lia|].
    by destruct (Z.leb_spec count item); [|lia]. }
  assert (item_probe st page item = inr false) as Hpr.
  { unfold item_probe. rewrite Hidx.
    destruct (Z.leb_spec (npages (hdr st)) page); [done|].
    destruct (nbytes (hdr st) <? idx `quot` 8); [done|].
    destruct Hout as [?|(count & -> & Hc)]; [lia|].
    by destruct (Z.leb_spec count item); [|lia]. }
  split.
  - intros state.
    by rewrite (bitmap_set_item_run _ _ _ _ _ _ Hv), Hup, (heap_set_id _ _ _ Hd).
  - by rewrite (bitmap_get_item_run _ _ _ _ _ Hv), Hpr.
Qed.

(** For a page past [npages] the bit index is not computed: the entry of
    the page before it, which [GetBitmapIndex] reads first, is outside the
    offset table. *)
Lemma page_past_table_is_read h bm st page item state :
  view h bm = Some st -> sized st ->
  npages (hdr st) < page <= INT_MAX ->
  bitmap_set_item bm page item state h = Stuck OutOfBounds /\
  bitmap_get_item bm page item h = Stuck OutOfBounds.
Proof.
  intros Hv (Hnp & Hlp & _) Hpage.
  assert (index_of (offsets st) page item = None) as Hidx.
  { unfold index_of. destruct (Z.eqb_spec page 0); [lia|].
    rewrite to_int_id by zlia.
    destruct (cell (offsets st) (page - 1)) as [prev|] eqn:Hc; [|done].
    apply cell_Some in Hc. lia. }
  rewrite (bitmap_set_item_run _ _ _ _ _ _ Hv), (bitmap_get_item_run _ _ _ _ _ Hv).
  unfold item_update, item_probe. by rewrite Hidx.
Qed.

(** ** A new bitmap, and a bitmap that is reset *)

Lemma bit_at_zeroes m idx b : bit_at (replicate m 0) idx = Some b -> b = false.
Proof.
  unfold bit_at, cell.
  destruct (0 <=? idx `quot` 8); [|done].
  destruct (replicate m 0 !! Z.to_nat (idx `quot` 8)) as [c|] eqn:Hc; [|done].
  apply lookup_replicate in Hc as [-> _]. intros [= <-]. apply Z.bits_0.
Qed.

Lemma is_set_zeroes m idx : is_set (replicate m 0) idx = false.
Proof.
  unfold is_set. destruct (bit_at (replicate m 0) idx) as [b|] eqn:Hb; [|done].
  by apply bit_at_zeroes in Hb as ->.
Qed.

Lemma filter_none {A} (p : A -> bool) (l : list A) :
  (forall x, p x = false) -> List.filter p l = [].
Proof.
  intros Hp. induction l as [|x l IH]; [done|]. cbn [List.filter]. by rewrite Hp.
Qed.

Lemma set_bits_zeroes m n : set_bits (replicate m 0) n = 0.
Proof. unfold set_bits. by rewrite filter_none by apply is_set_zeroes. Qed.

Lemma set_bits_bounds dt n : 0 <= set_bits dt n <= 8 * Z.max 0 n.
Proof.
  unfold set_bits. split; [lia|].
  pose proof (List.filter_length_le (is_set dt) (seqZ 0 (8 * n))) as Hle.
  rewrite length_seqZ in Hle. lia.
Qed.

(** X1: [bitmap_init n], for [n] from 0 to [INT_MAX], returns a block that
    was no block before and leaves the blocks there were as they are. The
    bitmap it gives has [n] pages, no byte in use, a capacity of
    [n / 8192 + 1] chunks and a bit buffer of as many zeroes, so that
    [bitmap_count] is 0. For a negative [n] the assertion stops it. *)
Theorem init_gives_an_empty_bitmap (h : heap) (n : Z) :
  (0 <= n <= INT_MAX ->
   exists bitmap h' st,
     bitmap_init n h = Ok bitmap h' /\
     chunk_at h bitmap = None /\ extends h h' /\
     view h' bitmap = Some st /\ sized st /\
     npages (hdr st) = n /\ nbytes (hdr st) = 0 /\
     maxBytes (hdr st) = PALLOC_CHUNK * (n `quot` 8192 + 1) /\
     bits st = replicate (Z.to_nat (maxBytes (hdr st))) 0 /\
     bitmap_count bitmap h' = Ok 0 h') /\
  (n < 0 -> bitmap_init n h = Stuck AssertionFailed).
Proof.
  split.
  - intros Hn.
    destruct (bitmap_init_run h n Hn) as (h' & Hrun & Hv & Hext & _).
    eexists _, h', _. split; [exact Hrun|].
    split; [simpl; apply lookup_ge_None; lia|].
    split; [done|]. split; [exact Hv|].
    split; [by apply initial_state_sized|].
    unfold initial_state. fields.
    split; [done|]. split; [done|].
    split; [by apply initial_capacity_eq|]. split; [done|].
    rewrite (bitmap_count_run _ _ _ Hv) by (unfold initial_state; fields; lia).
    unfold initial_state. fields. by rewrite set_bits_zeroes.
  - intros Hn. unfold bitmap_init. rewrite bind_run.
    by destruct (Z.leb_spec 0 n); [lia|].
Qed.

Lemma bitmap_reset_run h bm st :
  view h bm = Some st -> sized st ->
  bitmap_reset bm h
  = Ok tt (heap_set h (data (hdr st))
             (Chars (replicate (Z.to_nat (maxBytes (hdr st))) 0))).
Proof.
  intros (Hs & Hp & Hd)%view_Some (_ & _ & Hmb & Hlb).
  unfold bitmap_reset. rewrite bind_run, (get_run _ _ _ Hs).
  unfold memset. rewrite Hd.
  replace ((0 <=? 0) && (0 <=? maxBytes (hdr st))
           && (0 + maxBytes (hdr st) <=? Z.of_nat (length (bits st)))) with true.
  2:{ symmetry. rewrite !andb_true_iff, !Z.leb_le. lia. }
  rewrite memset_whole by lia. done.
Qed.

Lemma item_probe_zeroes st m page item r :
  bits st = replicate m 0 -> item_probe st page item = inr r -> r = false.
Proof.
  intros Hb. unfold item_probe. rewrite Hb.
  destruct (index_of (offsets st) page item) as [idx|]; [|done].
  destruct (npages (hdr st) <=? page); [by intros [= <-]|].
  destruct (nbytes (hdr st) <? idx `quot` 8); [by intros [= <-]|].
  destruct (cell (offsets st) page) as [count|]; [|done].
  destruct (count <=? item); [by intros [= <-]|].
  destruct (cell (replicate m 0) (idx `quot` 8)) as [c|] eqn:Hc; [|done].
  assert (c = 0) as ->.
  { unfold cell in Hc. destruct (0 <=? idx `quot` 8); [|done].
    by apply lookup_replicate in Hc as [-> _]. }
  by intros [= <-].
Qed.

(** X2: [bitmap_reset], on a bitmap whose buffers have the sizes that the
    struct records, clears all the [maxBytes] bytes of the bit buffer and
    changes no other block: the struct and the offsets are kept. After it
    [bitmap_count] is 0 when the byte count is within the capacity,
    [bitmap_get_item] returns false whenever it returns, and a second reset
    changes nothing. *)
Theorem reset_clears_every_bit (h : heap) (bitmap : ptr) (st : bitmap_state) :
  view h bitmap = Some st -> sized st ->
  exists h',
    bitmap_reset bitmap h = Ok tt h' /\
    view h' bitmap
    = Some (with_bits st (replicate (Z.to_nat (maxBytes (hdr st))) 0)) /\
    (forall p c, chunk_at h p = Some c -> p <> data (hdr st) -> chunk_at h' p = Some c) /\
    (nbytes (hdr st) <= maxBytes (hdr st) -> bitmap_count bitmap h' = Ok 0 h') /\
    (forall page item r h2, bitmap_get_item bitmap page item h' = Ok r h2 -> r = false) /\
    bitmap_reset bitmap h' = Ok tt h'.
Proof.
  intros Hv Hsz. pose proof Hv as (Hs & Hp & Hd)%view_Some.
  pose proof Hsz as (Hnp & Hlp & Hmb & Hlb).
  set (zs := replicate (Z.to_nat (maxBytes (hdr st))) 0).
  pose proof (view_heap_set_bits h bitmap st zs Hv) as Hv'.
  exists (heap_set h (data (hdr st)) (Chars zs)).
  split; [by apply bitmap_reset_run|]. split; [done|]. split; [|split; [|split]].
  - intros p c Hc Hne. by rewrite chunk_at_heap_set_ne.
  - intros Hfit. rewrite (bitmap_count_run _ _ _ Hv'); fields.
    + unfold zs. by rewrite set_bits_zeroes.
    + unfold zs. rewrite length_replicate. lia.
  - intros page item r h2. rewrite (bitmap_get_item_run _ _ _ _ _ Hv').
    destruct (item_probe _ page item) as [f|r'] eqn:Hpr; [done|].
    intros [= <- _].
    by apply (item_probe_zeroes (with_bits st zs) (Z.to_nat (maxBytes (hdr st)))
                page item r').
  - rewrite (bitmap_reset_run _ _ _ Hv'); fields.
    + fold zs. f_equal. apply heap_set_id, chunk_at_heap_set_same. by eexists.
    + unfold sized, zs. fields. rewrite length_replicate. lia.
Qed.

(** ** One bit at a time *)

Lemma item_update_addressable st page item state dt :
  item_update st page item state = inr (true, dt) -> addressable st page item.
Proof.
  intros (idx & count & c & Hidx & Hpg & Hnb & Hc & Hit & Hcl & Hr & _)%item_update_true.
  apply cell_Some in Hcl as Hq.
  exists idx, count. repeat split; try done; qlia.
Qed.

(** X3: a call of [bitmap_set_item] that returns keeps the layout of the
    bitmap and writes to the bit buffer only. It returns true exactly when
    the location passes the checks with its byte inside the buffer
    ([addressable]); the bit of the location has the requested state then,
    and every other bit is as before. When it returns false, the store is as
    before. *)
Theorem set_item_changes_one_bit (h : heap) (bitmap : ptr) (st : bitmap_state)
    (page item : Z) (state r : bool) (h' : heap) :
  view h bitmap = Some st ->
  bitmap_set_item bitmap page item state h = Ok r h' ->
  exists st' idx,
    view h' bitmap = Some st' /\ same_layout st st' /\
    index_of (offsets st) page item = Some idx /\
    (r = true <-> addressable st page item) /\
    (r = true -> bit_at (bits st') idx = Some state /\
                 item_bit st' page item = Some state) /\
    (forall idx', idx' <> idx -> bit_at (bits st') idx' = bit_at (bits st) idx') /\
    (r = false -> h' = h) /\
    (forall p c, chunk_at h p = Some c -> p <> data (hdr st) -> chunk_at h' p = Some c).
Proof.
  intros Hv. pose proof Hv as (Hs & Hp & Hd)%view_Some.
  rewrite (bitmap_set_item_run _ _ _ _ _ _ Hv).
  destruct (item_update st page item state) as [f|[r' dt]] eqn:Hup; [done|].
  intros [= -> <-].
  assert (exists idx, index_of (offsets st) page item = Some idx) as [idx Hidx].
  { unfold item_update in Hup.
    destruct (index_of (offsets st) page item); [by eexists|done]. }
  exists (with_bits st dt), idx.
  split; [by apply view_heap_set_bits|].
  split; [by eapply item_update_layout|].
  split; [done|].
  destruct r.
  - destruct (item_update_bits _ _ _ _ _ idx Hup Hidx) as (Hbit & Hother & _).
    split; [split; [intros _; by eapply item_update_addressable|done]|].
    split.
    { intros _. split; [done|]. unfold item_bit. fields. by rewrite Hidx. }
    split; [done|]. split; [done|].
    intros p c Hc Hne. by rewrite chunk_at_heap_set_ne.
  - pose proof (item_update_false _ _ _ _ _ Hup) as ->.
    split.
    { split; [done|]. intros Ha.
      destruct (addressable_update _ _ _ state Ha) as (dt' & Hup'). congruence. }
    split; [done|]. split; [done|].
    split; [intros _; by apply heap_set_id|].
    intros p c Hc Hne. by rewrite chunk_at_heap_set_ne.
Qed.

(** X4: an item that was set is read as set: after [bitmap_set_item] with
    [true] has returned true, [bitmap_get_item] returns true for the same
    location. *)
Theorem set_then_get (h : heap) (bitmap : ptr) (st : bitmap_state)
    (page item : Z) (h' : heap) :
  view h bitmap = Some st ->
  bitmap_set_item bitmap page item true h = Ok true h' ->
  bitmap_get_item bitmap page item h' = Ok true h'.
Proof.
  intros Hv. rewrite (bitmap_set_item_run _ _ _ _ _ _ Hv).
  destruct (item_update st page item true) as [f|[r' dt]] eqn:Hup; [done|].
  intros [= -> <-].
  pose proof (view_heap_set_bits h bitmap st dt Hv) as Hv'.
  pose proof (item_update_addressable _ _ _ _ _ Hup) as Ha.
  pose proof (item_update_layout _ _ _ _ _ _ Hup) as Hlay.
  apply (addressable_same_layout _ _ _ _ Hlay) in Ha.
  destruct (addressable_probe _ _ _ Ha) as (idx & c & Hidx & Hc & Hpr).
  rewrite (bitmap_get_item_run _ _ _ _ _ Hv'), Hpr.
  fields in Hidx. fields in Hc.
  destruct (item_update_bits _ _ _ _ _ idx Hup Hidx) as (Hbit & _).
  unfold bit_at in Hbit. rewrite Hc in Hbit. injection Hbit as Hbit.
  destruct (Z.eqb_spec c 0) as [->|]; [|done].
  by rewrite Z.bits_0 in Hbit.
Qed.

(** ** Counting *)

(** X5: [bitmap_count] returns the number of bits that are set among the
    bits of the [nbytes] bytes in use, a number from 0 to [8 * nbytes], and
    leaves the store as it is; the bytes in use have to be in the buffer. *)
Theorem count_is_the_number_of_set_bits (h : heap) (bitmap : ptr) (st : bitmap_state) :
  view h bitmap = Some st ->
  nbytes (hdr st) <= Z.of_nat (length (bits st)) ->
  bitmap_count bitmap h = Ok (set_bits (bits st) (nbytes (hdr st))) h /\
  0 <= set_bits (bits st) (nbytes (hdr st)) <= 8 * Z.max 0 (nbytes (hdr st)).
Proof.
  intros Hv Hn. split; [by apply bitmap_count_run|apply set_bits_bounds].
Qed.

Lemma filter_length_ext (p q : Z -> bool) (l : list Z) :
  (forall i, i ∈ l -> q i = p i) ->
  length (List.filter q l) = length (List.filter p l).
Proof.
  intros Hpq. f_equal. apply List.filter_ext_in.
  intros i Hi. apply Hpq. by apply list_elem_of_In.
Qed.

(** Two counts over the positions below [m] that differ at one position
    only. *)
Lemma filter_length_change (p q : Z -> bool) (m idx : Z) :
  0 <= idx < m ->
  (forall i, i <> idx -> q i = p i) ->
  Z.of_nat (length (List.filter q (seqZ 0 m)))
  = Z.of_nat (length (List.filter p (seqZ 0 m)))
    + (if q idx then 1 else 0) - (if p idx then 1 else 0).
Proof.
  intros Hidx Hpq.
  replace m with (idx + (1 + (m - idx - 1))) by lia.
  rewrite !seqZ_app by lia. rewrite !List.filter_app, !length_app.
  rewrite (filter_length_ext p q (seqZ 0 idx)).
  2:{ intros i Hi%elem_of_seqZ. apply Hpq. lia. }
  rewrite (filter_length_ext p q (seqZ (0 + idx + 1) _)).
  2:{ intros i Hi%elem_of_seqZ. apply Hpq. lia. }
  change (seqZ (0 + idx) 1) with [0 + idx]. rewrite Z.add_0_l.
  cbn [List.filter]. destruct (q idx), (p idx); cbn [length]; lia.
Qed.

(** X6: when [bitmap_set_item] returns true, [bitmap_count] changes by
    what the bit changes: one more when a clear bit is set, one less when a
    set bit is cleared, the same otherwise - and the same also when the bit
    lies in the byte after the bytes in use, which the check on the byte
    index lets through. *)
Theorem count_follows_set_item (h : heap) (bitmap : ptr) (st : bitmap_state)
    (page item idx : Z) (state : bool) (h' : heap) :
  view h bitmap = Some st ->
  nbytes (hdr st) <= Z.of_nat (length (bits st)) ->
  index_of (offsets st) page item = Some idx ->
  bitmap_set_item bitmap page item state h = Ok true h' ->
  exists n,
    bitmap_count bitmap h = Ok n h /\
    bitmap_count bitmap h'
    = Ok (if idx <? 8 * nbytes (hdr st)
          then n + (if state then 1 else 0) - (if is_set (bits st) idx then 1 else 0)
          else n) h'.
Proof.
  intros Hv Hn Hidx. rewrite (bitmap_set_item_run _ _ _ _ _ _ Hv).
  destruct (item_update st page item state) as [f|[r' dt]] eqn:Hup; [done|].
  intros [= -> <-].
  pose proof (view_heap_set_bits h bitmap st dt Hv) as Hv'.
  destruct (item_update_bits _ _ _ _ _ idx Hup Hidx) as (Hbit & Hother & Hlen).
  pose proof (item_update_addressable _ _ _ _ _ Hup)
    as (idx0 & count & Hidx0 & _ & Hpos & _).
  assert (idx0 = idx) as -> by congruence.
  exists (set_bits (bits st) (nbytes (hdr st))).
  split; [by apply bitmap_count_run|].
  rewrite (bitmap_count_run _ _ _ Hv') by (fields; lia). fields. f_equal.
  assert (forall i, i <> idx -> is_set dt i = is_set (bits st) i) as Hset.
  { intros i Hi. unfold is_set. by rewrite Hother. }
  assert (is_set dt idx = state) as Hnew.
  { unfold is_set. by rewrite Hbit. }
  unfold set_bits. destruct (Z.ltb_spec idx (8 * nbytes (hdr st))) as [Hin|Hout].
  - rewrite (filter_length_change (is_set (bits st)) (is_set dt) _ idx) by (done || lia).
    by rewrite Hnew.
  - rewrite (filter_length_ext (is_set (bits st)) (is_set dt)); [done|].
    intros i Hi%elem_of_seqZ. apply Hset. lia.
Qed.

(** ** What [bitmap_add_page] asks for, and what it keeps *)

(** X7: [bitmap_add_page] returns when the page is one of the pages of the
    bitmap and the count is from 0 to [MaxHeapTuplesPerPage]; otherwise an
    assertion stops it. *)
Theorem add_page_checks_its_arguments (h : heap) (bitmap : ptr) (st : bitmap_state)
    (page items : Z) :
  view h bitmap = Some st -> sized st ->
  (0 <= page < npages (hdr st) /\ 0 <= items <= MaxHeapTuplesPerPage ->
     exists h', bitmap_add_page bitmap page items h = Ok tt h') /\
  (page < 0 \/ npages (hdr st) <= page \/ items < 0 \/ MaxHeapTuplesPerPage < items ->
     bitmap_add_page bitmap page items h = Stuck AssertionFailed).
Proof.
  intros Hv Hsz. split.
  - intros (Hpage & Hitems).
    destruct (bitmap_add_page_run h bitmap st page items Hv Hsz Hpage Hitems)
      as (t & h' & _ & Hrun & _).
    by exists h'.
  - intros Hbad. pose proof Hv as (Hs & _)%view_Some. unfold bitmap_add_page.
    rewrite bind_run. destruct (Z.leb_spec 0 page); [|done]. cbn [assert ret].
    rewrite bind_run, (get_run _ _ _ Hs).
    rewrite bind_run. destruct (Z.ltb_spec page (npages (hdr st))); [|done]. cbn [assert ret].
    rewrite bind_run. destruct (Z.leb_spec 0 items); [|done]. cbn [assert ret].
    rewrite bind_run. destruct (Z.leb_spec items MaxHeapTuplesPerPage); [lia|done].
Qed.

Lemma bit_at_app dt more idx b :
  bit_at dt idx = Some b -> bit_at (dt ++ more) idx = Some b.
Proof.
  unfold bit_at, cell. destruct (0 <=? idx `quot` 8); [|done].
  destruct (dt !! Z.to_nat (idx `quot` 8)) as [c|] eqn:Hc; [|done].
  by rewrite (lookup_app_l_Some _ _ _ _ Hc).
Qed.

(** X8: registering a page keeps the number of pages and the offsets of
    the other pages, and the bit of every item of that page or of a page
    before it reads as before - also when the bit buffer moves to grow. *)
Theorem add_page_keeps_registered_items (h : heap) (bitmap : ptr) (st : bitmap_state)
    (page items : Z) (h' : heap) :
  view h bitmap = Some st -> sized st ->
  bitmap_add_page bitmap page items h = Ok tt h' ->
  exists st',
    view h' bitmap = Some st' /\
    npages (hdr st') = npages (hdr st) /\
    (forall p, p <> page -> cell (offsets st') p = cell (offsets st) p) /\
    (forall p item b, 0 <= p <= page ->
       item_bit st p item = Some b -> item_bit st' p item = Some b).
Proof.
  intros Hv Hsz Hrun.
  destruct (bitmap_add_page_asserts _ _ _ _ _ _ Hv Hrun) as (Hpage & Hitems).
  destruct (bitmap_add_page_run h bitmap st page items Hv Hsz Hpage Hitems)
    as (t & h2 & _ & Hrun2 & Hv2 & _).
  assert (h2 = h') as -> by congruence.
  exists (registered st page t (S (length h))).
  split; [done|]. split; [apply registered_npages|].
  rewrite registered_offsets.
  assert (forall p, p <> page ->
            cell (set_cell (offsets st) page t) p = cell (offsets st) p) as Hcells.
  { intros p Hp. apply cell_set_cell_ne; lia. }
  split; [done|].
  intros p item b Hp. unfold item_bit. rewrite registered_offsets.
  assert (index_of (set_cell (offsets st) page t) p item = index_of (offsets st) p item)
    as ->.
  { unfold index_of. destruct (Z.eqb_spec p 0); [done|].
    destruct Hsz as (Hnp & _).
    rewrite to_int_id by zlia. rewrite Hcells by lia. done. }
  destruct (index_of (offsets st) p item) as [idx|]; [|done].
  destruct (registered_growth st page t (S (length h))) as (g & _ & _ & ->).
  { destruct Hsz as (_ & _ & ? & _). lia. }
  apply bit_at_app.
Qed.

(** ** Comparing *)

(** X9: [bitmap_compare] reads the last entry of both offset tables
    whether the page counts are equal or not. When one of the bitmaps has
    no page, the read is outside its table: a bitmap of no page cannot be
    compared, not even with itself. *)
Theorem compare_needs_a_page (h : heap) (a b : ptr) (sa sb : bitmap_state) :
  view h a = Some sa -> view h b = Some sb ->
  sized sa -> sized sb ->
  npages (hdr sa) = 0 \/ npages (hdr sb) = 0 ->
  bitmap_compare a b h = Stuck OutOfBounds.
Proof.
  intros Hva Hvb Hsa Hsb H0.
  destruct (decide (npages (hdr sa) = npages (hdr sb))) as [Heq|Hne].
  - pose proof Hva as (Hs & Hp & Hd)%view_Some.
    pose proof Hvb as (Hs' & Hp' & Hd')%view_Some.
    assert (npages (hdr sa) = 0) as Ha by lia.
    unfold bitmap_compare.
    rewrite bind_run, (get_run _ _ _ Hs), bind_run, (get_run _ _ _ Hs').
    destruct (Z.eqb_spec (npages (hdr sa)) (npages (hdr sb))); [|done].
    cbn [negb].
    by rewrite bind_run, (load_int_run _ _ _ _ Hp), (no_last_offset sa Hsa Ha).
  - rewrite (bitmap_compare_mismatch h a b sa sb) by done.
    destruct H0 as [H0|H0].
    + by rewrite (no_last_offset sa Hsa H0).
    + rewrite (no_last_offset sb Hsb H0). by destruct (cell (offsets sa) _).
Qed.

Lemma differing_from_zeroes dt m n :
  n <= Z.of_nat (length dt) -> n <= Z.of_nat m ->
  differing_bits dt (replicate m 0) n = set_bits dt n /\
  differing_bits (replicate m 0) dt n = set_bits dt n.
Proof.
  intros Hd Hm.
  assert (differing_bits dt (replicate m 0) n = set_bits dt n) as E.
  { unfold differing_bits, set_bits. f_equal. apply filter_length_ext.
    intros i Hi%elem_of_seqZ. unfold differ, is_set, bit_at.
    destruct (cell_lookup dt (i `quot` 8)) as [x ->]; [qlia|].
    destruct (cell_lookup (replicate m 0) (i `quot` 8)) as [y Hy].
    { rewrite length_replicate. qlia. }
    rewrite Hy. unfold cell in Hy. destruct (0 <=? i `quot` 8); [|done].
    apply lookup_replicate in Hy as [-> _].
    rewrite Z.bits_0. cbn [default from_option id]. by destruct (Z.testbit x _). }
  split; [done|]. by rewrite differing_bits_comm.
Qed.

(** X10: a new copy differs from its source in the bits that the source
    has set: [bitmap_compare] of a bitmap of at least one page and its copy
    returns, in both directions, what [bitmap_count] returns for the source;
    [bitmap_count] of the copy is 0. *)
Theorem compare_with_copy_counts_set_bits (h : heap) (src : ptr) (st : bitmap_state) :
  view h src = Some st -> sized st ->
  1 <= npages (hdr st) ->
  nbytes (hdr st) <= maxBytes (hdr st) ->
  exists dst h' n,
    bitmap_copy src h = Ok dst h' /\
    bitmap_count src h' = Ok n h' /\
    bitmap_count dst h' = Ok 0 h' /\
    bitmap_compare src dst h' = Ok n h' /\
    bitmap_compare dst src h' = Ok n h'.
Proof.
  intros Hv Hsz Hnp Hfit.
  destruct (bitmap_copy_run h src st Hv Hsz) as (h' & Hrun & Hv' & Hext & _).
  pose proof Hv as (Hs & Hp & Hd)%view_Some.
  assert (view h' src = Some st) as Hvs.
  { apply view_Some. auto. }
  pose proof Hsz as (_ & _ & Hmb & Hlb).
  destruct (last_offset st Hsz Hnp) as (la & Hia & Hla). rewrite <- Hia in Hla.
  set (st' := copied_state st (S (S (length h))) (S (S (S (length h))))) in *.
  destruct (differing_from_zeroes (bits st) (Z.to_nat (maxBytes (hdr st)))
              (nbytes (hdr st))) as (E1 & E2); [lia..|].
  exists (S (length h)), h', (set_bits (bits st) (nbytes (hdr st))).
  split; [done|].
  split; [apply (bitmap_count_run _ _ _ Hvs); lia|].
  split.
  { rewrite (bitmap_count_run _ _ _ Hv').
    - unfold st', copied_state. fields. by rewrite set_bits_zeroes.
    - unfold st', copied_state. fields. rewrite length_replicate. lia. }
  split.
  - rewrite (bitmap_compare_same h' src (S (length h)) st st' la la);
      unfold st', copied_state; fields; rewrite ?length_replicate; try done; try lia.
    by rewrite E1.
  - rewrite (bitmap_compare_same h' (S (length h)) src st' st la la);
      unfold st', copied_state; fields; rewrite ?length_replicate; try done; try lia.
    by rewrite E2.
Qed.

(** ** Calls that only read *)

Lemma read_only_ret {A} (a : A) : read_only (ret a).
Proof. by intros h a' h' [= _ <-]. Qed.

Lemma read_only_bind {A B} (m : M A) (k : A -> M B) :
  read_only m -> (forall a, read_only (k a)) -> read_only (m ≫= k).
Proof.
  intros Hm Hk h b h'. rewrite bind_run.
  destruct (m h) as [a h1|] eqn:E; [|done].
  apply Hm in E as ->. apply Hk.
Qed.

Lemma read_only_get p : read_only (get p).
Proof.
  intros h a h'. unfold get.
  destruct (chunk_at h p) as [[]|]; try done. by intros [= _ <-].
Qed.

Lemma read_only_load_int p i : read_only (load_int p i).
Proof.
  intros h a h'. unfold load_int.
  destruct (chunk_at h p) as [[]|]; try done.
  destruct (cell _ i); [|done]. by intros [= _ <-].
Qed.

Lemma read_only_load_char p i : read_only (load_char p i).
Proof.
  intros h a h'. unfold load_char.
  destruct (chunk_at h p) as [[]|]; try done.
  destruct (cell _ i); [|done]. by intros [= _ <-].
Qed.

Lemma read_only_shl1 n : read_only (shl1 n).
Proof.
  intros h a h'. rewrite shl1_run. destruct (n <? 0); [done|]. by intros [= _ <-].
Qed.

Lemma read_only_for {St} (body : Z -> St -> M St) lo hi s :
  (forall i s, read_only (body i s)) -> read_only (for_ lo hi body s).
Proof.
  intros Hbody. unfold for_. generalize (Z.to_nat (hi - lo)) as n.
  intros n. revert lo s. induction n as [|n IH]; intros lo s.
  - apply read_only_ret.
  - cbn [for_loop]. apply read_only_bind; [apply Hbody|]. intros s'. apply IH.
Qed.

Lemma read_only_GetBitmapIndex bm page item : read_only (GetBitmapIndex bm page item).
Proof.
  unfold GetBitmapIndex. apply read_only_bind; [apply read_only_get|]. intros s.
  destruct (page =? 0); [apply read_only_ret|].
  apply read_only_bind; [apply read_only_load_int|]. intros prev. apply read_only_ret.
Qed.

(** X11: [bitmap_get_item], [bitmap_count] and [bitmap_compare] only read:
    whenever one of them returns, the store is the one it started from. *)
Theorem readers_leave_the_store :
  (forall bitmap page item, read_only (bitmap_get_item bitmap page item)) /\
  (forall bitmap, read_only (bitmap_count bitmap)) /\
  (forall a b, read_only (bitmap_compare a b)).
Proof.
  split; [|split].
  - intros bm page item. unfold bitmap_get_item.
    apply read_only_bind; [apply read_only_GetBitmapIndex|]. intros idx.
    apply read_only_bind; [apply read_only_GetBitmapIndex|]. intros idx'.
    apply read_only_bind; [apply read_only_get|]. intros s.
    destruct (npages s <=? page); [apply read_only_ret|].
    destruct (nbytes s <? _); [apply read_only_ret|].
    apply read_only_bind; [apply read_only_load_int|]. intros count.
    destruct (count <=? item); [apply read_only_ret|].
    apply read_only_bind; [apply read_only_load_char|]. intros c.
    destruct (c =? 0); [apply read_only_ret|].
    apply read_only_bind; [apply read_only_shl1|]. intros m. apply read_only_ret.
  - intros bm. unfold bitmap_count.
    apply read_only_bind; [apply read_only_get|]. intros s.
    apply read_only_for. intros i items. apply read_only_for. intros j items'.
    apply read_only_bind; [apply read_only_load_char|]. intros c.
    apply read_only_bind; [apply read_only_shl1|]. intros m.
    destruct (negb _); apply read_only_ret.
  - intros a b. unfold bitmap_compare.
    apply read_only_bind; [apply read_only_get|]. intros sa.
    apply read_only_bind; [apply read_only_get|]. intros sb.
    destruct (negb (npages sa =? npages sb)).
    + apply read_only_bind; [apply read_only_load_int|]. intros la.
      apply read_only_bind; [apply read_only_load_int|]. intros lb.
      apply read_only_ret.
    + apply read_only_bind; [apply read_only_load_int|]. intros la.
      apply read_only_bind; [apply read_only_load_int|]. intros lb.
      apply read_only_for. intros i ndiff.
      apply read_only_bind; [apply read_only_load_char|]. intros ca.
      apply read_only_bind; [apply read_only_load_char|]. intros cb.
      destruct (negb (to_char (Z.lxor ca cb) =? 0)); [|apply read_only_ret].
      apply read_only_for. intros j ndiff'.
      apply read_only_bind; [apply read_only_shl1|]. intros m.
      destruct (negb _); apply read_only_ret.
Qed.

(** ** [bitmap_free] *)

Lemma pfree_run h p c :
  chunk_at h p = Some c -> c <> Freed -> pfree p h = Ok tt (heap_set h p Freed).
Proof. unfold pfree. intros -> Hc. by destruct c. Qed.

Lemma get_freed h p : chunk_at h p = Some Freed -> get p h = Stuck InvalidPointer.
Proof. unfold get. by intros ->. Qed.

Lemma GetBitmapIndex_freed h p page item :
  chunk_at h p = Some Freed -> GetBitmapIndex p page item h = Stuck InvalidPointer.
Proof. intros Hp. unfold GetBitmapIndex. by rewrite bind_run, (get_freed _ _ Hp). Qed.

(** X12: [bitmap_free] gives back the three blocks of a bitmap - the
    struct, the offset table and the bit buffer - and leaves every other
    block as it is. After it every function of the bitmap stops before it
    uses a block, [bitmap_free] itself included: on the pointer, or, for
    [bitmap_add_page] with a negative page, on the assertion [page >= 0],
    which comes before the struct is read. No block is given back twice,
    and none is used after it was given back. *)
Theorem free_gives_back_the_blocks (h : heap) (bitmap : ptr) (st : bitmap_state) :
  view h bitmap = Some st ->
  exists h',
    bitmap_free bitmap h = Ok tt h' /\
    chunk_at h' bitmap = Some Freed /\
    chunk_at h' (pages (hdr st)) = Some Freed /\
    chunk_at h' (data (hdr st)) = Some Freed /\
    (forall p c, chunk_at h p = Some c ->
       p <> bitmap -> p <> pages (hdr st) -> p <> data (hdr st) ->
       chunk_at h' p = Some c) /\
    bitmap_free bitmap h' = Stuck InvalidPointer /\
    (forall page item, bitmap_get_item bitmap page item h' = Stuck InvalidPointer) /\
    (forall page item state,
       bitmap_set_item bitmap page item state h' = Stuck InvalidPointer) /\
    (forall page items,
       bitmap_add_page bitmap page items h' =
       Stuck (if 0 <=? page then InvalidPointer else AssertionFailed)) /\
    bitmap_count bitmap h' = Stuck InvalidPointer /\
    bitmap_reset bitmap h' = Stuck InvalidPointer /\
    bitmap_copy bitmap h' = Stuck InvalidPointer /\
    (forall other, bitmap_compare bitmap other h' = Stuck InvalidPointer).
Proof.
  intros (Hs & Hp & Hd)%view_Some.
  assert (bitmap <> pages (hdr st) /\ bitmap <> data (hdr st)
          /\ pages (hdr st) <> data (hdr st)) as (Hn1 & Hn2 & Hn3).
  { repeat split; intros E; rewrite E in *; congruence. }
  assert (bitmap <> NULL) as Hnull.
  { intros ->. discriminate Hs. }
  set (h1 := heap_set h (pages (hdr st)) Freed).
  set (h2 := heap_set h1 (data (hdr st)) Freed).
  set (h3 := heap_set h2 bitmap Freed).
  assert (chunk_at h3 bitmap = Some Freed) as Hgone.
  { unfold h3. apply chunk_at_heap_set_same. unfold h2, h1. allocated. }
  exists h3. split.
  { unfold bitmap_free. rewrite bind_run.
    destruct (Nat.eqb_spec bitmap NULL); [done|]. cbn [negb assert ret].
    rewrite bind_run, (get_run _ _ _ Hs).
    rewrite bind_run, (pfree_run _ _ _ Hp) by done. fold h1.
    rewrite bind_run, (get_run h1 bitmap (hdr st)) by (unfold h1; lookup).
    rewrite bind_run, (pfree_run h1 _ (Chars (bits st))) by (done || (unfold h1; lookup)).
    fold h2.
    by rewrite (pfree_run h2 _ (Struct (hdr st))) by (done || (unfold h2, h1; lookup)). }
  split; [done|].
  split.
  { unfold h3, h2. rewrite !chunk_at_heap_set_ne by done.
    unfold h1. apply chunk_at_heap_set_same. by eexists. }
  split.
  { unfold h3. rewrite chunk_at_heap_set_ne by done.
    unfold h2. apply chunk_at_heap_set_same. unfold h1. allocated. }
  split.
  { intros p c Hc ? ? ?. unfold h3, h2, h1. by rewrite !chunk_at_heap_set_ne. }
  split.
  { unfold bitmap_free. rewrite bind_run.
    destruct (Nat.eqb_spec bitmap NULL); [done|]. cbn [negb assert ret].
    by rewrite bind_run, (get_freed _ _ Hgone). }
  split.
  { intros page item. unfold bitmap_get_item.
    by rewrite bind_run, (GetBitmapIndex_freed _ _ _ _ Hgone). }
  split.
  { intros page item state. unfold bitmap_set_item.
    by rewrite bind_run, (GetBitmapIndex_freed _ _ _ _ Hgone). }
  split.
  { intros page items. unfold bitmap_add_page. rewrite bind_run.
    destruct (0 <=? page); [|done]. cbn [assert ret].
    by rewrite bind_run, (get_freed _ _ Hgone). }
  split.
  { unfold bitmap_count. by rewrite bind_run, (get_freed _ _ Hgone). }
  split.
  { unfold bitmap_reset. by rewrite bind_run, (get_freed _ _ Hgone). }
  split.
  { unfold bitmap_copy. rewrite bind_run.
    destruct (Nat.eqb_spec bitmap NULL); [done|]. cbn [negb assert ret].
    rewrite bind_run. unfold palloc at 1.
    by rewrite bind_run, (get_freed _ bitmap) by (by apply chunk_at_app). }
  intros other. unfold bitmap_compare. by rewrite bind_run, (get_freed _ _ Hgone).
Qed.

(** ** Writing a text into a new block

    [hex], [binary] and [base64] allocate the block of their result and
    fill it from the start, one character after the other. *)

Lemma heap_set_last h0 c c' : heap_set (h0 ++ [c]) (S (length h0)) c' = h0 ++ [c'].
Proof.
  change (<[length h0 := c']> (h0 ++ [c]) = h0 ++ [c']).
  rewrite insert_app_r_alt by lia. by rewrite Nat.sub_diag.
Qed.

Lemma store_char_last h0 blk k v :
  is_Some (cell blk k) ->
  store_char (S (length h0)) k v (h0 ++ [Chars blk])
  = Ok tt (h0 ++ [Chars (set_cell blk k (to_char v))]).
Proof.
  intros [old Hk].
  rewrite (store_char_run _ _ blk) by apply chunk_at_new.
  by rewrite Hk, heap_set_last.
Qed.

Lemma load_char_old h0 c p l i v :
  chunk_at h0 p = Some (Chars l) -> cell l i = Some v ->
  load_char p i (h0 ++ [c]) = Ok v (h0 ++ [c]).
Proof.
  intros Hp Hv. rewrite (load_char_run _ _ l) by (by apply chunk_at_app).
  by rewrite Hv.
Qed.

(** The next character goes after the ones that are written. *)
Lemma set_cell_next (pre : list Z) x rest v :
  set_cell (pre ++ x :: rest) (Z.of_nat (length pre)) v = pre ++ v :: rest.
Proof.
  unfold set_cell. rewrite Nat2Z.id.
  rewrite insert_app_r_alt by lia. by rewrite Nat.sub_diag.
Qed.

Lemma store_next h0 (pre : list Z) x rest k v :
  k = Z.of_nat (length pre) -> to_char v = v ->
  store_char (S (length h0)) k v (h0 ++ [Chars (pre ++ x :: rest)])
  = Ok tt (h0 ++ [Chars ((pre ++ [v]) ++ rest)]).
Proof.
  intros -> Hv. rewrite store_char_last.
  - by rewrite set_cell_next, Hv, <- app_assoc.
  - apply cell_lookup. rewrite length_app. cbn [length]. lia.
Qed.

Lemma c_string_text text rest :
  Forall (fun c => c <> 0) text -> c_string (text ++ 0 :: rest) = text.
Proof.
  induction 1 as [|c text Hc _ IH]; [done|]. cbn [app c_string].
  destruct (Z.eqb_spec c 0); [done|]. by rewrite IH.
Qed.

Lemma take_next (l : list Z) i v :
  0 <= i -> cell l i = Some v ->
  take (Z.to_nat (i + 1)) l = take (Z.to_nat i) l ++ [v].
Proof.
  intros Hi Hv. unfold cell in Hv. destruct (Z.leb_spec 0 i); [|lia].
  replace (Z.to_nat (i + 1)) with (S (Z.to_nat i)) by lia.
  by apply take_S_r.
Qed.

(** ** [hex] *)

Lemma hex_chars_range : Forall (fun c => 0 < c < 128) hex_chars.
Proof. repeat constructor; vm_compute; done. Qed.

Lemma hex_digit_range d : 0 <= d < 16 -> 0 < hex_digit d < 128.
Proof.
  intros Hd. unfold hex_digit.
  destruct (cell_lookup hex_chars d) as [c Hc]; [done|]. rewrite Hc.
  unfold cell in Hc. destruct (0 <=? d); [|done].
  pose proof hex_chars_range as Hall. rewrite Forall_lookup in Hall.
  by apply (Hall _ _ Hc).
Qed.

Lemma to_char_id c : -128 <= c < 128 -> to_char c = c.
Proof. intros Hc. unfold to_char. rewrite Z.mod_small; lia. Qed.

Lemma nibble_range c : 0 <= Z.land c 15 < 16.
Proof.
  change 15 with (Z.ones 4). rewrite Z.land_ones by lia.
  apply Z.mod_pos_bound. lia.
Qed.

Lemma hex_value_digit d : 0 <= d < 16 -> hex_value (hex_digit d) = Some d.
Proof.
  intros Hd. rewrite <- (Z2Nat.id d) by lia.
  assert (Z.to_nat d < 16)%nat as Hn by lia.
  generalize dependent (Z.to_nat d). intros n Hn.
  do 16 (destruct n as [|n]; [reflexivity|]). lia.
Qed.

Lemma hex_pair_value c :
  exists a b, hex_value (hex_digit (Z.land (Z.shiftr c 4) 15)) = Some a /\
              hex_value (hex_digit (Z.land c 15)) = Some b /\
              16 * a + b = c `mod` 256.
Proof.
  exists (Z.land (Z.shiftr c 4) 15), (Z.land c 15).
  rewrite !hex_value_digit by apply nibble_range.
  split; [done|]. split; [done|].
  change 15 with (Z.ones 4). rewrite !Z.land_ones, Z.shiftr_div_pow2 by lia.
  change (2 ^ 4) with 16. Z.to_euclidean_division_equations. lia.
Qed.

Lemma unhex_hex_text l : unhex (hex_text l) = Some (map (fun c => c `mod` 256) l).
Proof.
  induction l as [|c l IH]; [done|].
  unfold hex_text in *. cbn [flat_map hex_pair app map unhex].
  destruct (hex_pair_value c) as (a & b & -> & -> & <-). by rewrite IH.
Qed.

Lemma hex_text_length l : length (hex_text l) = (2 * length l)%nat.
Proof.
  unfold hex_text. induction l as [|c l IH]; [done|].
  cbn [flat_map hex_pair app length]. rewrite IH. lia.
Qed.

Lemma hex_text_nonzero l : Forall (fun c => c <> 0) (hex_text l).
Proof.
  unfold hex_text. induction l as [|c l IH]; [constructor|].
  cbn [flat_map hex_pair app].
  pose proof (hex_digit_range _ (nibble_range (Z.shiftr c 4))).
  pose proof (hex_digit_range _ (nibble_range c)).
  repeat constructor; (lia || done).
Qed.

Lemma hex_text_snoc l c : hex_text (l ++ [c]) = hex_text l ++ hex_pair c.
Proof. unfold hex_text. by rewrite flat_map_app; cbn [flat_map]; rewrite app_nil_r. Qed.

(** [hex] fills a new block with the text of the first [n] bytes, and a 0
    after it; the store is otherwise as it was. *)
Lemma hex_run h d l n :
  chunk_at h d = Some (Chars l) ->
  0 <= n <= Z.of_nat (length l) -> 2 * n + 1 <= INT_MAX ->
  hex d n h
  = Ok (S (length h)) (h ++ [Chars (hex_text (take (Z.to_nat n) l) ++ [0])]).
Proof.
  intros Hd Hn Hfit. unfold hex. rewrite bind_run. unfold palloc at 1.
  rewrite (to_int_id (n * 2)), (to_int_id (n * 2 + 1)) by zlia.
  set (I := fun (i w : Z) (hh : heap) =>
    w = 2 * i /\
    exists rest, hh = h ++ [Chars (hex_text (take (Z.to_nat i) l) ++ rest)] /\
                 Z.of_nat (length rest) = 2 * (n - i) + 1).
  match goal with |- context [for_ 0 n ?body 0] =>
    destruct (for_invariant I body 0 n 0 (h ++ [Chars (uninit (n * 2 + 1))]))
      as (w & h1 & Hloop & -> & rest & -> & Hrest)
  end.
  - lia.
  - split; [lia|]. exists (uninit (n * 2 + 1)). split; [done|].
    rewrite uninit_length. lia.
  - intros i w hh Hi (-> & rest & -> & Hrest).
    destruct (cell_lookup l i) as [c Hc]; [lia|].
    destruct rest as [|x [|y rest]]; [simpl in Hrest; lia..|].
    pose proof (hex_digit_range _ (nibble_range (Z.shiftr c 4))) as Hhi.
    pose proof (hex_digit_range _ (nibble_range c)) as Hlo.
    pose proof (hex_text_length (take (Z.to_nat i) l)) as Hlen.
    rewrite length_take in Hlen.
    rewrite bind_run, (load_char_old _ _ _ _ _ _ Hd Hc).
    rewrite bind_run, store_next by (rewrite ?to_char_id; lia).
    rewrite bind_run, (load_char_old _ _ _ _ _ _ Hd Hc).
    rewrite (to_int_id (2 * i + 1)) by zlia.
    rewrite bind_run, store_next
      by (rewrite ?to_char_id, ?length_app; cbn [length]; lia).
    rewrite (to_int_id (2 * i + 1 + 1)) by zlia.
    eexists _, _. split; [reflexivity|]. split; [lia|].
    exists rest. split.
    + rewrite (take_next l i c) by (done || lia).
      rewrite hex_text_snoc. unfold hex_pair. by rewrite <- !app_assoc.
    + cbn [length] in Hrest. lia.
  - rewrite bind_run, Hloop.
    destruct rest as [|x [|y rest]]; [simpl in Hrest; lia| |simpl in Hrest; lia].
    pose proof (hex_text_length (take (Z.to_nat n) l)) as Hlen.
    rewrite length_take in Hlen.
    rewrite bind_run, store_next by first [lia | reflexivity].
    by rewrite app_nil_r.
Qed.

(** X13: [hex] returns a new block that holds two characters for each of
    the first [n] bytes and a 0 after them, a C string of [2 * n]
    characters; the store is otherwise as it was. Read as hexadecimal
    digits, the higher digit first, the text gives the bytes back, each as
    a number from 0 to 255. *)
Theorem hex_reads_back (h : heap) (data : ptr) (l : list Z) (n : Z) :
  chunk_at h data = Some (Chars l) ->
  0 <= n <= Z.of_nat (length l) ->
  2 * n + 1 <= INT_MAX ->
  exists text,
    hex data n h = Ok (S (length h)) (h ++ [Chars (text ++ [0])]) /\
    Z.of_nat (length text) = 2 * n /\
    c_string (text ++ [0]) = text /\
    unhex text = Some (map (fun c => c `mod` 256) (take (Z.to_nat n) l)).
Proof.
  intros Hd Hn Hfit. exists (hex_text (take (Z.to_nat n) l)).
  split; [by apply hex_run|].
  split; [rewrite hex_text_length, length_take; lia|].
  split; [apply c_string_text, hex_text_nonzero|apply unhex_hex_text].
Qed.

(** ** [binary] *)

Lemma is_set_byte l i c j :
  cell l i = Some c -> 0 <= j < 8 -> is_set l (8 * i + j) = Z.testbit c j.
Proof.
  intros Hc Hj. apply cell_Some in Hc as Hi. unfold is_set, bit_at.
  assert ((8 * i + j) `quot` 8 = i) as -> by qlia.
  assert ((8 * i + j) `rem` 8 = j) as -> by qlia.
  by rewrite Hc.
Qed.

Lemma bit_text_next l k :
  0 <= k -> bit_text l (k + 1) = bit_text l k ++ [bit_char (is_set l k)].
Proof.
  intros Hk. unfold bit_text. rewrite seqZ_app by lia.
  by rewrite map_app.
Qed.

Lemma bit_text_length l k : 0 <= k -> Z.of_nat (length (bit_text l k)) = k.
Proof. intros Hk. unfold bit_text. rewrite length_map, length_seqZ. lia. Qed.

Lemma bit_char_range b : 0 < bit_char b < 128.
Proof. by destruct b. Qed.

Lemma bit_text_nonzero l k : Forall (fun c => c <> 0) (bit_text l k).
Proof.
  unfold bit_text. apply Forall_forall. intros c Hc.
  apply list_elem_of_In, in_map_iff in Hc as (idx & <- & _).
  pose proof (bit_char_range (is_set l idx)). lia.
Qed.

Lemma bit_text_cell l k idx :
  0 <= idx < k -> cell (bit_text l k) idx = Some (bit_char (is_set l idx)).
Proof.
  intros Hidx. unfold cell, bit_text. destruct (Z.leb_spec 0 idx); [|lia].
  change (map ?f ?s) with (f <$> s).
  rewrite list_lookup_fmap, (lookup_seqZ_lt _ _ _) by lia.
  replace (0 + Z.of_nat (Z.to_nat idx)) with idx by lia. done.
Qed.

(** [binary] fills a new block with the bits of the first [n] bytes, in
    the order of the global bit index, and a 0 after them; the 9 bytes that
    are left of the block are not written. *)
Lemma binary_run h d l n :
  chunk_at h d = Some (Chars l) ->
  0 <= n <= Z.of_nat (length l) -> 8 * n + 10 <= INT_MAX ->
  exists tail,
    binary d n h
    = Ok (S (length h)) (h ++ [Chars (bit_text l (8 * n) ++ 0 :: tail)]) /\
    length tail = 9%nat.
Proof.
  intros Hd Hn Hfit. unfold binary. rewrite bind_run. unfold palloc at 1.
  rewrite (to_int_id (n * 8)), (to_int_id (n * 8 + 10)) by zlia.
  set (W := fun (k : Z) (hh : heap) =>
    exists rest, hh = h ++ [Chars (bit_text l k ++ rest)] /\
                 Z.of_nat (length rest) = 8 * n + 10 - k).
  set (I := fun (i k : Z) (hh : heap) => k = 8 * i /\ W k hh).
  match goal with |- context [for_ 0 n ?body 0] =>
    destruct (for_invariant I body 0 n 0 (h ++ [Chars (uninit (n * 8 + 10))]))
      as (k & h1 & Hloop & -> & rest & -> & Hrest)
  end.
  - lia.
  - split; [lia|]. exists (uninit (n * 8 + 10)). split; [done|].
    rewrite uninit_length. lia.
  - intros i k hh Hi (-> & HW).
    destruct (cell_lookup l i) as [c Hc]; [lia|].
    set (J := fun (j k : Z) (hh : heap) => k = 8 * i + j /\ W k hh).
    match goal with |- context [for_ 0 8 ?body (8 * i)] =>
      destruct (for_invariant J body 0 8 (8 * i) hh) as (k & h2 & Hin & -> & HW2)
    end.
    + lia.
    + split; [lia|done].
    + intros j k h2 Hj (-> & rest & -> & Hrest).
      destruct rest as [|x rest]; [simpl in Hrest; lia|].
      pose proof (bit_text_length l (8 * i + j) ltac:(lia)) as Hlen.
      pose proof (bit_char_range (Z.testbit c j)) as Hbc.
      rewrite bind_run, (load_char_old _ _ _ _ _ _ Hd Hc).
      rewrite bind_run, shl1_run.
      destruct (Z.ltb_spec j 0); [lia|].
      rewrite shl1_value, land_pow2 by lia.
      rewrite bind_run.
      assert ((if Z.testbit c j
               then store_char (S (length h)) (8 * i + j) (chr "1")
               else store_char (S (length h)) (8 * i + j) (chr "0"))
              = store_char (S (length h)) (8 * i + j) (bit_char (Z.testbit c j))) as ->.
      { by destruct (Z.testbit c j). }
      rewrite store_next by (rewrite ?to_char_id; lia).
      rewrite (to_int_id (8 * i + j + 1)) by zlia.
      eexists _, _. split; [reflexivity|]. split; [lia|].
      exists rest. split.
      * rewrite bit_text_next by lia. by rewrite (is_set_byte l i c j).
      * cbn [length] in Hrest. lia.
    + exists (8 * i + 8), h2. split; [done|]. split; [lia|].
      by replace (8 * (i + 1)) with (8 * i + 8) by lia.
  - rewrite bind_run, Hloop.
    pose proof (bit_text_length l (8 * n) ltac:(lia)) as Hlen.
    destruct rest as [|x rest]; [simpl in Hrest; lia|].
    rewrite bind_run, store_next by first [lia | reflexivity].
    exists rest. split; [by rewrite <- app_assoc|].
    cbn [length] in Hrest. lia.
Qed.

(** X14: [binary] returns a new block that holds one character for each
    bit of the first [n] bytes, in the order of the global bit index (the
    lowest bit of a byte first), then a 0, then 9 bytes that are not
    written; the store is otherwise as it was. The character is 1 for a
    bit that is set and 0 for a bit that is clear, so there are as many 1s
    as bits set. *)
Theorem binary_prints_the_bits (h : heap) (data : ptr) (l : list Z) (n : Z) :
  chunk_at h data = Some (Chars l) ->
  0 <= n <= Z.of_nat (length l) ->
  8 * n + 10 <= INT_MAX ->
  exists text tail,
    binary data n h = Ok (S (length h)) (h ++ [Chars (text ++ 0 :: tail)]) /\
    Z.of_nat (length text) = 8 * n /\
    length tail = 9%nat /\
    c_string (text ++ 0 :: tail) = text /\
    (forall idx, 0 <= idx < 8 * n ->
       cell text idx = Some (if is_set l idx then chr "1" else chr "0")) /\
    Z.of_nat (length (List.filter (Z.eqb (chr "1")) text)) = set_bits l n.
Proof.
  intros Hd Hn Hfit.
  destruct (binary_run h data l n Hd Hn Hfit) as (tail & Hrun & Htail).
  exists (bit_text l (8 * n)), tail.
  split; [done|]. split; [apply bit_text_length; lia|]. split; [done|].
  split; [apply c_string_text, bit_text_nonzero|].
  split; [intros idx Hidx; by apply bit_text_cell|].
  unfold bit_text, set_bits. rewrite filter_map_length. f_equal.
  apply filter_length_ext. intros idx _. by destruct (is_set l idx).
Qed.

(** ** [base64] *)

Lemma base64_range : Forall (fun c => 0 < c < 128) _base64.
Proof. repeat constructor; vm_compute; done. Qed.

Lemma sextet_range x : 0 <= Z.land x 63 < 64.
Proof.
  change 63 with (Z.ones 6). rewrite Z.land_ones by lia.
  apply Z.mod_pos_bound. lia.
Qed.

Lemma base64_digit_in d :
  0 <= d < 64 -> base64_digit d ∈ _base64 /\ 0 < base64_digit d < 128.
Proof.
  intros Hd. unfold base64_digit.
  destruct (cell_lookup _base64 d) as [c Hc]; [done|]. rewrite Hc.
  unfold cell in Hc. destruct (0 <=? d); [|done]. cbn [default from_option id].
  split; [by eapply list_elem_of_lookup_2|].
  pose proof base64_range as Hall. rewrite Forall_lookup in Hall.
  by apply (Hall _ _ Hc).
Qed.

Lemma base64_group_in buf :
  Forall (fun c => c ∈ _base64 /\ 0 < c < 128) (base64_group buf).
Proof.
  unfold base64_group.
  repeat (apply List.Forall_cons; [apply base64_digit_in, sextet_range|]).
  apply List.Forall_nil.
Qed.

Lemma base64_tail_in buf pos :
  Forall (fun c => c ∈ _base64 /\ 0 < c < 128) (base64_tail buf pos).
Proof.
  unfold base64_tail. destruct (pos =? 2); [constructor|].
  destruct (pos =? 0); cbn [app];
    repeat (apply List.Forall_cons; [apply base64_digit_in, sextet_range|]);
    apply List.Forall_nil.
Qed.

Lemma base64_fed_snoc l c : base64_fed (l ++ [c]) = base64_feed (base64_fed l) c.
Proof. unfold base64_fed. by rewrite foldl_app. Qed.

(** After [i] bytes, [4 * (i / 3)] characters are written and [pos] tells
    how many bytes the group under way has. *)
Lemma base64_fed_shape l :
  Z.of_nat (length (base64_fed l).1.1) = 4 * (Z.of_nat (length l) `quot` 3) /\
  (base64_fed l).2 = 2 - Z.of_nat (length l) `rem` 3 /\
  Forall (fun c => c ∈ _base64 /\ 0 < c < 128) (base64_fed l).1.1.
Proof.
  induction l as [|c l (Hlen & Hpos & Hin)] using rev_ind.
  { split; [done|]. split; [done|]. constructor. }
  rewrite base64_fed_snoc, length_app. cbn [length].
  destruct (base64_fed l) as [[text buf] pos]. cbn [fst snd] in *.
  unfold base64_feed. cbn [fst snd].
  assert (0 <= pos <= 2) as Hp by qlia.
  rewrite (to_int_id (pos - 1)) by zlia.
  destruct (Z.ltb_spec (pos - 1) 0); cbn [fst snd].
  - rewrite length_app. cbn [base64_group length].
    split; [qlia|]. split; [qlia|].
    apply Forall_app. split; [done|apply base64_group_in].
  - split; [qlia|]. split; [qlia|done].
Qed.

Lemma to_char_digit c : 0 < c < 128 -> to_char c = c.
Proof. intros Hc. apply to_char_id. lia. Qed.

(** [base64] fills a new block with the text of the first [n] bytes and a 0
    after it; what is left of the block, two bytes at most, holds a second 0
    or is not written. *)
Lemma base64_run h d l n :
  chunk_at h d = Some (Chars l) ->
  0 <= n <= Z.of_nat (length l) -> 4 * ((n + 2) `quot` 3) + 1 <= INT_MAX ->
  exists tail,
    base64 d n h
    = Ok (S (length h))
         (h ++ [Chars (base64_text (take (Z.to_nat n) l) ++ 0 :: tail)]) /\
    Z.of_nat (length (base64_text (take (Z.to_nat n) l) ++ 0 :: tail))
    = 4 * ((n + 2) `quot` 3) + 1.
Proof.
  intros Hd Hn Hfit. unfold base64. rewrite bind_run. unfold palloc at 1.
  assert (0 <= (n + 2) `quot` 3 <= n + 2) as Hq by qlia.
  rewrite (to_int_id (n + 2)) by qlia.
  rewrite (to_int_id (4 * _)), (to_int_id (4 * _ + 1)) by zlia.
  set (size := 4 * ((n + 2) `quot` 3) + 1) in *.
  set (fed := fun i : Z => base64_fed (take (Z.to_nat i) l)).
  set (I := fun (i : Z) (vars : base64_vars) (hh : heap) =>
    b64_k vars = Z.of_nat (length (fed i).1.1) /\
    b64_buf vars = (fed i).1.2 /\ b64_pos vars = (fed i).2 /\
    exists rest, hh = h ++ [Chars ((fed i).1.1 ++ rest)] /\
                 Z.of_nat (length rest) = size - Z.of_nat (length (fed i).1.1)).
  assert (forall i, 0 <= i <= n ->
            Z.of_nat (length (fed i).1.1) = 4 * (i `quot` 3) /\
            (fed i).2 = 2 - i `rem` 3 /\
            Forall (fun c => c ∈ _base64 /\ 0 < c < 128) (fed i).1.1) as Hshape.
  { intros i Hi. unfold fed.
    pose proof (base64_fed_shape (take (Z.to_nat i) l)) as Hs.
    rewrite length_take in Hs. by replace (Z.of_nat (_ `min` _)) with i in Hs by lia. }
  match goal with |- context [for_ 0 n ?body ?s0] =>
    destruct (for_invariant I body 0 n s0 (h ++ [Chars (uninit size)]))
      as (vars & h1 & Hloop & Hk & Hbuf & Hpos & rest & -> & Hrest)
  end.
  - lia.
  - split; [done|]. split; [done|]. split; [done|].
    exists (uninit size). split; [done|]. rewrite uninit_length.
    change ((fed 0).1.1) with (@nil Z). cbn [length]. unfold size. lia.
  - intros i [k buf pos] hh Hi (Hk & Hbuf & Hpos & rest & -> & Hrest).
    cbn [b64_k b64_buf b64_pos] in *.
    destruct (cell_lookup l i) as [c Hc]; [lia|].
    destruct (Hshape i ltac:(lia)) as (Hlen & Hp & _).
    assert (fed (i + 1) = base64_feed (fed i) c) as Hnext.
    { unfold fed. by rewrite (take_next l i c), base64_fed_snoc by (done || lia). }
    unfold I. rewrite Hnext. clear Hnext.
    destruct (fed i) as [[text buf0] pos0]. cbn [fst snd] in *. subst k buf pos.
    rewrite bind_run, (load_char_old _ _ _ _ _ _ Hd Hc).
    unfold base64_feed. cbn [fst snd].
    rewrite (to_int_id (pos0 - 1)) by qlia.
    destruct (Z.ltb_spec (pos0 - 1) 0) as [Hfull|Hmore]; cbn [fst snd].
    + (* the group is full: its four characters are written *)
      set (b := Z.lor buf0 (to_uint32 (to_int (Z.shiftl c (Z.shiftl pos0 3))))).
      destruct (base64_digit_in _ (sextet_range (Z.shiftr b 18))) as [_ H0].
      destruct (base64_digit_in _ (sextet_range (Z.shiftr b 12))) as [_ H1].
      destruct (base64_digit_in _ (sextet_range (Z.shiftr b 6))) as [_ H2].
      destruct (base64_digit_in _ (sextet_range b)) as [_ H3].
      unfold base64_group.
      destruct rest as [|x0 [|x1 [|x2 [|x3 rest]]]];
        try (cbn [length] in Hrest; qlia).
      rewrite bind_run, store_next by (rewrite ?to_char_digit; done || lia).
      rewrite bind_run, store_next
        by (rewrite ?to_char_digit, ?length_app; done || (cbn [length]; lia)).
      rewrite bind_run, store_next
        by (rewrite ?to_char_digit, ?length_app; done || (cbn [length]; lia)).
      rewrite bind_run, store_next
        by (rewrite ?to_char_digit, ?length_app; done || (cbn [length]; lia)).
      eexists _, _. split; [reflexivity|]. cbn [b64_k b64_buf b64_pos].
      rewrite !length_app. cbn [length base64_group].
      split; [lia|]. split; [done|]. split; [done|].
      exists rest. split; [by rewrite <- !app_assoc|].
      cbn [length] in Hrest. lia.
    + eexists _, _. split; [reflexivity|]. cbn [b64_k b64_buf b64_pos].
      split; [done|]. split; [done|]. split; [done|].
      by exists rest.
  - rewrite bind_run, Hloop.
    destruct (Hshape n ltac:(lia)) as (Hlen & Hp & _).
    unfold base64_text. fold (fed n).
    destruct vars as [k buf pos]. cbn [b64_k b64_buf b64_pos] in *.
    destruct (fed n) as [[text buf0] pos0]. cbn [fst snd] in *. subst k buf pos.
    unfold base64_tail.
    destruct (Z.eqb_spec pos0 2) as [Hnone|Hsome]; cbn [negb].
    + (* no group is under way *)
      destruct rest as [|x0 rest]; [cbn [length] in Hrest; qlia|].
      rewrite bind_run. change (ret ?a ?hh) with (Ok a hh). cbv beta iota.
      rewrite bind_run, store_next by first [lia | reflexivity].
      exists rest. split; [by rewrite app_nil_r, <- app_assoc|].
      rewrite !length_app. cbn [length] in *. unfold size in Hrest. qlia.
    + destruct (base64_digit_in _ (sextet_range (Z.shiftr buf0 18))) as [_ H0].
      destruct (base64_digit_in _ (sextet_range (Z.shiftr buf0 12))) as [_ H1].
      destruct (base64_digit_in _ (sextet_range (Z.shiftr buf0 6))) as [_ H2].
      destruct rest as [|x0 [|x1 [|x2 [|x3 rest]]]];
        try (cbn [length] in Hrest; unfold size in Hrest; qlia).
      rewrite bind_run, bind_run.
      rewrite store_next by (rewrite ?to_char_digit; done || lia).
      rewrite bind_run, store_next
        by (rewrite ?to_char_digit, ?length_app; done || (cbn [length]; lia)).
      rewrite bind_run.
      destruct (Z.eqb_spec pos0 0) as [Htwo|Hone].
      * rewrite store_next
          by (rewrite ?to_char_digit, ?length_app; done || (cbn [length]; lia)).
        change (ret ?a ?hh) with (Ok a hh). cbv beta iota.
        rewrite bind_run, store_next
          by first [rewrite !length_app; cbn [length]; lia | reflexivity].
        exists rest. split; [by rewrite <- !app_assoc|].
        rewrite !length_app. cbn [length] in *. unfold size in Hrest. qlia.
      * rewrite store_next
          by first [rewrite !length_app; cbn [length]; lia | reflexivity].
        change (ret ?a ?hh) with (Ok a hh). cbv beta iota.
        rewrite bind_run, store_next
          by first [rewrite !length_app; cbn [length]; lia | reflexivity].
        exists (0 :: rest). split; [by rewrite app_nil_r, <- !app_assoc|].
        rewrite !length_app. cbn [length] in *. unfold size in Hrest. qlia.
Qed.

Lemma base64_text_shape l :
  Z.of_nat (length (base64_text l))
  = 4 * (Z.of_nat (length l) `quot` 3)
    + (if Z.of_nat (length l) `rem` 3 =? 0 then 0 else Z.of_nat (length l) `rem` 3 + 1) /\
  Forall (fun c => c ∈ _base64 /\ 0 < c < 128) (base64_text l).
Proof.
  destruct (base64_fed_shape l) as (Hlen & Hpos & Hin).
  unfold base64_text. split.
  - rewrite length_app, Nat2Z.inj_add, Hlen, Hpos. unfold base64_tail.
    destruct (Z.eqb_spec (2 - Z.of_nat (length l) `rem` 3) 2) as [E|E].
    + destruct (Z.eqb_spec (Z.of_nat (length l) `rem` 3) 0); [simpl|]; lia.
    + destruct (Z.eqb_spec (Z.of_nat (length l) `rem` 3) 0); [lia|].
      destruct (Z.eqb_spec (2 - Z.of_nat (length l) `rem` 3) 0); cbn [app length]; qlia.
  - apply Forall_app. split; [done|apply base64_tail_in].
Qed.

(** X15: [base64] returns a new block of [4 * ((n + 2) / 3) + 1] bytes and
    writes inside it only; the store is otherwise as it was. The block
    starts with a C string of characters of the base64 alphabet: four for
    every three bytes, and two or three for one or two bytes that are left,
    with no padding. *)
Theorem base64_writes_unpadded_text (h : heap) (data : ptr) (l : list Z) (n : Z) :
  chunk_at h data = Some (Chars l) ->
  0 <= n <= Z.of_nat (length l) ->
  4 * ((n + 2) `quot` 3) + 1 <= INT_MAX ->
  exists text tail,
    base64 data n h = Ok (S (length h)) (h ++ [Chars (text ++ 0 :: tail)]) /\
    c_string (text ++ 0 :: tail) = text /\
    Forall (fun c => c ∈ _base64) text /\
    Z.of_nat (length text)
    = 4 * (n `quot` 3) + (if n `rem` 3 =? 0 then 0 else n `rem` 3 + 1) /\
    Z.of_nat (length (text ++ 0 :: tail)) = 4 * ((n + 2) `quot` 3) + 1.
Proof.
  intros Hd Hn Hfit.
  destruct (base64_run h data l n Hd Hn Hfit) as (tail & Hrun & Hsize).
  destruct (base64_text_shape (take (Z.to_nat n) l)) as (Hlen & Hin).
  rewrite length_take in Hlen.
  replace (Z.of_nat (Z.to_nat n `min` length l)) with n in Hlen by lia.
  exists (base64_text (take (Z.to_nat n) l)), tail.
  split; [done|]. split.
  { apply c_string_text. eapply Forall_impl; [exact Hin|]. simpl. lia. }
  split; [|done].
  eapply Forall_impl; [exact Hin|]. by intros c [? _].
Qed.

(** The bytes come back from the text when none of them is negative as a
    [char]. *)

Lemma lor_low x y k :
  0 <= k -> 0 <= y < 2 ^ k -> Z.lor (x * 2 ^ k) y = x * 2 ^ k + y.
Proof.
  intros Hk Hy. symmetry. apply Z.add_nocarry_lor.
  apply Z.bits_inj'. intros m Hm. rewrite Z.land_spec, Z.bits_0.
  destruct (Z.ltb_spec m k).
  - by rewrite Z.mul_pow2_bits_low.
  - rewrite <- (Z.mod_small y (2 ^ k)) by lia.
    rewrite Z.mod_pow2_bits_high by lia. apply andb_false_r.
Qed.

Lemma base64_feed_first text a :
  0 <= a <= 127 -> base64_feed (text, 0, 2) a = (text, a * 65536, 1).
Proof.
  intros Ha. unfold base64_feed. cbn [fst snd].
  change (Z.shiftl 2 3) with 16. rewrite Z.shiftl_mul_pow2 by lia.
  change (2 ^ 16) with 65536. change (to_int (2 - 1)) with 1.
  rewrite (to_int_id (a * 65536)) by zlia.
  unfold to_uint32. rewrite Z.mod_small by lia.
  done.
Qed.

Lemma base64_feed_second text a b :
  0 <= a <= 127 -> 0 <= b <= 127 ->
  base64_feed (text, a * 65536, 1) b = (text, a * 65536 + b * 256, 0).
Proof.
  intros Ha Hb. unfold base64_feed. cbn [fst snd].
  change (Z.shiftl 1 3) with 8. rewrite Z.shiftl_mul_pow2 by lia.
  change (2 ^ 8) with 256. change (to_int (1 - 1)) with 0.
  rewrite (to_int_id (b * 256)) by zlia.
  unfold to_uint32. rewrite Z.mod_small by lia.
  change 65536 with (2 ^ 16). rewrite lor_low by lia. done.
Qed.

Lemma base64_feed_third text a b c :
  0 <= a <= 127 -> 0 <= b <= 127 -> 0 <= c <= 127 ->
  base64_feed (text, a * 65536 + b * 256, 0) c
  = (text ++ base64_group (a * 65536 + b * 256 + c), 0, 2).
Proof.
  intros Ha Hb Hc. unfold base64_feed. cbn [fst snd].
  change (Z.shiftl 0 3) with 0. rewrite Z.shiftl_0_r.
  change (to_int (0 - 1)) with (-1).
  rewrite (to_int_id c) by zlia.
  unfold to_uint32. rewrite Z.mod_small by lia.
  replace (a * 65536 + b * 256) with ((a * 256 + b) * 2 ^ 8) by lia.
  rewrite lor_low by lia.
  by replace ((a * 256 + b) * 2 ^ 8 + c) with (a * 65536 + b * 256 + c) by lia.
Qed.

Lemma base64_feed_prefix pre l text buf pos :
  foldl base64_feed (pre ++ text, buf, pos) l
  = (pre ++ (foldl base64_feed (text, buf, pos) l).1.1,
     (foldl base64_feed (text, buf, pos) l).1.2,
     (foldl base64_feed (text, buf, pos) l).2).
Proof.
  revert text buf pos. induction l as [|c l IH]; intros text buf pos; [done|].
  cbn [foldl].
  assert (base64_feed (pre ++ text, buf, pos) c
          = (pre ++ (base64_feed (text, buf, pos) c).1.1,
             (base64_feed (text, buf, pos) c).1.2,
             (base64_feed (text, buf, pos) c).2)) as ->.
  { unfold base64_feed. cbn [fst snd].
    destruct (to_int (pos - 1) <? 0); cbn [fst snd]; [by rewrite app_assoc|done]. }
  destruct (base64_feed (text, buf, pos) c) as [[t b] p]. apply IH.
Qed.

Lemma base64_text_group a b c rest :
  0 <= a <= 127 -> 0 <= b <= 127 -> 0 <= c <= 127 ->
  base64_text (a :: b :: c :: rest)
  = base64_group (a * 65536 + b * 256 + c) ++ base64_text rest.
Proof.
  intros Ha Hb Hc. unfold base64_text, base64_fed. cbn [foldl].
  rewrite base64_feed_first, base64_feed_second, base64_feed_third by done.
  change ([] ++ base64_group ?x) with (base64_group x).
  rewrite <- (app_nil_r (base64_group _)) at 1 2 3.
  rewrite base64_feed_prefix. cbn [fst snd].
  by rewrite <- app_assoc.
Qed.

Lemma base64_value_digit d : 0 <= d < 64 -> base64_value (base64_digit d) = Some d.
Proof.
  intros Hd. rewrite <- (Z2Nat.id d) by lia.
  assert (Z.to_nat d < 64)%nat as Hn by lia.
  generalize dependent (Z.to_nat d). intros n Hn.
  do 64 (destruct n as [|n]; [reflexivity|]). lia.
Qed.

Lemma sextet_value buf k :
  0 <= k -> Z.land (Z.shiftr buf k) 63 = (buf `div` 2 ^ k) `mod` 64.
Proof.
  intros Hk. change 63 with (Z.ones 6).
  by rewrite Z.land_ones, Z.shiftr_div_pow2 by lia.
Qed.

Lemma sextet_low buf : Z.land buf 63 = buf `mod` 64.
Proof. change 63 with (Z.ones 6). by rewrite Z.land_ones by lia. Qed.

Lemma unbase64_base64_text l :
  Forall (fun c => 0 <= c <= 127) l -> unbase64 (base64_text l) = Some l.
Proof.
  assert (forall m l, (length l < m)%nat ->
            Forall (fun c => 0 <= c <= 127) l -> unbase64 (base64_text l) = Some l)
    as Hall; [|intros Hl; apply (Hall (S (length l))); [lia|done]].
  clear l. intros m. induction m as [|m IH]; intros l Hm Hl; [lia|].
  destruct l as [|a [|b [|c rest]]].
  - done.
  - apply Forall_cons in Hl as [Ha _].
    unfold base64_text, base64_fed. cbn [foldl].
    rewrite base64_feed_first by done. cbn [fst snd]. unfold base64_tail.
    change (1 =? 2) with false. change (1 =? 0) with false. cbn [app unbase64].
    rewrite !sextet_value, !base64_value_digit by (try apply Z.mod_pos_bound; lia).
    do 2 f_equal.
    change (2 ^ 18) with 262144. change (2 ^ 12) with 4096.
    Z.to_euclidean_division_equations. lia.
  - apply Forall_cons in Hl as [Ha Hl]. apply Forall_cons in Hl as [Hb _].
    unfold base64_text, base64_fed. cbn [foldl].
    rewrite base64_feed_first, base64_feed_second by done.
    cbn [fst snd]. unfold base64_tail.
    change (0 =? 2) with false. change (0 =? 0) with true. cbn [app unbase64].
    rewrite !sextet_value, !base64_value_digit by (try apply Z.mod_pos_bound; lia).
    change (2 ^ 18) with 262144. change (2 ^ 12) with 4096. change (2 ^ 6) with 64.
    f_equal. f_equal; [|f_equal]; Z.to_euclidean_division_equations; lia.
  - apply Forall_cons in Hl as [Ha Hl]. apply Forall_cons in Hl as [Hb Hl].
    apply Forall_cons in Hl as [Hc Hl].
    rewrite base64_text_group by done. cbn [base64_group app unbase64].
    rewrite (IH rest) by (done || (cbn [length] in Hm; lia)).
    rewrite !sextet_value, sextet_low by lia.
    rewrite !base64_value_digit by (apply Z.mod_pos_bound; lia).
    change (2 ^ 18) with 262144. change (2 ^ 12) with 4096. change (2 ^ 6) with 64.
    f_equal. f_equal; [|f_equal; [|f_equal]]; Z.to_euclidean_division_equations; lia.
Qed.

(** X16: when none of the first [n] bytes is negative as a [char], the
    text that [base64] writes for them reads back as these bytes. *)
Theorem base64_reads_back (h : heap) (data : ptr) (l : list Z) (n : Z) :
  chunk_at h data = Some (Chars l) ->
  0 <= n <= Z.of_nat (length l) ->
  4 * ((n + 2) `quot` 3) + 1 <= INT_MAX ->
  Forall (fun c => 0 <= c <= 127) (take (Z.to_nat n) l) ->
  exists text tail,
    base64 data n h = Ok (S (length h)) (h ++ [Chars (text ++ 0 :: tail)]) /\
    c_string (text ++ 0 :: tail) = text /\
    unbase64 text = Some (take (Z.to_nat n) l).
Proof.
  intros Hd Hn Hfit Hascii.
  destruct (base64_run h data l n Hd Hn Hfit) as (tail & Hrun & _).
  destruct (base64_text_shape (take (Z.to_nat n) l)) as (_ & Hin).
  exists (base64_text (take (Z.to_nat n) l)), tail.
  split; [done|]. split.
  { apply c_string_text. eapply Forall_impl; [exact Hin|]. simpl. lia. }
  by apply unbase64_base64_text.
Qed.

(** ** The two passes of [bitmap_add_heap_items] *)

Lemma same_layout_refl st : same_layout st st.
Proof. done. Qed.

Lemma same_layout_trans st1 st2 st3 :
  same_layout st1 st2 -> same_layout st2 st3 -> same_layout st1 st3.
Proof.
  intros (? & ? & ?) (? & ? & ?). unfold same_layout.
  split; [congruence|]. split; congruence.
Qed.

Lemma slots_updated_none base upd dt : slots_updated base 0 upd dt dt.
Proof.
  intros idx. destruct (Z.leb_spec base idx), (Z.ltb_spec idx (base + 0));
    cbn [andb]; try lia; by destruct (bit_at dt idx).
Qed.

Lemma slots_updated_next base i upd dt dt1 dt2 :
  0 <= i ->
  slots_updated base i upd dt dt1 ->
  slots_updated (base + i) 1 (fun _ => upd i) dt1 dt2 ->
  slots_updated base (i + 1) upd dt dt2.
Proof.
  intros Hi H1 H2 idx. rewrite H2, H1.
  destruct (Z.leb_spec (base + i) idx), (Z.ltb_spec idx (base + i + 1)),
    (Z.leb_spec base idx), (Z.ltb_spec idx (base + i)),
    (Z.ltb_spec idx (base + (i + 1))); cbn [andb]; try lia;
    destruct (bit_at dt idx) as [b|]; cbn; try done.
  by replace (idx - base) with i by lia.
Qed.

(** A loop over the slots of a page whose every turn changes the bit of
    its slot only, and counts no error. *)
Lemma slots_pass N bm K (body : Z -> Z -> M Z) (upd : Z -> bool -> bool) h st base n :
  0 <= n -> in_order N bm K h -> view h bm = Some st ->
  (forall i hh sti, 0 <= i < n ->
     in_order N bm K hh -> view hh bm = Some sti -> same_layout st sti ->
     exists h2 st2,
       body i 0 hh = Ok 0 h2 /\ in_order N bm K h2 /\
       view h2 bm = Some st2 /\ same_layout sti st2 /\
       slots_updated (base + i) 1 (fun _ => upd i) (bits sti) (bits st2)) ->
  exists h' st',
    for_ 0 n body 0 h = Ok 0 h' /\ in_order N bm K h' /\
    view h' bm = Some st' /\ same_layout st st' /\
    slots_updated base n upd (bits st) (bits st').
Proof.
  intros Hn Hrun Hv Hbody.
  set (I := fun (i nerrs : Z) (hh : heap) =>
    nerrs = 0 /\ in_order N bm K hh /\
    exists sti, view hh bm = Some sti /\ same_layout st sti /\
                slots_updated base i upd (bits st) (bits sti)).
  destruct (for_invariant I body 0 n 0 h Hn) as (nerrs & h' & Hloop & -> & Hrun' & st' & H').
  - split; [done|]. split; [done|]. exists st.
    split; [done|]. split; [done|]. apply slots_updated_none.
  - intros i nerrs hh Hi (-> & Hrun_i & sti & Hvi & Hlay & Hupd).
    destruct (Hbody i hh sti Hi Hrun_i Hvi Hlay) as (h2 & st2 & Hb & Hrun2 & Hv2 & Hlay2 & Hupd2).
    exists 0, h2. split; [done|]. split; [done|]. split; [done|].
    exists st2. split; [done|]. split; [by eapply same_layout_trans|].
    eapply slots_updated_next; [lia|done|done].
  - exists h', st'. by destruct H' as (? & ? & ?).
Qed.

Lemma slots_updated_one_kept base upd dt :
  (forall b, bit_at dt base = Some b -> upd b = b) ->
  slots_updated base 1 (fun _ => upd) dt dt.
Proof.
  intros Hkeep idx.
  destruct (Z.leb_spec base idx), (Z.ltb_spec idx (base + 1)); cbn [andb];
    destruct (bit_at dt idx) as [b|] eqn:Hb; cbn; try done.
  assert (idx = base) as -> by lia. by rewrite (Hkeep b).
Qed.

Lemma slots_updated_one_set base upd dt dt' state :
  bit_at dt' base = Some state ->
  (forall idx, idx <> base -> bit_at dt' idx = bit_at dt idx) ->
  (forall b, bit_at dt base = Some b -> upd b = state) ->
  is_Some (bit_at dt base) ->
  slots_updated base 1 (fun _ => upd) dt dt'.
Proof.
  intros Hbit Hother Hupd [b0 Hb0] idx.
  destruct (Z.leb_spec base idx), (Z.ltb_spec idx (base + 1)); cbn [andb].
  - assert (idx = base) as -> by lia. rewrite Hbit, Hb0. cbn. by rewrite (Hupd b0).
  - rewrite Hother by lia. by destruct (bit_at dt idx).
  - rewrite Hother by lia. by destruct (bit_at dt idx).
  - rewrite Hother by lia. by destruct (bit_at dt idx).
Qed.

Lemma addressable_bit st page item idx :
  addressable st page item -> index_of (offsets st) page item = Some idx ->
  is_Some (bit_at (bits st) idx).
Proof.
  intros (idx0 & count & Hidx & _ & Hpos & _ & Hlen & _) Hidx'.
  assert (idx0 = idx) as -> by congruence.
  unfold bit_at. destruct (cell_lookup (bits st) (idx `quot` 8)) as [c ->]; [qlia|].
  by eexists.
Qed.

(** A turn of the first loop, for a slot that passes the checks. *)
Lemma first_pass_slot N bm K h st header page item idx :
  in_order N bm K h -> view h bm = Some st ->
  addressable st page item -> index_of (offsets st) page item = Some idx ->
  exists h2 st2,
    first_pass bm header page item 0 h = Ok 0 h2 /\ in_order N bm K h2 /\
    view h2 bm = Some st2 /\ same_layout st st2 /\
    slots_updated idx 1 (fun _ b => ItemIdIsUsed (pd_linp header item) || b)
      (bits st) (bits st2).
Proof.
  intros Hrun Hv Ha Hidx.
  destruct (ItemIdIsUsed (pd_linp header item)) eqn:Hused.
  - destruct (addressable_update _ _ _ true Ha) as (dt & Hup).
    destruct (item_update_bits _ _ _ _ _ idx Hup Hidx) as (Hbit & Hother & _).
    exists (heap_set h (data (hdr st)) (Chars dt)), (with_bits st dt).
    split; [by apply (first_pass_used h bm st header page item 0 true dt)|].
    split.
    { eapply in_order_item; [exact Hrun|].
      by rewrite (bitmap_set_item_run _ _ _ _ _ _ Hv), Hup. }
    split; [by apply view_heap_set_bits|].
    split; [by eapply item_update_layout|].
    fields. apply (slots_updated_one_set _ _ _ _ true); try done.
    by eapply addressable_bit.
  - exists h, st. split; [unfold first_pass; by rewrite Hused|].
    split; [done|]. split; [done|]. split; [done|].
    by apply slots_updated_one_kept.
Qed.

(** A turn of the second loop, for a slot that passes the checks: the bit
    is cleared when the tuple is heap-only. The byte is what
    [bitmap_get_item] looks at, and a byte of 0 has the bit clear
    already. *)
Lemma second_pass_slot N bm K h st header raw_page page item idx :
  in_order N bm K h -> view h bm = Some st ->
  addressable st page item -> index_of (offsets st) page item = Some idx ->
  exists h2 st2,
    second_pass bm header raw_page page item 0 h = Ok 0 h2 /\ in_order N bm K h2 /\
    view h2 bm = Some st2 /\ same_layout st st2 /\
    slots_updated idx 1
      (fun _ b => b && negb (HeapTupleHeaderIsHeapOnly
                               (PageGetItem raw_page (pd_linp header item))))
      (bits st) (bits st2).
Proof.
  intros Hrun Hv Ha Hidx.
  destruct (HeapTupleHeaderIsHeapOnly (PageGetItem raw_page (pd_linp header item)))
    eqn:Hhot.
  - destruct (addressable_probe _ _ _ Ha) as (idx0 & c & Hidx0 & Hc & Hpr).
    assert (idx0 = idx) as -> by congruence.
    destruct (Z.eqb_spec c 0) as [->|Hne]; cbn [negb] in Hpr.
    + exists h, st. split; [by apply (second_pass_unset h bm st)|].
      split; [done|]. split; [done|]. split; [done|].
      apply slots_updated_one_kept. intros b. unfold bit_at. rewrite Hc.
      intros [= <-]. by rewrite Z.bits_0.
    + destruct (addressable_update _ _ _ false Ha) as (dt & Hup).
      destruct (item_update_bits _ _ _ _ _ idx Hup Hidx) as (Hbit & Hother & _).
      exists (heap_set h (data (hdr st)) (Chars dt)), (with_bits st dt).
      split;
        [by apply (second_pass_cleared h bm st header raw_page page item 0 true dt)|].
      split.
      { eapply in_order_item; [exact Hrun|].
        by rewrite (bitmap_set_item_run _ _ _ _ _ _ Hv), Hup. }
      split; [by apply view_heap_set_bits|].
      split; [by eapply item_update_layout|].
      fields. apply (slots_updated_one_set _ _ _ _ false); try done.
      * intros b _. apply andb_false_r.
      * by eapply addressable_bit.
  - exists h, st. split; [by apply second_pass_kept|].
    split; [done|]. split; [done|]. split; [done|].
    apply slots_updated_one_kept. intros b _. apply andb_true_r.
Qed.

Lemma is_set_app_zeroes dt m idx : is_set (dt ++ replicate m 0) idx = is_set dt idx.
Proof.
  unfold is_set. destruct (bit_at dt idx) as [b|] eqn:Hb.
  { by rewrite (bit_at_app _ _ _ _ Hb). }
  unfold bit_at, cell in *. destruct (Z.leb_spec 0 (idx `quot` 8)); [|done].
  destruct (dt !! Z.to_nat (idx `quot` 8)) as [c|] eqn:Hc; [done|].
  apply lookup_ge_None in Hc. rewrite lookup_app_r by done.
  destruct (replicate m 0 !! _) as [c|] eqn:Hz; [|done].
  apply lookup_replicate in Hz as [-> _]. cbn. apply Z.bits_0.
Qed.

(** The bit index of the first item of the page that is registered next:
    the cumulative count of the page before it. *)
Lemma next_page_base st k base :
  sized st -> tidy st k -> Z.of_nat k < npages (hdr st) ->
  index_of (offsets st) (Z.of_nat k) 0 = Some base ->
  match k with
  | O => base = 0
  | S k' => offsets st !! k' = Some base
  end.
Proof.
  intros (Hnp & _) (_ & _ & Hlast) Hk. unfold index_of.
  destruct k as [|k]; [by intros [= <-]|].
  destruct (Z.eqb_spec (Z.of_nat (S k)) 0); [lia|].
  rewrite to_int_id by zlia.
  replace (Z.of_nat (S k) - 1) with (Z.of_nat k) by lia. rewrite cell_of_nat.
  destruct Hlast as (x & Hx & Hix & _). rewrite Hx, Z.add_0_r.
  rewrite to_int_id by done. by intros [= <-].
Qed.

(** X17: in a run that registers the pages in order,
    [bitmap_add_heap_items] for the next page registers it with the number
    of line pointers of the page and counts no error. For every item of
    the page the bit is left set when the line pointer is in use, or the bit
    was set already, and the tuple is not heap-only; it is left clear
    otherwise. The bits outside the page are as before, and the run can go
    on with the page after. The cumulative count with 7 added must be one
    an [int] holds. *)
Theorem heap_items_of_the_next_page (N : Z) (bitmap : ptr) (k : nat) (h : heap)
    (st : bitmap_state) (header raw_page : PageImage) (base : Z) :
  MaxHeapTuplesPerPage <= 8 * PALLOC_CHUNK ->
  N <= INT_MAX ->
  in_order N bitmap k h -> Z.of_nat k < N ->
  view h bitmap = Some st ->
  0 <= PageGetMaxOffsetNumber raw_page <= MaxHeapTuplesPerPage ->
  index_of (offsets st) (Z.of_nat k) 0 = Some base ->
  0 <= base -> base + PageGetMaxOffsetNumber raw_page + 7 <= INT_MAX ->
  exists h' st',
    bitmap_add_heap_items bitmap header raw_page (Z.of_nat k) h = Ok 0 h' /\
    in_order N bitmap (S k) h' /\
    view h' bitmap = Some st' /\
    cell (offsets st') (Z.of_nat k) = Some (base + PageGetMaxOffsetNumber raw_page) /\
    (forall item, 0 <= item < PageGetMaxOffsetNumber raw_page ->
       item_bit st' (Z.of_nat k) item
       = Some (slot_bit header raw_page item (is_set (bits st) (base + item)))) /\
    (forall idx, idx < base \/ base + PageGetMaxOffsetNumber raw_page <= idx ->
       is_set (bits st') idx = is_set (bits st) idx).
Proof.
  intros Hmax HN Hrun Hk Hv Hn Hbase Hb0 Hfit.
  set (n := PageGetMaxOffsetNumber raw_page) in *.
  destruct (in_order_invariant N bitmap k h Hmax HN Hrun) as (st0 & Hv0 & Hsz & Htidy & Hnp).
  assert (st0 = st) as -> by congruence. clear Hv0.
  pose proof (next_page_base st k base Hsz Htidy ltac:(lia) Hbase) as Hprev.
  (* the page is registered *)
  destruct (bitmap_add_page_run h bitmap st (Z.of_nat k) n Hv Hsz ltac:(lia) Hn)
    as (t & h1 & Ht & Hadd & Hv1 & _).
  set (st1 := registered st (Z.of_nat k) t (S (length h))) in *.
  pose proof (tidy_kept st k n t (S (length h)) Hmax Hn Hsz ltac:(lia) Htidy Ht)
    as (Hfit1 & _ & Hlast1).
  pose proof (registered_sized st (Z.of_nat k) t (S (length h)) Hsz) as Hsz1.
  fold st1 in Hfit1, Hlast1, Hsz1.
  assert (t = base + n) as ->.
  { destruct k as [|k'].
    - rewrite page_total_first in Ht. injection Ht as <-. lia.
    - rewrite (page_total_next _ _ _ base) in Ht by (done || lia).
      injection Ht as <-. rewrite to_int_id by zlia. lia. }
  assert (offsets st1 = set_cell (offsets st) (Z.of_nat k) (base + n)) as Hoff1
    by apply registered_offsets.
  assert (nbytes (hdr st1) = bytes_for (base + n)) as Hnb1 by apply registered_nbytes.
  assert (npages (hdr st1) = N) as Hnp1.
  { unfold st1. by rewrite registered_npages. }
  assert (cell (offsets st1) (Z.of_nat k) = Some (base + n)) as Hcount.
  { rewrite Hoff1. apply cell_set_cell_eq. destruct Hsz as (? & ? & _). lia. }
  assert (forall item, 0 <= item < n ->
            index_of (offsets st1) (Z.of_nat k) item = Some (base + item)) as Hindex.
  { intros item Hitem. unfold index_of. rewrite Hoff1.
    destruct k as [|k'].
    - cbn. rewrite to_int_id by zlia. f_equal. lia.
    - destruct (Z.eqb_spec (Z.of_nat (S k')) 0); [lia|].
      rewrite to_int_id by zlia.
      rewrite cell_set_cell_ne by lia.
      replace (Z.of_nat (S k') - 1) with (Z.of_nat k') by lia.
      rewrite cell_of_nat, Hprev. by rewrite to_int_id by zlia. }
  assert (forall st2 item, same_layout st1 st2 -> 0 <= item < n ->
            addressable st2 (Z.of_nat k) item /\
            index_of (offsets st2) (Z.of_nat k) item = Some (base + item)) as Haddr.
  { intros st2 item Hlay Hitem.
    assert (addressable st1 (Z.of_nat k) item) as Ha.
    { exists (base + item), (base + n).
      destruct Hsz1 as (_ & _ & _ & Hlb1).
      assert (nbytes (hdr st1) = (base + n + 7) `quot` 8) as Hnb.
      { rewrite Hnb1. unfold bytes_for. by rewrite to_int_id by zlia. }
      split; [by apply Hindex|]. split; [lia|]. split; [lia|].
      split; [qlia|]. split; [qlia|]. split; [done|lia]. }
    split; [by eapply addressable_same_layout|].
    destruct Hlay as (_ & -> & _). by apply Hindex. }
  assert (in_order N bitmap (S k) h1) as Hrun1 by (by eapply in_order_page).
  (* the first pass *)
  destruct (slots_pass N bitmap (S k) (first_pass bitmap header (Z.of_nat k))
              (fun i b => ItemIdIsUsed (pd_linp header i) || b) h1 st1 base n)
    as (h2 & st2 & Hpass1 & Hrun2 & Hv2 & Hlay2 & Hupd2); [lia|done|done| |].
  { intros i hh sti Hi Hrun_i Hvi Hlay.
    destruct (Haddr sti i Hlay Hi) as (Ha & Hidx).
    by apply (first_pass_slot N bitmap (S k) hh sti header (Z.of_nat k) i). }
  (* the second pass *)
  destruct (slots_pass N bitmap (S k) (second_pass bitmap header raw_page (Z.of_nat k))
              (fun i b => b && negb (HeapTupleHeaderIsHeapOnly
                                       (PageGetItem raw_page (pd_linp header i))))
              h2 st2 base n)
    as (h3 & st3 & Hpass2 & Hrun3 & Hv3 & Hlay3 & Hupd3); [lia|done|done| |].
  { intros i hh sti Hi Hrun_i Hvi Hlay.
    destruct (Haddr sti i (same_layout_trans _ _ _ Hlay2 Hlay) Hi) as (Ha & Hidx).
    by apply (second_pass_slot N bitmap (S k) hh sti header raw_page (Z.of_nat k) i). }
  pose proof (same_layout_trans _ _ _ Hlay2 Hlay3) as Hlay13.
  destruct (registered_growth st (Z.of_nat k) (base + n) (S (length h)))
    as (g & _ & _ & Hbits1).
  { destruct Hsz as (_ & _ & ? & _). lia. }
  fold st1 in Hbits1.
  exists h3, st3. split.
  { unfold bitmap_add_heap_items. fold n.
    by rewrite bind_run, Hadd, bind_run, Hpass1. }
  split; [done|]. split; [done|].
  split.
  { destruct Hlay13 as (_ & -> & _). done. }
  split.
  - intros item Hitem.
    destruct (Haddr st3 item Hlay13 Hitem) as (Ha & Hidx).
    unfold item_bit. rewrite Hidx, Hupd3, Hupd2.
    destruct (Z.leb_spec base (base + item)); [|lia].
    destruct (Z.ltb_spec (base + item) (base + n)); [|lia]. cbn [andb].
    destruct (Haddr st1 item (same_layout_refl st1) Hitem) as (Ha1 & Hidx1).
    destruct (addressable_bit _ _ _ _ Ha1 Hidx1) as [b0 Hold].
    rewrite Hold. cbn. f_equal. unfold slot_bit.
    replace (base + item - base) with item by lia.
    assert (b0 = is_set (bits st) (base + item)) as ->; [|done].
    rewrite <- (is_set_app_zeroes (bits st) (Z.to_nat (g * PALLOC_CHUNK))), <- Hbits1.
    unfold is_set. by rewrite Hold.
  - intros idx Hidx.
    rewrite <- (is_set_app_zeroes (bits st) (Z.to_nat (g * PALLOC_CHUNK)) idx), <- Hbits1.
    unfold is_set. rewrite Hupd3, Hupd2.
    destruct (Z.leb_spec base idx), (Z.ltb_spec idx (base + n)); cbn [andb];
      try lia; by destruct (bit_at (bits st1) idx).
Qed.

(** ** The errors that [bitmap_add_index_items] counts *)



(** ** Every item has a bit of its own *)

(** The layout that registering the pages in order gives: the offsets are
    the sums of the counts, and the bytes in use, which the buffer has, hold
    a bit for every item. *)
Lemma build_layout h N counts :
  MaxHeapTuplesPerPage <= 8 * PALLOC_CHUNK ->
  0 <= N <= INT_MAX -> Z.of_nat (length counts) = N -> counts_ok counts ->
  total counts + 7 <= INT_MAX ->
  exists h0 st0,
    build N counts h = Ok (S (length h)) h0 /\
    view h0 (S (length h)) = Some st0 /\ sized st0 /\ npages (hdr st0) = N /\
    (forall i, (i < length counts)%nat ->
       offsets st0 !! i = Some (total (take (S i) counts))) /\
    nbytes (hdr st0) <= maxBytes (hdr st0) /\
    ((0 < length counts)%nat -> nbytes (hdr st0) = (total counts + 7) `quot` 8).
Proof.
  intros Hmax HN Hlen Hok Hfit.
  set (P := fun st k =>
    (forall i, (i < k)%nat -> offsets st !! i = Some (total (take (S i) counts))) /\
    tidy st k).
  destruct (build_invariant P h N counts HN) as (h0 & st0 & Hrun & Hv & Hsz & (Hsum & Htidy) & Hnp).
  - lia.
  - done.
  - intros st k c t d Hsz Hl (Hsum & Htidy) Hc Ht. split.
    + apply (prefix_sums_kept counts st k c t d); (done || lia).
    + assert (0 <= c <= MaxHeapTuplesPerPage) as Hcb.
      { unfold counts_ok in Hok. rewrite Forall_lookup in Hok. by apply (Hok k). }
      apply lookup_lt_Some in Hc.
      apply (tidy_kept st k c t d); (done || lia).
  - intros pg dt. split; [intros i Hi; lia|].
    pose proof (initial_capacity_bounds N HN).
    unfold tidy, initial_state. fields. zlia.
  - exists h0, st0. split; [done|]. split; [done|]. split; [done|]. split; [done|].
    split; [done|]. destruct Htidy as (Hfit' & _ & Hlast). split; [done|].
    intros Hpos. destruct (length counts) as [|k'] eqn:Hk; [lia|].
    destruct Hlast as (x & Hx & _ & ->).
    rewrite Hsum in Hx by lia. injection Hx as <-.
    pose proof (total_nonneg counts (counts_ok_nonneg _ Hok)).
    rewrite take_ge by lia. unfold bytes_for. by rewrite to_int_id by zlia.
Qed.

(** The bit index of an item: the items of the pages before it, and its
    place in its page. *)
Lemma item_index counts st page item :
  counts_ok counts -> total counts + 7 <= INT_MAX ->
  sized st -> Z.of_nat (length counts) = npages (hdr st) ->
  (forall i, (i < length counts)%nat ->
     offsets st !! i = Some (total (take (S i) counts))) ->
  nbytes (hdr st) <= maxBytes (hdr st) ->
  ((0 < length counts)%nat -> nbytes (hdr st) = (total counts + 7) `quot` 8) ->
  item_of counts page item ->
  index_of (offsets st) (Z.of_nat page) item = Some (total (take page counts) + item) /\
  addressable st (Z.of_nat page) item /\
  total (take page counts) + item < total (take (S page) counts).
Proof.
  intros Hok Hfit (Hnp & Hlp & Hmb & Hlb) Hlen Hsum Hcap Hnb (c & Hc & Hitem).
  pose proof (counts_ok_nonneg _ Hok) as Hnn.
  pose proof (lookup_lt_Some _ _ _ Hc) as Hpage.
  pose proof (total_take_S _ _ _ Hc) as Hnext.
  pose proof (total_take_le counts (S page) Hnn) as Hle.
  pose proof (total_nonneg (take page counts) ltac:(by apply Forall_take)) as H0.
  assert (index_of (offsets st) (Z.of_nat page) item
          = Some (total (take page counts) + item)) as Hidx.
  { unfold index_of. destruct page as [|page'].
    - change (Z.of_nat 0 =? 0) with true. cbv iota.
      change (total (take 0 counts)) with 0.
      by rewrite to_int_id by zlia.
    - destruct (Z.eqb_spec (Z.of_nat (S page')) 0); [lia|].
      rewrite to_int_id by zlia.
      replace (Z.of_nat (S page') - 1) with (Z.of_nat page') by lia.
      rewrite cell_of_nat, Hsum by lia. by rewrite to_int_id by zlia. }
  split; [done|]. split; [|lia].
  exists (total (take page counts) + item), (total (take (S page) counts)).
  rewrite Hnb by lia.
  split; [done|]. split; [lia|]. split; [lia|]. split; [qlia|]. split; [qlia|].
  split; [|lia]. rewrite cell_of_nat. by apply Hsum.
Qed.

(** Two items have the same bit index only when they are the same. *)
Lemma item_index_distinct counts page item page' item' :
  counts_ok counts ->
  item_of counts page item -> item_of counts page' item' ->
  total (take page counts) + item = total (take page' counts) + item' ->
  page = page' /\ item = item'.
Proof.
  intros Hok (c & Hc & Hitem) (c' & Hc' & Hitem') Heq.
  pose proof (counts_ok_nonneg _ Hok) as Hnn.
  pose proof (total_take_S _ _ _ Hc) as Hnext.
  pose proof (total_take_S _ _ _ Hc') as Hnext'.
  destruct (Nat.lt_trichotomy page page') as [Hlt|[->|Hgt]].
  - pose proof (total_take_mono counts (S page) page' Hnn ltac:(lia)). lia.
  - split; [done|lia].
  - pose proof (total_take_mono counts (S page') page Hnn ltac:(lia)). lia.
Qed.

(** X21: when the pages are registered in order and the bit count with 7
    added is one an [int] holds, every item of every page has a bit of its
    own: [bitmap_set_item] returns true for it, whatever bits are set
    already, leaves its bit in the requested state, and leaves the bit of
    every other item as it was. *)
Theorem items_have_bits_of_their_own (h : heap) (N : Z) (counts : list Z) :
  MaxHeapTuplesPerPage <= 8 * PALLOC_CHUNK ->
  0 <= N <= INT_MAX ->
  Z.of_nat (length counts) = N ->
  counts_ok counts ->
  total counts + 7 <= INT_MAX ->
  exists bitmap h0 st0,
    build N counts h = Ok bitmap h0 /\
    view h0 bitmap = Some st0 /\
    forall h1 st1 page item state,
      view h1 bitmap = Some st1 -> same_layout st0 st1 ->
      item_of counts page item ->
      exists h2 st2,
        bitmap_set_item bitmap (Z.of_nat page) item state h1 = Ok true h2 /\
        view h2 bitmap = Some st2 /\ same_layout st0 st2 /\
        item_bit st2 (Z.of_nat page) item = Some state /\
        forall page' item',
          item_of counts page' item' ->
          (page', item') <> (page, item) ->
          item_bit st2 (Z.of_nat page') item' = item_bit st1 (Z.of_nat page') item'.
Proof.
  intros Hmax HN Hlen Hok Hfit.
  destruct (build_layout h N counts Hmax HN Hlen Hok Hfit)
    as (h0 & st0 & Hrun & Hv0 & Hsz & Hnp & Hsum & Hcap & Hnb).
  exists (S (length h)), h0, st0. split; [done|]. split; [done|].
  intros h1 st1 page item state Hv1 Hlay Hitem.
  assert (forall p i, item_of counts p i ->
            index_of (offsets st1) (Z.of_nat p) i = Some (total (take p counts) + i) /\
            addressable st1 (Z.of_nat p) i) as Hitems.
  { intros p i Hpi.
    destruct (item_index counts st0 p i Hok Hfit Hsz ltac:(lia) Hsum Hcap Hnb Hpi)
      as (Hidx & Ha & _).
    split; [|by eapply addressable_same_layout].
    destruct Hlay as (_ & -> & _). done. }
  destruct (Hitems page item Hitem) as (Hidx & Ha).
  destruct (addressable_update _ _ _ state Ha) as (dt & Hup).
  destruct (item_update_bits _ _ _ _ _ _ Hup Hidx) as (Hbit & Hother & _).
  exists (heap_set h1 (data (hdr st1)) (Chars dt)), (with_bits st1 dt).
  split; [by rewrite (bitmap_set_item_run _ _ _ _ _ _ Hv1), Hup|].
  split; [by apply view_heap_set_bits|].
  split.
  { eapply same_layout_trans; [exact Hlay|]. by eapply item_update_layout. }
  split.
  { unfold item_bit. fields. by rewrite Hidx. }
  intros page' item' Hitem' Hne.
  destruct (Hitems page' item' Hitem') as (Hidx' & _).
  unfold item_bit. fields. rewrite Hidx'. apply Hother.
  intros Heq. apply Hne.
  destruct (item_index_distinct counts page' item' page item Hok Hitem' Hitem Heq)
    as (-> & ->).
  done.
Qed.

(** ** The bits that an index page sets, and the comparison with the heap *)

Lemma targeted_next st header raw_page i idx :
  0 <= i ->
  targeted st header raw_page (i + 1) idx
  = targeted st header raw_page i idx
    || match target_index st header raw_page i with
       | Some j => j =? idx
       | None => false
       end.
Proof.
  intros Hi. unfold targeted. rewrite seqZ_app by lia.
  rewrite existsb_app. cbn [seqZ existsb]. change (seqZ (0 + i) 1) with [0 + i].
  cbn [existsb]. by rewrite Z.add_0_l, orb_false_r.
Qed.

(** When every slot passes the checks, the loop of
    [bitmap_add_index_items] sets the bits that the slots point to, counts
    no error, and writes to the bit buffer only. *)
Lemma index_pass_loop (h : heap) (bitmap : ptr) (st : bitmap_state)
    (header raw_page : PageImage) (page : Z) :
  view h bitmap = Some st ->
  (forall item, 0 <= item < PageGetMaxOffsetNumber raw_page ->
     addressable st (fst (index_target header raw_page item))
                    (snd (index_target header raw_page item))) ->
  exists h' st',
    bitmap_add_index_items bitmap header raw_page page h = Ok 0 h' /\
    view h' bitmap = Some st' /\ same_layout st st' /\
    (forall idx,
       bit_at (bits st') idx
       = (fun b => b || targeted st header raw_page (PageGetMaxOffsetNumber raw_page) idx)
           <$> bit_at (bits st) idx) /\
    (forall p c, chunk_at h p = Some c -> p <> data (hdr st) -> chunk_at h' p = Some c).
Proof.
  intros Hv Hall. unfold bitmap_add_index_items.
  set (n := PageGetMaxOffsetNumber raw_page) in *.
  destruct (Z.le_gt_cases 0 n) as [Hn|Hn].
  2:{ unfold for_. replace (Z.to_nat (n - 0)) with 0%nat by lia. cbn [for_loop].
      exists h, st. split; [done|]. split; [done|]. split; [done|]. split; [|done].
      intros idx. unfold targeted. rewrite seqZ_nil by lia. cbn [existsb].
      destruct (bit_at (bits st) idx) as [b|]; cbn; [by rewrite orb_false_r|done]. }
  set (I := fun (i nerrs : Z) (hi : heap) =>
    nerrs = 0 /\
    exists sti, view hi bitmap = Some sti /\ same_layout st sti /\
      (forall idx, bit_at (bits sti) idx
                   = (fun b => b || targeted st header raw_page i idx)
                       <$> bit_at (bits st) idx) /\
      (forall p c, chunk_at h p = Some c -> p <> data (hdr st) ->
                   chunk_at hi p = Some c)).
  destruct (for_invariant I (index_pass bitmap header raw_page) 0 n 0 h Hn)
    as (nerrs & h' & Hrun & -> & st' & H').
  - split; [done|]. exists st. split; [done|]. split; [done|]. split; [|done].
    intros idx. unfold targeted. rewrite seqZ_nil by lia. cbn [existsb].
    destruct (bit_at (bits st) idx) as [b|]; cbn; [by rewrite orb_false_r|done].
  - intros i nerrs hi Hi (-> & sti & Hvi & Hlay & Hbits & Hframe).
    rewrite (index_pass_run _ _ _ _ _ _ _ Hvi).
    pose proof (Hall i Hi) as Ha.
    pose proof (addressable_same_layout _ _ _ _ Hlay Ha) as Hai.
    destruct (addressable_update _ _ _ true Hai) as (dt & Hup). rewrite Hup.
    pose proof (item_update_true _ _ _ _ _ Hup) as (idx0 & _ & _ & Hidx0 & _).
    destruct (item_update_bits _ _ _ _ _ idx0 Hup Hidx0) as (Hbit & Hother & _).
    assert (target_index st header raw_page i = Some idx0) as Htarget.
    { unfold target_index. destruct Hlay as (_ & <- & _). done. }
    assert (is_Some (bit_at (bits st) idx0)) as [b0 Hb0].
    { eapply addressable_bit; [exact Ha|exact Htarget]. }
    eexists _, _. split; [reflexivity|]. split; [done|].
    exists (with_bits sti dt). split; [by apply view_heap_set_bits|].
    split.
    { eapply same_layout_trans; [exact Hlay|]. by eapply item_update_layout. }
    split.
    + intros idx. fields. rewrite targeted_next, Htarget by lia.
      destruct (Z.eqb_spec idx0 idx) as [<-|Hne].
      * rewrite Hbit, Hb0. cbn. by rewrite !orb_true_r.
      * rewrite Hother, Hbits by done.
        destruct (bit_at (bits st) idx) as [b|]; cbn; [by rewrite orb_false_r|done].
    + intros p c Hc Hp. rewrite chunk_at_heap_set_ne.
      * by apply Hframe.
      * destruct Hlay as (-> & _). done.
  - exists h', st'. by destruct H' as (? & ? & ? & ?).
Qed.

Lemma targeted_slot st header raw_page n idx :
  targeted st header raw_page n idx = true ->
  exists item, 0 <= item < n /\ target_index st header raw_page item = Some idx.
Proof.
  unfold targeted. rewrite existsb_exists. intros (item & Hin & Hitem).
  apply list_elem_of_In, elem_of_seqZ in Hin. exists item. split; [lia|].
  destruct (target_index st header raw_page item) as [j|]; [|done].
  by apply Z.eqb_eq in Hitem as ->.
Qed.

(** X22: when every slot of an index page points to a location that
    passes the checks, [bitmap_add_index_items] counts no error, sets the
    bits that the slots point to and changes no other bit, and writes to the
    bit buffer of the bitmap only. *)
Theorem index_items_set_the_targets_only (h : heap) (bitmap : ptr) (st : bitmap_state)
    (header raw_page : PageImage) (page : Z) :
  view h bitmap = Some st ->
  (forall item, 0 <= item < PageGetMaxOffsetNumber raw_page ->
     addressable st (fst (index_target header raw_page item))
                    (snd (index_target header raw_page item))) ->
  exists h' st',
    bitmap_add_index_items bitmap header raw_page page h = Ok 0 h' /\
    view h' bitmap = Some st' /\ same_layout st st' /\
    (forall idx,
       is_set (bits st') idx
       = is_set (bits st) idx
         || targeted st header raw_page (PageGetMaxOffsetNumber raw_page) idx) /\
    (forall p c, chunk_at h p = Some c -> p <> data (hdr st) -> chunk_at h' p = Some c).
Proof.
  intros Hv Hall.
  destruct (index_pass_loop h bitmap st header raw_page page Hv Hall)
    as (h' & st' & Hrun & Hv' & Hlay & Hbits & Hframe).
  exists h', st'. split; [done|]. split; [done|]. split; [done|]. split; [|done].
  intros idx. unfold is_set. rewrite Hbits.
  destruct (bit_at (bits st) idx) as [b|] eqn:Hb; [done|]. cbn.
  destruct (targeted st header raw_page _ idx) eqn:Ht; [|done].
  apply targeted_slot in Ht as (item & Hitem & Htarget).
  destruct (addressable_bit _ _ _ _ (Hall item Hitem) Htarget) as [b Hb'].
  congruence.
Qed.

Lemma filter_length_0 (p : Z -> bool) (l : list Z) :
  Z.of_nat (length (List.filter p l)) = 0 <-> forall i, i ∈ l -> p i = false.
Proof.
  induction l as [|x l IH]; cbn [List.filter].
  - split; [intros _ i Hi; by apply elem_of_nil in Hi|done].
  - destruct (p x) eqn:Hx; cbn [length].
    + split; [lia|]. intros Hall. rewrite Hall in Hx; [done|]. by left.
    + rewrite IH. split.
      * intros Hall i [->|Hi]%elem_of_cons; [done|by apply Hall].
      * intros Hall i Hi. apply Hall. by right.
Qed.

(** X23: a cross-check: a heap bitmap is copied, the copy is filled from
    an index page whose slots pass the checks, and the two are compared.
    [bitmap_compare] returns, in both directions, the number of bits in
    the bytes in use - the positions below [8 * nbytes] - where the heap
    bitmap disagrees with the index page: set with no slot pointing to
    them, or clear with a slot pointing to them. It returns 0 exactly when,
    at every position below [8 * nbytes], the bit is set if and only if a
    slot points to it. Positions from [8 * nbytes] on are not compared: a
    slot that passes the checks may point into the byte of index [nbytes],
    and such a slot does not show in the result. *)
Theorem compare_counts_the_disagreements (h : heap) (heap_bitmap : ptr)
    (st : bitmap_state) (header raw_page : PageImage) (page : Z) :
  view h heap_bitmap = Some st -> sized st ->
  1 <= npages (hdr st) ->
  nbytes (hdr st) <= maxBytes (hdr st) ->
  (forall item, 0 <= item < PageGetMaxOffsetNumber raw_page ->
     addressable st (fst (index_target header raw_page item))
                    (snd (index_target header raw_page item))) ->
  exists index_bitmap h1 h2,
    bitmap_copy heap_bitmap h = Ok index_bitmap h1 /\
    bitmap_add_index_items index_bitmap header raw_page page h1 = Ok 0 h2 /\
    bitmap_compare heap_bitmap index_bitmap h2
    = Ok (disagreements st header raw_page) h2 /\
    bitmap_compare index_bitmap heap_bitmap h2
    = Ok (disagreements st header raw_page) h2 /\
    (disagreements st header raw_page = 0 <->
     forall idx, 0 <= idx < 8 * nbytes (hdr st) ->
       is_set (bits st) idx
       = targeted st header raw_page (PageGetMaxOffsetNumber raw_page) idx).
Proof.
  intros Hv Hsz Hnp Hfit Hall.
  destruct (bitmap_copy_run h heap_bitmap st Hv Hsz) as (h1 & Hcopy & Hv1 & Hext & _).
  pose proof Hv as (Hs & Hp & Hd)%view_Some.
  pose proof Hsz as (_ & _ & Hmb & Hlb).
  set (dst := S (length h)) in *.
  set (sc := copied_state st (S dst) (S (S dst))) in *.
  assert (forall item, targeted sc header raw_page item = targeted st header raw_page item)
    as Hsame.
  { done. }
  assert (forall item, 0 <= item < PageGetMaxOffsetNumber raw_page ->
            addressable sc (fst (index_target header raw_page item))
                           (snd (index_target header raw_page item))) as Hall'.
  { intros item Hitem. destruct (Hall item Hitem) as (idx & count & H).
    exists idx, count. unfold sc, copied_state. fields.
    rewrite length_replicate. destruct H as (? & ? & ? & ? & ? & ? & ?).
    repeat split; (done || lia). }
  destruct (index_pass_loop h1 dst sc header raw_page page Hv1 Hall')
    as (h2 & sc' & Hrun & Hv2 & Hlay & Hbits & Hframe).
  assert (view h2 heap_bitmap = Some st) as Hv2s.
  { assert (data (hdr sc) <> heap_bitmap /\ data (hdr sc) <> pages (hdr st)
            /\ data (hdr sc) <> data (hdr st)) as (? & ? & ?).
    { unfold sc, copied_state, dst. fields.
      apply chunk_at_allocated in Hs, Hp, Hd. lia. }
    apply view_Some. split; [|split]; apply Hframe; auto. }
  destruct (last_offset st Hsz Hnp) as (la & Hia & Hla). rewrite <- Hia in Hla.
  destruct Hlay as (Hh & Ho & Hl).
  assert (differing_bits (bits st) (bits sc') (nbytes (hdr st))
          = disagreements st header raw_page) as Hdiff.
  { unfold differing_bits, disagreements. f_equal. apply filter_length_ext.
    intros idx Hidx%elem_of_seqZ. unfold differ, is_set. rewrite Hbits.
    destruct (cell_lookup (bits st) (idx `quot` 8)) as [x Hx]; [qlia|].
    destruct (cell_lookup (bits sc) (idx `quot` 8)) as [y Hy].
    { unfold sc, copied_state. fields. rewrite length_replicate. qlia. }
    unfold bit_at. rewrite Hx, Hy. cbn.
    assert (y = 0) as ->.
    { unfold sc, copied_state, cell in Hy. fields in Hy.
      destruct (0 <=? idx `quot` 8); [|done].
      by apply lookup_replicate in Hy as [-> _]. }
    rewrite Z.bits_0. cbn. by rewrite Hsame. }
  exists dst, h1, h2. split; [done|]. split; [done|].
  split; [|split].
  - rewrite (bitmap_compare_same h2 heap_bitmap dst st sc' la la); rewrite ?Hh, ?Ho, ?Hl;
      unfold sc, copied_state; fields; rewrite ?length_replicate; try done; try lia.
    by rewrite <- Hdiff.
  - rewrite (bitmap_compare_same h2 dst heap_bitmap sc' st la la); rewrite ?Hh, ?Ho, ?Hl;
      unfold sc, copied_state; fields; rewrite ?length_replicate; try done; try lia.
    by rewrite differing_bits_comm, <- Hdiff.
  - unfold disagreements. rewrite filter_length_0. split.
    + intros H0 idx Hidx. specialize (H0 idx). rewrite elem_of_seqZ in H0.
      specialize (H0 ltac:(lia)).
      by destruct (is_set (bits st) idx), (targeted st header raw_page _ idx).
    + intros Heq idx Hidx%elem_of_seqZ. rewrite Heq by lia.
      apply xorb_nilpotent.
Qed.

End Bitmap.

(** * The properties on concrete runs

    The runs start from the empty store, with new memory full of zeroes and
    291 line pointers at most per page, as for PostgreSQL's 8kB blocks. *)

(** C2: [bitmap_set_item] and [bitmap_get_item] compare the item with the
    cumulative count of the page, not with the number of items of the page:
    with two pages of three items, item 4 of page 1 is accepted by both, and
    the call sets a bit of byte 0, which held 0. *)
Theorem item_past_page_is_accepted :
  exists h, item_past_page zeroes 291 [] = Ok (true, true, 0, -128) h.
Proof. vm_compute. eexists. reflexivity. Qed.

(** C3: [bitmap_get_item] returns true for a bit that is 0 when another bit
    of the same byte is set: with only item 1 of page 0 set, item 0 is read
    as set. *)
Theorem get_item_reads_the_whole_byte :
  exists b h st,
    read_other_bit zeroes 291 [] = Ok (b, true) h /\
    view h b = Some st /\
    item_bit st 0 0 = Some false /\
    item_bit st 0 1 = Some true.
Proof.
  eexists _, _, _. split; [vm_compute; reflexivity|].
  split; [vm_compute; reflexivity|].
  split; vm_compute; reflexivity.
Qed.

(** C9: [base64] writes no padding: the one byte 77 (the letter M) comes
    out as the two characters 84 and 81 (TQ) followed by 0, where padded
    base64 has the four characters TQ==. *)
Theorem base64_writes_no_padding :
  exists r h blk,
    encode_bytes zeroes [77] [] = Ok r h /\
    chunk_at h r = Some (Chars blk) /\
    blk = [84; 81; 0; 0; 0] /\
    c_string blk = [84; 81] /\
    Z.of_nat (length (c_string blk)) <> 4 * ((1 + 2) `quot` 3).
Proof.
  eexists _, _, _. split; [vm_compute; reflexivity|].
  split; [vm_compute; reflexivity|].
  split; [reflexivity|]. split; [reflexivity|]. vm_compute. discriminate.
Qed.

(** A byte of 128 or more is a negative [char]: shifted as an [int], its
    sign bits spill over the byte before it. The bytes 77, 128, 110, which
    are TYBu in base64, come out as /4Bu. *)
Lemma base64_extends_the_sign :
  exists r h blk,
    encode_bytes zeroes [77; -128; 110] [] = Ok r h /\
    chunk_at h r = Some (Chars blk) /\
    c_string blk = [47; 52; 66; 117].
Proof.
  eexists _, _, _. split; [vm_compute; reflexivity|].
  split; [vm_compute; reflexivity|]. reflexivity.
Qed.

(** One more page registered, in a run from a store that is known. *)
Ltac register_next H items :=
  match type of H with
  | in_order ?j ?m ?N ?b ?k ?h =>
      let E := fresh "E" in
      let H' := fresh "H" in
      eassert (bitmap_add_page j m b (Z.of_nat k) items h = Ok tt _) as E
        by (vm_compute; reflexivity);
      pose proof (in_order_page j m N b k h items _ H E) as H';
      clear H E; rename H' into H
  end.

Ltac concrete :=
  vm_compute;
  repeat match goal with |- _ /\ _ => split end;
  first [ reflexivity | discriminate | (intros H; discriminate H) ].

(** C1 on the example heap page. *)
Lemma heap_items_hot_chains_witness :
  exists bitmap h1 h2 st,
    bitmap_init zeroes 1 [] = Ok bitmap h1 /\
    bitmap_add_heap_items zeroes 291 bitmap example_heap_page example_heap_page 0 h1
    = Ok 0 h2 /\
    view h2 bitmap = Some st /\
    item_bit st 0 0 = Some true /\
    item_bit st 0 1 = Some true /\
    item_bit st 0 2 = Some false.
Proof.
  apply (proj1 (heap_items_hot_chains zeroes 291) [] 1
           example_heap_page example_heap_page).
  - unfold INT_MAX. lia.
  - lia.
  - reflexivity.
  - intros item _. reflexivity.
  - reflexivity.
  - reflexivity.
  - reflexivity.
Defined.

(** C4 for three pages of 2, 0 and 5 items. *)
Lemma offsets_are_prefix_sums_witness :
  counts_ok 291 [2; 0; 5] /\
  exists bitmap h' st,
    build zeroes 291 3 [2; 0; 5] [] = Ok bitmap h' /\
    view h' bitmap = Some st /\
    npages (hdr st) = 3 /\
    offsets st = [2; 2; 7] /\
    (total [2; 0; 5] <= INT_MAX ->
       (forall i, 0 <= i < 3 ->
          cell (offsets st) i = Some (prefix_sum [2; 0; 5] i)) /\
       (forall i j x y, 0 <= i <= j -> j < 3 ->
          cell (offsets st) i = Some x -> cell (offsets st) j = Some y -> x <= y)).
Proof.
  assert (counts_ok 291 [2; 0; 5]) as Hok.
  { unfold counts_ok. repeat constructor; lia. }
  split; [exact Hok|].
  destruct (offsets_are_prefix_sums zeroes 291 [] 3 [2; 0; 5])
    as (bitmap & h' & st & Hrun & Hv & Hnp & Hsums).
  - unfold INT_MAX. lia.
  - reflexivity.
  - exact Hok.
  - exists bitmap, h', st.
    split; [exact Hrun|]. split; [exact Hv|]. split; [exact Hnp|].
    split; [|exact Hsums].
    vm_compute in Hrun. injection Hrun as <- <-.
    vm_compute in Hv. injection Hv as <-. reflexivity.
Defined.

(** C4 as it is written, without a bound on the sum, fails for 7379669
    pages of 291 items each: every count is one that a page can hold and
    the run returns, but the sum of all counts is 2147483679, which an
    [int] does not hold. The last entry of the table is -2147483617, not
    the sum, and it is below the entry before it, 2147483388: the table is
    not non-decreasing. *)
Lemma offsets_wrap_around :
  exists bitmap h st,
    0 <= 7379669 <= INT_MAX /\
    Z.of_nat (length full_pages) = 7379669 /\
    counts_ok 291 full_pages /\
    build zeroes 291 7379669 full_pages [] = Ok bitmap h /\
    view h bitmap = Some st /\
    npages (hdr st) = 7379669 /\
    prefix_sum full_pages 7379668 = 2147483679 /\
    cell (offsets st) 7379668 = Some (-2147483617) /\
    cell (offsets st) 7379667 = Some 2147483388.
Proof.
  assert (0 <= 7379669 <= INT_MAX) as HN by (unfold INT_MAX; lia).
  assert (Z.of_nat (length full_pages) = 7379669) as Hlen.
  { unfold full_pages. rewrite length_replicate. apply Z2Nat.id. lia. }
  assert (counts_ok 291 full_pages) as Hok.
  { unfold counts_ok, full_pages. apply Forall_replicate. lia. }
  destruct (build_wrapped_sums zeroes 291 [] 7379669 full_pages)
    as (h & st & Hrun & Hv & Hnp & Hcells);
    [unfold INT_MAX; lia|exact HN|exact Hlen|exact Hok|].
  pose proof (Hcells 7379668 ltac:(lia)) as Hlast.
  pose proof (Hcells 7379667 ltac:(lia)) as Hprev.
  unfold full_pages in Hlast, Hprev.
  rewrite prefix_sum_replicate in Hlast, Hprev by lia.
  exists (S (length (@nil chunk))), h, st.
  split; [exact HN|]. split; [exact Hlen|]. split; [exact Hok|].
  split; [exact Hrun|]. split; [exact Hv|]. split; [exact Hnp|].
  split; [unfold full_pages; by rewrite prefix_sum_replicate by lia|].
  split; [exact Hlast|exact Hprev].
Qed.

(** C5 for the page that makes the buffer grow: 28 full pages are
    registered and a bit is set, and the next page needs byte 1055. *)
Lemma add_page_grows_by_chunks_witness :
  exists bitmap h st,
    in_order zeroes 291 30 bitmap 28 h /\
    view h bitmap = Some st /\
    item_bit st 0 5 = Some true /\
    nbytes (hdr st) = 1019 /\ maxBytes (hdr st) = 1024 /\
    exists h' st',
      bitmap_add_page zeroes 291 bitmap 28 291 h = Ok tt h' /\
      view h' bitmap = Some st' /\
      nbytes (hdr st') = 1055 /\ nbytes (hdr st') <= maxBytes (hdr st') /\
      exists g, 0 <= g <= 1 /\
        maxBytes (hdr st') = maxBytes (hdr st) + g * PALLOC_CHUNK /\
        bits st' = bits st ++ replicate (Z.to_nat (g * PALLOC_CHUNK)) 0.
Proof.
  eassert (bitmap_init zeroes 30 [] = Ok _ _) as E by (vm_compute; reflexivity).
  pose proof (in_order_init zeroes 291 30 _ _ _ E) as H. clear E.
  do 28 register_next H 291.
  match type of H with in_order _ _ _ ?b ?k ?h =>
    eassert (bitmap_set_item b 0 5 true h = Ok _ _) as E by (vm_compute; reflexivity);
    pose proof (in_order_item _ _ _ _ _ _ _ _ _ _ _ H E) as H'; clear H E
  end.
  eexists _, _, _. split; [exact H'|].
  destruct (add_page_grows_by_chunks zeroes 291 30 _ _ _
              ltac:(unfold PALLOC_CHUNK; lia) ltac:(unfold INT_MAX; lia) H')
    as (st & Hv & _ & _ & Hnext).
  vm_compute in Hv. injection Hv as <-.
  split; [vm_compute; reflexivity|].
  split; [reflexivity|]. split; [reflexivity|]. split; [reflexivity|].
  destruct (Hnext 291 ltac:(lia) ltac:(lia)) as (h' & st' & Hadd & Hv' & Hfit & Hgrow).
  exists h', st'. split; [exact Hadd|]. split; [exact Hv'|].
  split; [|split; [exact Hfit|exact Hgrow]].
  vm_compute in Hadd. injection Hadd as <-.
  vm_compute in Hv'. injection Hv' as <-. reflexivity.
Defined.


(** C7, as stated, fails: of two bitmaps of one page, of 8 items and of 16
    items with item 8 set, the first compared with the second gives 0 and
    the second compared with the first gives 1. *)
Lemma compare_depends_on_direction :
  exists a b h,
    two_layouts zeroes 291 [] = Ok (a, b) h /\
    bitmap_compare a b h = Ok 0 h /\
    bitmap_compare b a h = Ok 1 h.
Proof.
  eexists _, _, _. split; [vm_compute; reflexivity|].
  split; vm_compute; reflexivity.
Qed.

(** C7, as amended, on two bitmaps of one page of 16 items that differ in
    the bit of item 8. *)
Lemma compare_counts_differing_bits_witness :
  exists a b h sa sb,
    one_layout zeroes 291 [] = Ok (a, b) h /\
    view h a = Some sa /\ view h b = Some sb /\
    differing_bits (bits sa) (bits sb) (nbytes (hdr sa)) = 1 /\
    (npages (hdr sa) <> npages (hdr sb) \/ nbytes (hdr sa) = nbytes (hdr sb) ->
       exists k, bitmap_compare a b h = Ok k h /\ bitmap_compare b a h = Ok k h) /\
    bitmap_compare a a h = Ok 0 h /\
    (npages (hdr sa) = npages (hdr sb) -> offsets sa = offsets sb ->
     nbytes (hdr sa) = nbytes (hdr sb) ->
       bitmap_compare a b h
       = Ok (differing_bits (bits sa) (bits sb) (nbytes (hdr sa))) h).
Proof.
  eexists _, _, _, _, _.
  split; [vm_compute; reflexivity|].
  match goal with |- view ?h ?a = Some ?sa /\ view ?h ?b = Some ?sb /\ _ =>
    assert (view h a = Some sa) as Hva by (vm_compute; reflexivity);
    assert (view h b = Some sb) as Hvb by (vm_compute; reflexivity)
  end.
  split; [exact Hva|]. split; [exact Hvb|].
  split; [vm_compute; reflexivity|].
  apply (compare_counts_differing_bits _ _ _ _ _ Hva Hvb); concrete.
Defined.

(** C8 on a bitmap that has a bit set. *)
Lemma copy_is_separate_witness :
  exists src h st,
    one_bit_set zeroes 291 [] = Ok src h /\
    view h src = Some st /\
    item_bit st 0 8 = Some true /\
    exists dst h' st',
      bitmap_copy zeroes src h = Ok dst h' /\
      view h' dst = Some st' /\
      npages (hdr st') = npages (hdr st) /\
      offsets st' = offsets st /\
      maxBytes (hdr st') = maxBytes (hdr st) /\
      nbytes (hdr st') = nbytes (hdr st) /\
      bits st' = replicate (Z.to_nat (maxBytes (hdr st))) 0 /\
      view h' src = Some st /\
      dst <> src /\ pages (hdr st') <> pages (hdr st) /\ data (hdr st') <> data (hdr st) /\
      (forall page item state r h2,
         bitmap_set_item dst page item state h' = Ok r h2 -> view h2 src = Some st) /\
      (forall page item state r h2,
         bitmap_set_item src page item state h' = Ok r h2 -> view h2 dst = Some st') /\
      (forall page items h2,
         bitmap_add_page zeroes 291 dst page items h' = Ok tt h2 -> view h2 src = Some st) /\
      (forall page items h2,
         bitmap_add_page zeroes 291 src page items h' = Ok tt h2 -> view h2 dst = Some st') /\
      (forall h2, bitmap_reset dst h' = Ok tt h2 -> view h2 src = Some st) /\
      (forall h2, bitmap_reset src h' = Ok tt h2 -> view h2 dst = Some st').
Proof.
  eexists _, _, _.
  split; [vm_compute; reflexivity|].
  match goal with |- view ?h ?a = Some ?sa /\ _ =>
    assert (view h a = Some sa) as Hv by (vm_compute; reflexivity)
  end.
  split; [exact Hv|]. split; [vm_compute; reflexivity|].
  apply (copy_is_separate zeroes 291 _ _ _ Hv). concrete.
Defined.

(** C10 on a bitmap built for no page: compared with a bitmap of one page,
    it makes [bitmap_compare] read entry -1 of its empty offset table. *)
Lemma compare_reads_last_offsets_witness :
  exists a b h sa sb,
    none_and_one zeroes 291 [] = Ok (a, b) h /\
    view h a = Some sa /\ view h b = Some sb /\
    npages (hdr sa) = 0 /\ offsets sa = [] /\
    bitmap_compare a b h = Stuck OutOfBounds.
Proof.
  eexists _, _, _, _, _.
  split; [vm_compute; reflexivity|].
  match goal with |- view ?h ?a = Some ?sa /\ view ?h ?b = Some ?sb /\ _ =>
    assert (view h a = Some sa) as Hva by (vm_compute; reflexivity);
    assert (view h b = Some sb) as Hvb by (vm_compute; reflexivity)
  end.
  split; [exact Hva|]. split; [exact Hvb|].
  split; [reflexivity|]. split; [reflexivity|].
  apply (proj2 (compare_reads_last_offsets _ _ _ _ _ Hva Hvb
                  ltac:(concrete) ltac:(concrete) ltac:(concrete))).
  left. reflexivity.
Defined.

(** * More properties, on concrete runs *)

(** X1 for 20000 pages: a capacity of three chunks. *)
Lemma init_gives_an_empty_bitmap_witness :
  exists bitmap h' st,
    bitmap_init zeroes 20000 [] = Ok bitmap h' /\
    chunk_at [] bitmap = None /\ extends [] h' /\
    view h' bitmap = Some st /\ sized st /\
    npages (hdr st) = 20000 /\ nbytes (hdr st) = 0 /\
    maxBytes (hdr st) = PALLOC_CHUNK * (20000 `quot` 8192 + 1) /\
    bits st = replicate (Z.to_nat (maxBytes (hdr st))) 0 /\
    bitmap_count bitmap h' = Ok 0 h'.
Proof.
  apply (proj1 (init_gives_an_empty_bitmap zeroes [] 20000)).
  unfold INT_MAX. lia.
Defined.

(** X2 on a bitmap that has a bit set. *)
Lemma reset_clears_every_bit_witness :
  exists src h st,
    one_bit_set zeroes 291 [] = Ok src h /\
    view h src = Some st /\
    item_bit st 0 8 = Some true /\
    exists h',
      bitmap_reset src h = Ok tt h' /\
      view h' src = Some (with_bits st (replicate (Z.to_nat (maxBytes (hdr st))) 0)) /\
      (forall p c, chunk_at h p = Some c -> p <> data (hdr st) -> chunk_at h' p = Some c) /\
      (nbytes (hdr st) <= maxBytes (hdr st) -> bitmap_count src h' = Ok 0 h') /\
      (forall page item r h2, bitmap_get_item src page item h' = Ok r h2 -> r = false) /\
      bitmap_reset src h' = Ok tt h'.
Proof.
  eexists _, _, _.
  split; [vm_compute; reflexivity|].
  match goal with |- view ?h ?a = Some ?sa /\ _ =>
    assert (view h a = Some sa) as Hv by (vm_compute; reflexivity)
  end.
  split; [exact Hv|]. split; [vm_compute; reflexivity|].
  apply (reset_clears_every_bit _ _ _ Hv). concrete.
Defined.

(** X3 for item 3 of page 0, in a bitmap of one page of 16 items. *)
Lemma set_item_changes_one_bit_witness :
  exists src h st h',
    one_bit_set zeroes 291 [] = Ok src h /\
    view h src = Some st /\
    bitmap_set_item src 0 3 true h = Ok true h' /\
    exists st' idx,
      view h' src = Some st' /\ same_layout st st' /\
      index_of (offsets st) 0 3 = Some idx /\
      (true = true <-> addressable st 0 3) /\
      (true = true -> bit_at (bits st') idx = Some true /\
                      item_bit st' 0 3 = Some true) /\
      (forall idx', idx' <> idx -> bit_at (bits st') idx' = bit_at (bits st) idx') /\
      (true = false -> h' = h) /\
      (forall p c, chunk_at h p = Some c -> p <> data (hdr st) -> chunk_at h' p = Some c).
Proof.
  eexists _, _, _, _.
  split; [vm_compute; reflexivity|].
  match goal with |- view ?h ?a = Some ?sa /\ _ =>
    assert (view h a = Some sa) as Hv by (vm_compute; reflexivity)
  end.
  split; [exact Hv|].
  match goal with |- ?run = Ok true ?h' /\ _ =>
    assert (run = Ok true h') as Hset by (vm_compute; reflexivity)
  end.
  split; [exact Hset|].
  exact (set_item_changes_one_bit _ _ _ _ _ _ _ _ Hv Hset).
Defined.

(** X4 for the same item. *)
Lemma set_then_get_witness :
  exists src h st h',
    one_bit_set zeroes 291 [] = Ok src h /\
    view h src = Some st /\
    bitmap_set_item src 0 3 true h = Ok true h' /\
    bitmap_get_item src 0 3 h' = Ok true h'.
Proof.
  eexists _, _, _, _.
  split; [vm_compute; reflexivity|].
  match goal with |- view ?h ?a = Some ?sa /\ _ =>
    assert (view h a = Some sa) as Hv by (vm_compute; reflexivity)
  end.
  split; [exact Hv|].
  match goal with |- ?run = Ok true ?h' /\ _ =>
    assert (run = Ok true h') as Hset by (vm_compute; reflexivity)
  end.
  split; [exact Hset|].
  exact (set_then_get _ _ _ _ _ _ Hv Hset).
Defined.

(** X5 on a bitmap with one bit set. *)
Lemma count_is_the_number_of_set_bits_witness :
  exists src h st,
    one_bit_set zeroes 291 [] = Ok src h /\
    view h src = Some st /\
    set_bits (bits st) (nbytes (hdr st)) = 1 /\
    bitmap_count src h = Ok (set_bits (bits st) (nbytes (hdr st))) h /\
    0 <= set_bits (bits st) (nbytes (hdr st)) <= 8 * Z.max 0 (nbytes (hdr st)).
Proof.
  eexists _, _, _.
  split; [vm_compute; reflexivity|].
  match goal with |- view ?h ?a = Some ?sa /\ _ =>
    assert (view h a = Some sa) as Hv by (vm_compute; reflexivity)
  end.
  split; [exact Hv|]. split; [vm_compute; reflexivity|].
  apply (count_is_the_number_of_set_bits _ _ _ Hv). concrete.
Defined.

(** X6: a second bit is set, and the count goes from 1 to 2. *)
Lemma count_follows_set_item_witness :
  exists src h st h',
    one_bit_set zeroes 291 [] = Ok src h /\
    view h src = Some st /\
    bitmap_set_item src 0 3 true h = Ok true h' /\
    bitmap_count src h = Ok 1 h /\
    bitmap_count src h' = Ok 2 h'.
Proof.
  eexists _, _, _, _.
  split; [vm_compute; reflexivity|].
  match goal with |- view ?h ?a = Some ?sa /\ _ =>
    assert (view h a = Some sa) as Hv by (vm_compute; reflexivity)
  end.
  split; [exact Hv|].
  match goal with |- ?run = Ok true ?h' /\ _ =>
    assert (run = Ok true h') as Hset by (vm_compute; reflexivity)
  end.
  split; [exact Hset|].
  destruct (count_follows_set_item _ _ _ 0 3 3 true _ Hv ltac:(concrete)
              ltac:(reflexivity) Hset) as (n & Hbefore & Hafter).
  vm_compute in Hbefore. injection Hbefore as <-.
  split; [vm_compute; reflexivity|]. exact Hafter.
Defined.

(** X7 on a bitmap of one page: page 0 with 20 items is accepted, page 1
    and a count of 292 are not. *)
Lemma add_page_checks_its_arguments_witness :
  exists src h st,
    one_bit_set zeroes 291 [] = Ok src h /\
    view h src = Some st /\
    (0 <= 0 < npages (hdr st) /\ 0 <= 20 <= 291 ->
       exists h', bitmap_add_page zeroes 291 src 0 20 h = Ok tt h') /\
    (0 < 0 \/ npages (hdr st) <= 0 \/ 20 < 0 \/ 291 < 20 ->
       bitmap_add_page zeroes 291 src 0 20 h = Stuck AssertionFailed) /\
    bitmap_add_page zeroes 291 src 1 20 h = Stuck AssertionFailed /\
    bitmap_add_page zeroes 291 src 0 292 h = Stuck AssertionFailed.
Proof.
  eexists _, _, _.
  split; [vm_compute; reflexivity|].
  match goal with |- view ?h ?a = Some ?sa /\ _ =>
    assert (view h a = Some sa) as Hv by (vm_compute; reflexivity)
  end.
  split; [exact Hv|].
  match type of Hv with view _ _ = Some ?st =>
    assert (sized st) as Hsz by concrete
  end.
  destruct (add_page_checks_its_arguments zeroes 291 _ _ _ 0 20 Hv Hsz) as (Hok & Hbad).
  split; [exact Hok|]. split; [exact Hbad|].
  split.
  - apply (proj2 (add_page_checks_its_arguments zeroes 291 _ _ _ 1 20 Hv Hsz)).
    right. left. simpl. lia.
  - apply (proj2 (add_page_checks_its_arguments zeroes 291 _ _ _ 0 292 Hv Hsz)).
    right. right. right. lia.
Defined.

(** X8: page 1 is registered after item 8 of page 0 was set. *)
Lemma add_page_keeps_registered_items_witness :
  exists src h st h',
    first_of_two zeroes 291 [] = Ok src h /\
    view h src = Some st /\
    item_bit st 0 8 = Some true /\
    bitmap_add_page zeroes 291 src 1 10 h = Ok tt h' /\
    exists st',
      view h' src = Some st' /\
      npages (hdr st') = npages (hdr st) /\
      cell (offsets st') 1 = Some 26 /\
      (forall p, p <> 1 -> cell (offsets st') p = cell (offsets st) p) /\
      item_bit st' 0 8 = Some true.
Proof.
  eexists _, _, _, _.
  split; [vm_compute; reflexivity|].
  match goal with |- view ?h ?a = Some ?sa /\ _ =>
    assert (view h a = Some sa) as Hv by (vm_compute; reflexivity)
  end.
  split; [exact Hv|].
  match goal with |- ?bit = Some true /\ _ =>
    assert (bit = Some true) as Hbit by (vm_compute; reflexivity)
  end.
  split; [exact Hbit|].
  match goal with |- ?run = Ok tt ?h' /\ _ =>
    assert (run = Ok tt h') as Hadd by (vm_compute; reflexivity)
  end.
  split; [exact Hadd|].
  destruct (add_page_keeps_registered_items zeroes 291 _ _ _ _ _ _ Hv ltac:(concrete) Hadd)
    as (st' & Hv' & Hnp & Hcells & Hbits).
  exists st'. split; [exact Hv'|]. split; [exact Hnp|].
  split; [|split; [exact Hcells|]].
  - vm_compute in Hv'. injection Hv' as <-. reflexivity.
  - apply (Hbits 0 8 true); [lia|exact Hbit].
Defined.

(** X9 on a bitmap built for no page: compared with itself, and as the
    second argument. *)
Lemma compare_needs_a_page_witness :
  exists a b h sa sb,
    none_and_one zeroes 291 [] = Ok (a, b) h /\
    view h a = Some sa /\ view h b = Some sb /\
    npages (hdr sa) = 0 /\
    bitmap_compare a a h = Stuck OutOfBounds /\
    bitmap_compare b a h = Stuck OutOfBounds.
Proof.
  eexists _, _, _, _, _.
  split; [vm_compute; reflexivity|].
  match goal with |- view ?h ?a = Some ?sa /\ view ?h ?b = Some ?sb /\ _ =>
    assert (view h a = Some sa) as Hva by (vm_compute; reflexivity);
    assert (view h b = Some sb) as Hvb by (vm_compute; reflexivity)
  end.
  split; [exact Hva|]. split; [exact Hvb|]. split; [reflexivity|].
  split.
  - apply (compare_needs_a_page _ _ _ _ _ Hva Hva ltac:(concrete) ltac:(concrete)).
    left. reflexivity.
  - apply (compare_needs_a_page _ _ _ _ _ Hvb Hva ltac:(concrete) ltac:(concrete)).
    right. reflexivity.
Defined.

(** X10 on a bitmap with one bit set. *)
Lemma compare_with_copy_counts_set_bits_witness :
  exists src h st,
    one_bit_set zeroes 291 [] = Ok src h /\
    view h src = Some st /\
    item_bit st 0 8 = Some true /\
    exists dst h',
      bitmap_copy zeroes src h = Ok dst h' /\
      bitmap_count src h' = Ok 1 h' /\
      bitmap_count dst h' = Ok 0 h' /\
      bitmap_compare src dst h' = Ok 1 h' /\
      bitmap_compare dst src h' = Ok 1 h'.
Proof.
  eexists _, _, _.
  split; [vm_compute; reflexivity|].
  match goal with |- view ?h ?a = Some ?sa /\ _ =>
    assert (view h a = Some sa) as Hv by (vm_compute; reflexivity)
  end.
  split; [exact Hv|]. split; [vm_compute; reflexivity|].
  destruct (compare_with_copy_counts_set_bits zeroes _ _ _ Hv
              ltac:(concrete) ltac:(concrete) ltac:(concrete))
    as (dst & h' & n & Hcopy & Hcount & Hzero & Hab & Hba).
  vm_compute in Hcopy. injection Hcopy as <- <-.
  assert (n = 1) as ->.
  { vm_compute in Hcount. by injection Hcount as <-. }
  eexists _, _. split; [vm_compute; reflexivity|].
  split; [exact Hcount|]. split; [exact Hzero|]. split; [exact Hab|exact Hba].
Defined.

(** X12 on a bitmap that is alone in the store. *)
Lemma free_gives_back_the_blocks_witness :
  exists src h st,
    one_bit_set zeroes 291 [] = Ok src h /\
    view h src = Some st /\
    exists h',
      bitmap_free src h = Ok tt h' /\
      h' = [Freed; Freed; Freed] /\
      bitmap_free src h' = Stuck InvalidPointer /\
      bitmap_add_page zeroes 291 src 0 1 h' = Stuck InvalidPointer /\
      bitmap_add_page zeroes 291 src (-1) 1 h' = Stuck AssertionFailed /\
      bitmap_count src h' = Stuck InvalidPointer /\
      bitmap_copy zeroes src h' = Stuck InvalidPointer.
Proof.
  eexists _, _, _.
  split; [vm_compute; reflexivity|].
  match goal with |- view ?h ?a = Some ?sa /\ _ =>
    assert (view h a = Some sa) as Hv by (vm_compute; reflexivity)
  end.
  split; [exact Hv|].
  destruct (free_gives_back_the_blocks zeroes 291 _ _ _ Hv)
    as (h' & Hfree & _ & _ & _ & _ & Hagain & _ & _ & Hadd & Hcount & _ & Hcopy & _).
  exists h'. split; [exact Hfree|].
  split; [vm_compute in Hfree; by injection Hfree as <-|].
  split; [exact Hagain|]. split; [exact (Hadd 0 1)|]. split; [exact (Hadd (-1) 1)|].
  split; [exact Hcount|exact Hcopy].
Defined.

(** X13 for the bytes 77, 255 and 10: the text is 4dff0a. *)
Lemma hex_reads_back_witness :
  exists text,
    hex zeroes 1%nat 3 [Chars [77; -1; 10]] = Ok 2%nat ([Chars [77; -1; 10]] ++ [Chars (text ++ [0])]) /\
    text = [chr "4"; chr "d"; chr "f"; chr "f"; chr "0"; chr "a"] /\
    Z.of_nat (length text) = 2 * 3 /\
    c_string (text ++ [0]) = text /\
    unhex text = Some [77; 255; 10].
Proof.
  destruct (hex_reads_back zeroes [Chars [77; -1; 10]] 1%nat [77; -1; 10] 3)
    as (text & Hrun & Hlen & Hstr & Hback).
  - reflexivity.
  - simpl. lia.
  - unfold INT_MAX. lia.
  - exists text. split; [exact Hrun|].
    split; [|split; [exact Hlen|split; [exact Hstr|exact Hback]]].
    vm_compute in Hrun. injection Hrun as Hrun.
    by destruct (app_inj_tail [52; 100; 102; 102; 48; 97] text 0 0 Hrun) as [<- _].
Defined.

(** X14 for the bytes 5 and 128, which have three bits set. *)
Lemma binary_prints_the_bits_witness :
  exists text tail,
    binary zeroes 1%nat 2 [Chars [5; -128]]
    = Ok 2%nat ([Chars [5; -128]] ++ [Chars (text ++ 0 :: tail)]) /\
    Z.of_nat (length text) = 8 * 2 /\
    length tail = 9%nat /\
    c_string (text ++ 0 :: tail) = text /\
    (forall idx, 0 <= idx < 8 * 2 ->
       cell text idx = Some (if is_set [5; -128] idx then chr "1" else chr "0")) /\
    Z.of_nat (length (List.filter (Z.eqb (chr "1")) text)) = set_bits [5; -128] 2 /\
    set_bits [5; -128] 2 = 3.
Proof.
  destruct (binary_prints_the_bits zeroes [Chars [5; -128]] 1%nat [5; -128] 2)
    as (text & tail & Hrun & Hlen & Htail & Hstr & Hcells & Hcount).
  - reflexivity.
  - simpl. lia.
  - unfold INT_MAX. lia.
  - exists text, tail. repeat (split; [assumption|]). reflexivity.
Defined.

(** X15 for two bytes: three characters, in a block of five bytes. *)
Lemma base64_writes_unpadded_text_witness :
  exists text tail,
    base64 zeroes 1%nat 2 [Chars [77; 97]]
    = Ok 2%nat ([Chars [77; 97]] ++ [Chars (text ++ 0 :: tail)]) /\
    c_string (text ++ 0 :: tail) = text /\
    Forall (fun c => c ∈ _base64) text /\
    Z.of_nat (length text) = 3 /\
    Z.of_nat (length (text ++ 0 :: tail)) = 5.
Proof.
  destruct (base64_writes_unpadded_text zeroes [Chars [77; 97]] 1%nat [77; 97] 2)
    as (text & tail & Hrun & Hstr & Hin & Hlen & Hsize).
  - reflexivity.
  - simpl. lia.
  - vm_compute. discriminate.
  - exists text, tail. repeat (split; [assumption|]). exact Hsize.
Defined.

(** X16 for four bytes. *)
Lemma base64_reads_back_witness :
  exists text tail,
    base64 zeroes 1%nat 4 [Chars [77; 97; 110; 33]]
    = Ok 2%nat ([Chars [77; 97; 110; 33]] ++ [Chars (text ++ 0 :: tail)]) /\
    c_string (text ++ 0 :: tail) = text /\
    unbase64 text = Some [77; 97; 110; 33].
Proof.
  destruct (base64_reads_back zeroes [Chars [77; 97; 110; 33]] 1%nat [77; 97; 110; 33] 4)
    as (text & tail & Hrun & Hstr & Hback).
  - reflexivity.
  - simpl. lia.
  - vm_compute. discriminate.
  - repeat constructor; lia.
  - exists text, tail. split; [exact Hrun|]. split; [exact Hstr|exact Hback].
Defined.

(** X17 on the example heap page, as page 0 of a new bitmap. *)
Lemma heap_items_of_the_next_page_witness :
  exists bitmap h st,
    bitmap_init zeroes 1 [] = Ok bitmap h /\
    view h bitmap = Some st /\
    exists h' st',
      bitmap_add_heap_items zeroes 291 bitmap example_heap_page example_heap_page 0 h
      = Ok 0 h' /\
      in_order zeroes 291 1 bitmap 1 h' /\
      view h' bitmap = Some st' /\
      cell (offsets st') 0 = Some 3 /\
      item_bit st' 0 0 = Some true /\
      item_bit st' 0 1 = Some true /\
      item_bit st' 0 2 = Some false /\
      (forall idx, idx < 0 \/ 3 <= idx -> is_set (bits st') idx = is_set (bits st) idx).
Proof.
  eexists _, _, _.
  match goal with |- ?run = Ok ?b ?h /\ _ =>
    assert (run = Ok b h) as Hinit by (vm_compute; reflexivity)
  end.
  split; [exact Hinit|].
  match goal with |- view ?h ?a = Some ?sa /\ _ =>
    assert (view h a = Some sa) as Hv by (vm_compute; reflexivity)
  end.
  split; [exact Hv|].
  destruct (heap_items_of_the_next_page zeroes 291 1 _ 0 _ _
              example_heap_page example_heap_page 0
              ltac:(unfold PALLOC_CHUNK; lia) ltac:(unfold INT_MAX; lia)
              (in_order_init zeroes 291 1 _ _ _ Hinit) ltac:(lia) Hv
              ltac:(simpl; lia) ltac:(reflexivity) ltac:(lia)
              ltac:(unfold INT_MAX; simpl; lia))
    as (h' & st' & Hrun & Horder & Hv' & Hcount & Hbits & Hrest).
  exists h', st'. split; [exact Hrun|]. split; [exact Horder|].
  split; [exact Hv'|]. split; [exact Hcount|].
  split; [exact (Hbits 0 ltac:(simpl; lia))|].
  split; [exact (Hbits 1 ltac:(simpl; lia))|].
  split; [exact (Hbits 2 ltac:(simpl; lia))|exact Hrest].
Defined.


(** X19 on a bitmap of one page of 16 items: page 1, and item 16 of
    page 0. *)
Lemma out_of_range_rejected_witness :
  exists src h st,
    one_bit_set zeroes 291 [] = Ok src h /\
    view h src = Some st /\
    npages (hdr st) = 1 /\ cell (offsets st) 0 = Some 16 /\
    (forall state, bitmap_set_item src 1 0 state h = Ok false h) /\
    bitmap_get_item src 1 0 h = Ok false h /\
    (forall state, bitmap_set_item src 0 16 state h = Ok false h) /\
    bitmap_get_item src 0 16 h = Ok false h.
Proof.
  eexists _, _, _.
  split; [vm_compute; reflexivity|].
  match goal with |- view ?h ?a = Some ?sa /\ _ =>
    assert (view h a = Some sa) as Hv by (vm_compute; reflexivity)
  end.
  split; [exact Hv|]. split; [reflexivity|]. split; [reflexivity|].
  destruct (out_of_range_rejected _ _ _ 1 0 16 Hv ltac:(reflexivity)
              ltac:(left; simpl; lia)) as (Hset & Hget).
  destruct (out_of_range_rejected _ _ _ 0 16 16 Hv ltac:(reflexivity)
              ltac:(right; exists 16; split; [reflexivity|lia])) as (Hset' & Hget').
  split; [exact Hset|]. split; [exact Hget|]. split; [exact Hset'|exact Hget'].
Defined.

(** X20: with item 8 set, item 9, whose bit is clear, has its bit in a
    byte that is 1. *)
Lemma bitmap_get_item_answers_for_byte_witness :
  exists src h st,
    one_bit_set zeroes 291 [] = Ok src h /\
    view h src = Some st /\
    item_bit st 0 9 = Some false /\
    exists idx c,
      index_of (offsets st) 0 9 = Some idx /\
      cell (bits st) (idx `quot` 8) = Some c /\
      bitmap_get_item src 0 9 h = Ok (negb (c =? 0)) h /\
      c = 1.
Proof.
  eexists _, _, _.
  split; [vm_compute; reflexivity|].
  match goal with |- view ?h ?a = Some ?sa /\ _ =>
    assert (view h a = Some sa) as Hv by (vm_compute; reflexivity)
  end.
  split; [exact Hv|]. split; [vm_compute; reflexivity|].
  destruct (bitmap_get_item_answers_for_byte _ _ _ 0 9 Hv) as (idx & c & Hidx & Hc & Hget).
  { exists 9, 16. concrete. }
  exists idx, c. split; [exact Hidx|]. split; [exact Hc|]. split; [exact Hget|].
  vm_compute in Hidx. injection Hidx as <-.
  vm_compute in Hc. by injection Hc as <-.
Defined.

(** X21 for pages of 2, 0 and 5 items: item 4 of page 2 is set, and item 1
    of page 0 is as before. *)
Lemma items_have_bits_of_their_own_witness :
  counts_ok 291 [2; 0; 5] /\
  exists bitmap h0 st0 h2 st2,
    build zeroes 291 3 [2; 0; 5] [] = Ok bitmap h0 /\
    view h0 bitmap = Some st0 /\
    bitmap_set_item bitmap 2 4 true h0 = Ok true h2 /\
    view h2 bitmap = Some st2 /\
    item_bit st2 2 4 = Some true /\
    item_bit st2 0 1 = item_bit st0 0 1.
Proof.
  assert (counts_ok 291 [2; 0; 5]) as Hok.
  { unfold counts_ok. repeat constructor; lia. }
  split; [exact Hok|].
  destruct (items_have_bits_of_their_own zeroes 291 [] 3 [2; 0; 5])
    as (bitmap & h0 & st0 & Hrun & Hv0 & Hitems).
  - unfold PALLOC_CHUNK. lia.
  - unfold INT_MAX. lia.
  - reflexivity.
  - exact Hok.
  - vm_compute. discriminate.
  - destruct (Hitems h0 st0 2%nat 4 true Hv0 (same_layout_refl st0))
      as (h2 & st2 & Hset & Hv2 & _ & Hbit & Hothers).
    { exists 5. split; [reflexivity|lia]. }
    exists bitmap, h0, st0, h2, st2.
    split; [exact Hrun|]. split; [exact Hv0|]. split; [exact Hset|].
    split; [exact Hv2|]. split; [exact Hbit|].
    apply (Hothers 0%nat 1).
    + exists 2. split; [reflexivity|lia].
    + intros [=].
Defined.

(** X22 on the example index page: bit 46 is set, bit 45 is not. *)
Lemma index_items_set_the_targets_only_witness :
  exists bitmap h st,
    build zeroes 291 5 [10; 10; 10; 10; 10] [] = Ok bitmap h /\
    view h bitmap = Some st /\
    targeted st example_index_page example_index_page 1 46 = true /\
    exists h' st',
      bitmap_add_index_items bitmap example_index_page example_index_page 9 h = Ok 0 h' /\
      view h' bitmap = Some st' /\ same_layout st st' /\
      is_set (bits st') 46 = true /\ is_set (bits st') 45 = false /\
      (forall p c, chunk_at h p = Some c -> p <> data (hdr st) -> chunk_at h' p = Some c).
Proof.
  eexists _, _, _.
  split; [vm_compute; reflexivity|].
  match goal with |- view ?h ?b = Some ?st /\ _ =>
    assert (view h b = Some st) as Hv by (vm_compute; reflexivity)
  end.
  split; [exact Hv|]. split; [vm_compute; reflexivity|].
  destruct (index_items_set_the_targets_only _ _ _
              example_index_page example_index_page 9 Hv)
    as (h' & st' & Hrun & Hv' & Hlay & Hbits & Hframe).
  { intros item _. exists 46, 50. concrete. }
  exists h', st'. split; [exact Hrun|]. split; [exact Hv'|]. split; [exact Hlay|].
  split; [|split; [|exact Hframe]].
  - rewrite Hbits. vm_compute. reflexivity.
  - rewrite Hbits. vm_compute. reflexivity.
Defined.

(** X23 for a heap that has the one item set that the example index page
    points to: no disagreement. *)
Lemma compare_counts_the_disagreements_witness :
  exists heap_bitmap h st,
    agreeing_heap zeroes 291 [] = Ok heap_bitmap h /\
    view h heap_bitmap = Some st /\
    disagreements st example_index_page example_index_page = 0 /\
    exists index_bitmap h1 h2,
      bitmap_copy zeroes heap_bitmap h = Ok index_bitmap h1 /\
      bitmap_add_index_items index_bitmap example_index_page example_index_page 0 h1
      = Ok 0 h2 /\
      bitmap_compare heap_bitmap index_bitmap h2 = Ok 0 h2 /\
      bitmap_compare index_bitmap heap_bitmap h2 = Ok 0 h2.
Proof.
  eexists _, _, _.
  split; [vm_compute; reflexivity|].
  match goal with |- view ?h ?b = Some ?st /\ _ =>
    assert (view h b = Some st) as Hv by (vm_compute; reflexivity)
  end.
  split; [exact Hv|].
  match goal with |- ?d = 0 /\ _ =>
    assert (d = 0) as Hnone by (vm_compute; reflexivity)
  end.
  split; [exact Hnone|].
  destruct (compare_counts_the_disagreements zeroes _ _ _
              example_index_page example_index_page 0 Hv)
    as (index_bitmap & h1 & h2 & Hcopy & Hrun & Hab & Hba & _).
  - concrete.
  - concrete.
  - concrete.
  - intros item _. exists 46, 50. concrete.
  - rewrite Hnone in Hab, Hba.
    exists index_bitmap, h1, h2.
    split; [exact Hcopy|]. split; [exact Hrun|]. split; [exact Hab|exact Hba].
Defined.
